(** * netsuite-sdk: the HTTP transport core and the SuiteQL paginator

    A shallow embedding of the TypeScript sources

    - [utils/url-builder.ts]          ([normalizeAccountId], the host builders),
    - [types/errors.ts]               ([NetSuiteError] and its two getters),
    - [types/http.ts], [types/middleware.ts], [types/suiteql.ts] (the records),
    - [transport/retry.ts]            ([withRetry]),
    - [transport/middleware-chain.ts] ([executeMiddlewareChain]),
    - [transport/oauth.ts], [transport/http-transport.ts]
                                      ([HttpTransport.request], [executeRequest]),
    - [suiteql/suiteql-client.ts]     ([SuiteQLClient.query], [queryOne],
                                       [queryPages]),
    - [client.ts], [records/record-client.ts]
                                      (the methods that go through
                                       [HttpTransport.request] with a fixed
                                       method),
    - [utils/validation.ts]           ([validateConfig]),
    - the SuiteQL query builder       ([SuiteQLBuilder], [escapeValue]),
    - the response cache and the rate limiter
                                      ([ResponseCache], [RateLimiter]),

    followed by the properties established about them.

    Conventions.

    - An [async] function is a state transformer over a world [W] that
      returns either a value or the thrown JavaScript value ([Async W T]).
      Everything is awaited, so runs are sequential.
    - JavaScript numbers that count or index are integers ([Z]), and
      [Infinity] is added where the sources use it.  The numbers of the
      retry configuration are finite ([Q]); the backoff arithmetic on
      them is done on JavaScript numbers ([Double.number]): a rational
      within the range of the doubles, [Infinity], [-Infinity] or [NaN],
      with the overflow to the infinities and the special values of
      IEEE 754 ([0 * Infinity] is [NaN], [Math.min] of a [NaN] is [NaN]).
      Within the range a result is kept exact: the rounding to 53 bits,
      the underflow to 0 and the sign of zero are outside the model
      ([Math.pow] is only approximated by an implementation, so its
      rounding is not fixed by the language).  Strings are [string];
      objects used as dictionaries are [gmap string _].
    - What is not part of the repository (the [oauth-1.0a] library, axios
      and the network, the timer, [Math.random], the clock) is a parameter.
    - User callbacks are parameters too: a middleware is a tree of the
      operations the executor offers it, the retry callbacks are functions
      on the world.
    - Loops that the sources bound themselves get exactly the fuel they
      need; the [while (true)] of the paginator, which need not terminate,
      is run for any given number of iterations.
    - [Date.now()] is an argument of the operations that read it. *)

From Stdlib Require Import ZArith QArith Qminmax Qround Qpower Lia Lqa Bool List.
From Stdlib Require Import Ascii String.
From stdpp Require Import base option list strings gmap pretty sorting.

Import ListNotations.
Set Warnings "-register-all".
Local Open Scope Z_scope.
Local Open Scope string_scope.
Local Open Scope list_scope.

(* ================================================================== *)
(** * Account identifiers and host names ([utils/url-builder.ts])      *)
(* ================================================================== *)

Module UrlBuilder.

(** [String.prototype.toLowerCase] on one code unit.  Account identifiers
    are ASCII, and on ASCII the method maps [A-Z] to [a-z] and leaves
    every other character alone. *)
Definition lower_ascii (c : ascii) : ascii :=
  let n := nat_of_ascii c in
  if (Nat.leb 65 n && Nat.leb n 90)%bool then ascii_of_nat (n + 32) else c.

Fixpoint toLowerCase (s : string) : string :=
  match s with
  | EmptyString => EmptyString
  | String c r => String (lower_ascii c) (toLowerCase r)
  end.

(** [s.replace(/_/g, '-')]: every underscore, not only the first one. *)
Fixpoint replace_underscores (s : string) : string :=
  match s with
  | EmptyString => EmptyString
  | String c r =>
      String (if Ascii.eqb c "_" then "-"%char else c) (replace_underscores r)
  end.

(** [accountId.toLowerCase().replace(/_/g, '-')] *)
Definition normalizeAccountId (accountId : string) : string :=
  replace_underscores (toLowerCase accountId).

Definition buildSuiteTalkUrl (accountId : string) : string :=
  ("https://" ++ normalizeAccountId accountId ++ ".suitetalk.api.netsuite.com")%string.

Definition buildRestletUrl (accountId : string) : string :=
  ("https://" ++ normalizeAccountId accountId ++ ".restlets.api.netsuite.com")%string.

(** The three clients repeat the expression inline in their constructors
    instead of calling [normalizeAccountId]; the inline copies are kept
    as they are written. *)
Definition SuiteQLClient_baseUrl (accountId : string) : string :=
  let normalizedId := replace_underscores (toLowerCase accountId) in
  ("https://" ++ normalizedId
    ++ ".suitetalk.api.netsuite.com/services/rest/query/v1/suiteql")%string.

Definition RecordClient_baseUrl (accountId : string) : string :=
  let normalizedId := replace_underscores (toLowerCase accountId) in
  ("https://" ++ normalizedId
    ++ ".suitetalk.api.netsuite.com/services/rest/record/v1")%string.

Definition RestletClient_baseUrl (accountId : string) : string :=
  let normalizedId := replace_underscores (toLowerCase accountId) in
  ("https://" ++ normalizedId
    ++ ".restlets.api.netsuite.com/app/site/hosting/restlet.nl")%string.

(** The transformation in the words of the specification: one pass that
    sends an underscore to a hyphen and any other character to its lower
    case. *)
Definition normalize_char (c : ascii) : ascii :=
  if Ascii.eqb c "_" then "-"%char else lower_ascii c.

Fixpoint map_string (f : ascii -> ascii) (s : string) : string :=
  match s with
  | EmptyString => EmptyString
  | String c r => String (f c) (map_string f r)
  end.

Definition normalize_spec (s : string) : string := map_string normalize_char s.

(** An identifier is normalized when it has no upper-case letter and no
    underscore. *)
Definition normalized_char (c : ascii) : bool :=
  let n := nat_of_ascii c in
  negb (Nat.leb 65 n && Nat.leb n 90) && negb (Ascii.eqb c "_").

Fixpoint is_normalized (s : string) : bool :=
  match s with
  | EmptyString => true
  | String c r => normalized_char c && is_normalized r
  end.

End UrlBuilder.

(* ================================================================== *)
(** * JavaScript values, thrown values and asynchronous computations   *)
(* ================================================================== *)

Module Js.

(** Untyped values: request bodies, response bodies, error payloads. *)
Inductive Value : Type :=
| VUndefined
| VNull
| VBool (b : bool)
| VNumber (q : Q)
| VNaN
| VString (s : string)
| VObject (fields : list (string * Value))
| VArray (items : list Value).

(** ToBoolean: the falsy values are [undefined], [null], [false], [0],
    [NaN] and the empty string. *)
Definition truthy (v : Value) : bool :=
  match v with
  | VUndefined | VNull | VNaN => false
  | VBool b => b
  | VNumber q => negb (Qeq_bool q 0)
  | VString s => negb (String.eqb s "")
  | VObject _ | VArray _ => true
  end.

Definition nullish (v : Value) : bool :=
  match v with VUndefined | VNull => true | _ => false end.

(** [a ?? b] *)
Definition coalesce (a b : Value) : Value := if nullish a then b else a.

Fixpoint assoc (k : string) (fields : list (string * Value)) : Value :=
  match fields with
  | [] => VUndefined
  | (k', v) :: r => if String.eqb k k' then v else assoc k r
  end.

(** [v.k] / [v['k']] on a non-nullish receiver: a missing property, and
    any property of a primitive that the sources read, is [undefined]. *)
Definition get (v : Value) (k : string) : Value :=
  match v with
  | VObject fields => assoc k fields
  | _ => VUndefined
  end.

(** [v === 'literal'] *)
Definition is_string (v : Value) (s : string) : bool :=
  match v with VString t => String.eqb t s | _ => false end.

End Js.

Inductive HttpMethod : Type := GET | POST | PUT | PATCH | DELETE.

#[global] Instance HttpMethod_eq_dec : EqDecision HttpMethod.
Proof. solve_decision. Defined.

(** Header dictionaries, [Record<string, string>]. *)
Abbreviation Headers := (gmap string string).

(* ================================================================== *)
(** * [types/errors.ts]                                                *)
(* ================================================================== *)

Record NetSuiteError : Type := mkNetSuiteError {
  message : Js.Value;
  status : Z;
  code : Js.Value;
  details : Js.Value;
  requestUrl : option string;
  requestMethod : option HttpMethod;
}.

(** [this.status >= 500 || this.code === 'TIMEOUT' || this.code === 'NETWORK_ERROR'] *)
Definition isRetryable (e : NetSuiteError) : bool :=
  (500 <=? status e)%Z || Js.is_string (code e) "TIMEOUT"
  || Js.is_string (code e) "NETWORK_ERROR".

(** [this.status === 401 || this.status === 403] *)
Definition isAuthError (e : NetSuiteError) : bool :=
  (status e =? 401)%Z || (status e =? 403)%Z.

(** What a [catch] clause can receive: a [NetSuiteError], or some other
    [Error] object, which may carry a [code] property as axios errors do. *)
Inductive Thrown : Type :=
| ThrownNetSuite (e : NetSuiteError)
| ThrownError (err_code : option string) (err_message : string).

(** A settled promise. *)
Inductive Outcome (T : Type) : Type :=
| Resolved (v : T)
| Rejected (e : Thrown).
Arguments Resolved {T} v.
Arguments Rejected {T} e.

Definition is_rejected {T} (o : Outcome T) : bool :=
  match o with Rejected _ => true | Resolved _ => false end.

(** An awaited asynchronous computation over the world [W]. *)
Definition Async (W T : Type) : Type := W -> Outcome T * W.

Definition throw {W T} (e : Thrown) : Async W T := fun w => (Rejected e, w).

(* ================================================================== *)
(** * The numbers of the backoff arithmetic                            *)
(* ================================================================== *)

Module Double.

(** A JavaScript number: a rational within the range of the doubles, an
    infinity, or [NaN].  The operations follow IEEE 754, as JavaScript
    does, for the special values and for overflow; a result within the
    range is kept exact, so rounding and underflow are outside the model,
    and so is the sign of zero. *)
Inductive number : Type :=
| Real (q : Q)
| PlusInfinity
| MinusInfinity
| NaN.

(** A magnitude from [2^1024 - 2^970] on rounds to an infinity. *)
Definition OVERFLOW : Q := inject_Z (2 ^ 1024 - 2 ^ 970).

(** The number that an exact value becomes. *)
Definition of_Q (q : Q) : number :=
  if Qle_bool OVERFLOW q then PlusInfinity
  else if Qle_bool q (- OVERFLOW) then MinusInfinity
  else Real q.

Definition opposite (a : number) : number :=
  match a with
  | Real q => Real (- q)
  | PlusInfinity => MinusInfinity
  | MinusInfinity => PlusInfinity
  | NaN => NaN
  end.

(** [q * Infinity] *)
Definition times_infinity (q : Q) : number :=
  if Qeq_bool q 0 then NaN
  else if Qle_bool 0 q then PlusInfinity else MinusInfinity.

(** [a * b] *)
Definition mul (a b : number) : number :=
  match a, b with
  | NaN, _ | _, NaN => NaN
  | Real x, Real y => of_Q (x * y)
  | Real x, PlusInfinity | PlusInfinity, Real x => times_infinity x
  | Real x, MinusInfinity | MinusInfinity, Real x => opposite (times_infinity x)
  | PlusInfinity, PlusInfinity | MinusInfinity, MinusInfinity => PlusInfinity
  | PlusInfinity, MinusInfinity | MinusInfinity, PlusInfinity => MinusInfinity
  end.

(** [a + b] *)
Definition add (a b : number) : number :=
  match a, b with
  | NaN, _ | _, NaN => NaN
  | Real x, Real y => of_Q (x + y)
  | PlusInfinity, MinusInfinity | MinusInfinity, PlusInfinity => NaN
  | PlusInfinity, _ | _, PlusInfinity => PlusInfinity
  | MinusInfinity, _ | _, MinusInfinity => MinusInfinity
  end.

(** [a - b] *)
Definition sub (a b : number) : number := add a (opposite b).

(** [Math.min(a, b)] *)
Definition min (a b : number) : number :=
  match a, b with
  | NaN, _ | _, NaN => NaN
  | MinusInfinity, _ | _, MinusInfinity => MinusInfinity
  | PlusInfinity, c | c, PlusInfinity => c
  | Real x, Real y => Real (Qmin x y)
  end.

(** [Math.pow(base, exponent)] for an integer [exponent]. *)
Definition pow (base : number) (exponent : Z) : number :=
  if (exponent =? 0)%Z then Real 1
  else
    match base with
    | NaN => NaN
    | Real x =>
        if (exponent <? 0)%Z && Qeq_bool x 0 then PlusInfinity
        else of_Q (x ^ exponent)
    | PlusInfinity => if (0 <? exponent)%Z then PlusInfinity else Real 0
    | MinusInfinity =>
        if (0 <? exponent)%Z
        then (if Z.odd exponent then MinusInfinity else PlusInfinity)
        else Real 0
    end.

(** [a] is the number [q], up to the representation of [q]. *)
Definition is_real (a : number) (q : Q) : Prop :=
  match a with Real x => (x == q)%Q | _ => False end.

(** [a] is a number between [lo] and [hi]. *)
Definition within (lo hi : Q) (a : number) : Prop :=
  match a with Real x => (lo <= x /\ x <= hi)%Q | _ => False end.

(** [a >= 0] *)
Definition not_negative (a : number) : Prop :=
  match a with
  | Real x => (0 <= x)%Q
  | PlusInfinity => True
  | MinusInfinity | NaN => False
  end.

End Double.

(** What the sources use of the host: timers, [Math.random] and
    [performance.now]. *)
Class Runtime (W : Type) : Type := {
  (** [await new Promise((resolve) => setTimeout(resolve, ms))] *)
  setTimeout : Double.number -> W -> W;
  Math_random : W -> Q * W;
  performance_now : W -> Q;
}.

(** [Math.round] *)
Definition Math_round (x : Q) : Z := Qfloor (x + (1 # 2)).

(* ================================================================== *)
(** * [transport/retry.ts]                                             *)
(* ================================================================== *)

Module Retry.

(** The callbacks are taken not to throw. *)
Record RetryConfig (W : Type) : Type := mkRetryConfig {
  maxRetries : Z;
  initialDelay : Q;
  maxDelay : Q;
  backoffFactor : Q;
  shouldRetry : Thrown -> Z -> W -> bool * W;
  onRetry : option (Thrown -> Z -> W -> W);
}.
Arguments mkRetryConfig {W}.
Arguments maxRetries {W}.
Arguments initialDelay {W}.
Arguments maxDelay {W}.
Arguments backoffFactor {W}.
Arguments shouldRetry {W}.
Arguments onRetry {W}.

(** [Partial<RetryConfig>] *)
Record PartialRetryConfig (W : Type) : Type := mkPartial {
  p_maxRetries : option Z;
  p_initialDelay : option Q;
  p_maxDelay : option Q;
  p_backoffFactor : option Q;
  p_shouldRetry : option (Thrown -> Z -> W -> bool * W);
  p_onRetry : option (Thrown -> Z -> W -> W);
}.
Arguments mkPartial {W}.
Arguments p_maxRetries {W}.
Arguments p_initialDelay {W}.
Arguments p_maxDelay {W}.
Arguments p_backoffFactor {W}.
Arguments p_shouldRetry {W}.
Arguments p_onRetry {W}.

Definition DEFAULT_RETRY_CONFIG {W} : RetryConfig W := {|
  maxRetries := 3;
  initialDelay := 1000;
  maxDelay := 30000;
  backoffFactor := 2;
  shouldRetry := fun error _ w =>
    match error with
    | ThrownNetSuite e => (isRetryable e, w)
    | ThrownError _ _ => (true, w)
    end;
  onRetry := None;
|}.

(** [{ ...DEFAULT_RETRY_CONFIG, ...config }] *)
Definition merge {W} (d : RetryConfig W) (c : PartialRetryConfig W)
  : RetryConfig W := {|
  maxRetries := default (maxRetries d) (p_maxRetries c);
  initialDelay := default (initialDelay d) (p_initialDelay c);
  maxDelay := default (maxDelay d) (p_maxDelay c);
  backoffFactor := default (backoffFactor d) (p_backoffFactor c);
  shouldRetry := default (shouldRetry d) (p_shouldRetry c);
  onRetry := match p_onRetry c with Some f => Some f | None => onRetry d end;
|}.

(** [Math.min(initialDelay * Math.pow(backoffFactor, attempt), maxDelay)].
    The three numbers of the configuration are finite; the arithmetic
    on them is that of JavaScript. *)
Definition backoffDelay {W} (opts : RetryConfig W) (attempt : Z) : Double.number :=
  Double.min
    (Double.mul (Double.of_Q (initialDelay opts))
       (Double.pow (Double.of_Q (backoffFactor opts)) attempt))
    (Double.of_Q (maxDelay opts)).

(** [delay * 0.25 * (Math.random() * 2 - 1)] *)
Definition jitterOf (delay : Double.number) (r : Q) : Double.number :=
  Double.mul (Double.mul delay (Double.Real (1 # 4)))
    (Double.sub (Double.mul (Double.of_Q r) (Double.Real 2)) (Double.Real 1)).

(** The argument of [setTimeout] in the retry with index [attempt] when
    [Math.random()] returned [r]. *)
Definition sleepDuration {W} (opts : RetryConfig W) (attempt : Z) (r : Q)
  : Double.number :=
  let delay := backoffDelay opts attempt in
  Double.add delay (jitterOf delay r).

Definition LOOP_EXITED : Thrown :=
  ThrownError None "Retry loop exited unexpectedly".

Section WithRetry.
Context {W : Type} `{Runtime W} {T : Type}.
Variable fn : Async W T.
Variable opts : RetryConfig W.

(** The [for] loop from the value [attempt] of its counter on.  [fuel]
    bounds the number of iterations; [withRetry] supplies as many as
    the loop condition allows. *)
Fixpoint retry_loop (fuel : nat) (attempt : Z) (w : W) : Outcome T * W :=
  if negb (attempt <=? maxRetries opts)%Z then (Rejected LOOP_EXITED, w)
  else
    match fuel with
    | O => (Rejected LOOP_EXITED, w)
    | S fuel' =>
        match fn w with
        | (Resolved v, w1) => (Resolved v, w1)
        | (Rejected error, w1) =>
            let isLastAttempt := (attempt =? maxRetries opts)%Z in
            if isLastAttempt then (Rejected error, w1)
            else
              let '(retry, w2) := shouldRetry opts error attempt w1 in
              if negb retry then (Rejected error, w2)
              else
                let w3 := match onRetry opts with
                          | Some f => f error (attempt + 1) w2
                          | None => w2
                          end in
                let delay := backoffDelay opts attempt in
                let '(r, w4) := Math_random w3 in
                let jitter := jitterOf delay r in
                let w5 := setTimeout (Double.add delay jitter) w4 in
                retry_loop fuel' (attempt + 1) w5
        end
    end.
End WithRetry.

Definition withRetry {W} `{Runtime W} {T} (fn : Async W T)
    (config : PartialRetryConfig W) : Async W T :=
  let opts := merge DEFAULT_RETRY_CONFIG config in
  retry_loop fn opts (Z.to_nat (maxRetries opts + 1)) 0.

End Retry.

(* ================================================================== *)
(** * Observing a run of [withRetry]                                   *)
(* ================================================================== *)

(** To count invocations the wrapped operation and the host are put under
    observation, in the way a test double records its calls: the observed
    world pairs the real world with a chronological log.  Nothing else
    changes: [Spy.spy_transparent] shows that the observed run computes what
    the plain run computes. *)
Module Spy.
Import Retry.

Section Spied.
Context {W : Type} `{RT : Runtime W} {T : Type}.

Inductive Observation : Type :=
| Called (o : Outcome T)     (* the wrapped operation ran and settled *)
| Drew (r : Q)               (* [Math.random()] returned [r] *)
| Slept (ms : Double.number). (* [setTimeout(resolve, ms)] elapsed *)

(** A question put to the retryability predicate, [shouldRetry(error,
    attempt)], with the answer it gave. *)
Record Question : Type := mkQuestion {
  q_error : Thrown;
  q_attempt : Z;
  q_answer : bool;
}.

(** The observed world: what has been observed of the run, the
    questions put to the predicate so far, and the world itself. *)
Record Spied : Type := mkSpied {
  log : list Observation;
  asked : list Question;
  inner : W;
}.

Definition watch (w : W) : Spied := mkSpied [] [] w.

Definition note (o : Observation) (s : Spied) (w : W) : Spied :=
  mkSpied (log s ++ [o]) (asked s) w.

Definition spy_fn (fn : Async W T) : Async Spied T := fun s =>
  let '(o, w) := fn (inner s) in (o, note (Called o) s w).

#[export] Instance spy_runtime : Runtime Spied := {|
  setTimeout ms s := note (Slept ms) s (setTimeout ms (inner s));
  Math_random s := let '(r, w) := Math_random (inner s) in (r, note (Drew r) s w);
  performance_now s := performance_now (inner s);
|}.

(** Callbacks act on the real world and leave the log alone.  The
    predicate is asked in the real world, and the question is kept
    with its answer. *)
Definition lift_should (f : Thrown -> Z -> W -> bool * W)
  : Thrown -> Z -> Spied -> bool * Spied :=
  fun e k s =>
    let '(b, w) := f e k (inner s) in
    (b, mkSpied (log s) (asked s ++ [mkQuestion e k b]) w).

Definition lift_on (f : Thrown -> Z -> W -> W) : Thrown -> Z -> Spied -> Spied :=
  fun e k s => mkSpied (log s) (asked s) (f e k (inner s)).

(** The configuration seen from the observed world.  The predicate in
    force, the one of the configuration or else the default one, is
    the one that is observed. *)
Definition spy_config (c : PartialRetryConfig W) : PartialRetryConfig Spied := {|
  p_maxRetries := p_maxRetries c;
  p_initialDelay := p_initialDelay c;
  p_maxDelay := p_maxDelay c;
  p_backoffFactor := p_backoffFactor c;
  p_shouldRetry :=
    Some (lift_should
            (default (shouldRetry DEFAULT_RETRY_CONFIG) (p_shouldRetry c)));
  p_onRetry := lift_on <$> p_onRetry c;
|}.

Definition calls_of (l : list Observation) : list (Outcome T) :=
  omap (fun o => match o with Called r => Some r | _ => None end) l.

Definition draws_of (l : list Observation) : list Q :=
  omap (fun o => match o with Drew r => Some r | _ => None end) l.

Definition sleeps_of (l : list Observation) : list Double.number :=
  omap (fun o => match o with Slept ms => Some ms | _ => None end) l.

(** Number of times the wrapped operation was invoked. *)
Definition call_count (s : Spied) : Z := Z.of_nat (length (calls_of (log s))).

(** [opts'] is [opts] seen from the observed world. *)
Record lifts (opts : RetryConfig W) (opts' : RetryConfig Spied) : Prop := {
  lifts_max : maxRetries opts' = maxRetries opts;
  lifts_initial : initialDelay opts' = initialDelay opts;
  lifts_cap : maxDelay opts' = maxDelay opts;
  lifts_factor : backoffFactor opts' = backoffFactor opts;
  lifts_should : forall e k s,
    shouldRetry opts' e k s = lift_should (shouldRetry opts) e k s;
  lifts_on : forall e k s,
    match onRetry opts' with Some f => f e k s | None => s end
    = mkSpied (log s) (asked s)
        match onRetry opts with Some f => f e k (inner s) | None => inner s end;
}.

(** The logs a run of the loop can leave, from the value [a] of the
    counter on, together with the way the run settles.  A round that
    is retried leaves a failed call, one draw and one sleep; the run
    ends with the call that settles it, or with no call at all when
    the loop condition is false on entry. *)
Inductive run_log (fn : Async W T) (opts : RetryConfig W)
  : Z -> list Observation -> Outcome T -> Prop :=
| run_exit a :
    (maxRetries opts < a)%Z ->
    run_log fn opts a [] (Rejected LOOP_EXITED)
| run_resolved a v (w : W) :
    (a <= maxRetries opts)%Z ->
    fst (fn w) = Resolved v ->
    run_log fn opts a [Called (Resolved v)] (Resolved v)
| run_rejected a e (w w' : W) :
    (a <= maxRetries opts)%Z ->
    fst (fn w) = Rejected e ->
    a = maxRetries opts \/ fst (shouldRetry opts e a w') = false ->
    run_log fn opts a [Called (Rejected e)] (Rejected e)
| run_retry a e (w w' w'' : W) l res :
    (a < maxRetries opts)%Z ->
    fst (fn w) = Rejected e ->
    fst (shouldRetry opts e a w') = true ->
    run_log fn opts (a + 1) l res ->
    run_log fn opts a
      (Called (Rejected e) :: Drew (fst (Math_random (W:=W) w''))
         :: Slept (sleepDuration opts a (fst (Math_random (W:=W) w''))) :: l)
      res.


(** The questions that go with such a log.  The predicate is asked
    after a failed call that is not the last one the loop allows, for
    the error of that call and the counter at that moment, in the
    world the call left; the run goes on exactly when it accepts. *)
Inductive ask_log (opts : RetryConfig W)
  : Z -> list Observation -> list Question -> Prop :=
| ask_exit a :
    (maxRetries opts < a)%Z ->
    ask_log opts a [] []
| ask_resolved a v :
    (a <= maxRetries opts)%Z ->
    ask_log opts a [Called (Resolved v)] []
| ask_last a e :
    a = maxRetries opts ->
    ask_log opts a [Called (Rejected e)] []
| ask_refused a e (w' : W) :
    (a < maxRetries opts)%Z ->
    fst (shouldRetry opts e a w') = false ->
    ask_log opts a [Called (Rejected e)] [mkQuestion e a false]
| ask_accepted a e (w' : W) r ms l q :
    (a < maxRetries opts)%Z ->
    fst (shouldRetry opts e a w') = true ->
    ask_log opts (a + 1) l q ->
    ask_log opts a (Called (Rejected e) :: Drew r :: Slept ms :: l)
      (mkQuestion e a true :: q).

End Spied.
Arguments Spied W T : clear implicits.
Arguments Observation T : clear implicits.

End Spy.


(* ================================================================== *)
(** * [types/middleware.ts] and the world of one transport             *)
(* ================================================================== *)

Record RequestContext : Type := mkRequestContext {
  ctx_url : string;
  ctx_method : HttpMethod;
  ctx_headers : Headers;
  ctx_body : Js.Value;
  ctx_metadata : list (string * Js.Value);
}.

Record ResponseContext : Type := mkResponseContext {
  res_status : Z;
  res_headers : Headers;
  res_body : Js.Value;
  res_duration : Z;
}.

(** The argument of [axiosInstance.request]. *)
Record AxiosRequestConfig : Type := mkAxiosRequestConfig {
  ax_url : string;
  ax_method : HttpMethod;
  ax_headers : Headers;
  ax_data : Js.Value;
  ax_timeout : Z;
}.

(** What [axiosInstance.request] resolves with.  Header values need not be
    strings; [ar_headers] is [None] when the response has no [headers]. *)
Record AxiosResponse : Type := mkAxiosResponse {
  ar_status : Z;
  ar_data : Js.Value;
  ar_headers : option (list (string * Js.Value));
}.

(** Everything a run does that can be seen from outside, in order. *)
Inductive Event : Type :=
| EvSign (url : string) (method : HttpMethod)      (* [this.sign(url, method)] *)
| EvSend (config : AxiosRequestConfig)             (* [axiosInstance.request(config)] *)
| EvEffect (tag : string)                          (* a side effect of a middleware *)
| EvDebug (method : HttpMethod) (url : string) (header_names : list string)
| EvInfo (method : HttpMethod) (url : string) (status : Z) (duration : Z)
| EvWarn (attempt maxRetries : Z) (url : string) (method : HttpMethod) (error : Thrown)
| EvRandom (r : Q)                                 (* [Math.random()] *)
| EvSleep (ms : Double.number).                    (* the backoff timer *)

(** The world of a transport: the trace so far, and the [context] object
    of the attempt in progress.  The attempt allocates the object, hands
    the reference to every middleware and captures it in the terminal
    handler, so all of them read and write this one cell. *)
Record World : Type := mkWorld {
  trace : list Event;
  context : RequestContext;
}.

Definition emit (e : Event) (w : World) : World :=
  mkWorld (trace w ++ [e]) (context w).

Definition set_context (c : RequestContext) (w : World) : World :=
  mkWorld (trace w) c.

Definition EMPTY_CONTEXT : RequestContext :=
  mkRequestContext "" GET ∅ Js.VUndefined [].

Definition INITIAL_WORLD : World := mkWorld [] EMPTY_CONTEXT.

(* ================================================================== *)
(** * [transport/middleware-chain.ts]                                  *)
(* ================================================================== *)

Module MiddlewareChain.

(** A middleware is user code of the shape
    [(context, next) => Promise<ResponseContext>].  What such a function
    can do is described by a tree of the operations at its disposal:
    return a response, throw, perform a side effect, read or mutate the
    context it was handed, and await [next()], continuing with whatever
    the call settled to (so that a [try]/[catch] around it is
    expressible). *)
Inductive Middleware : Type :=
| Return (r : ResponseContext)
| Throw (e : Thrown)
| Effect (tag : string) (k : Middleware)
| Read (k : RequestContext -> Middleware)
| Mutate (f : RequestContext -> RequestContext) (k : Middleware)
| Next (k : Outcome ResponseContext -> Middleware).

(** The state of one call of [executeMiddlewareChain]: the local
    [index], which the closure [next] shares between all its calls, and
    the world. *)
Definition ChainState : Type := (nat * World)%type.

(** Running the body of a middleware, given the closure [next]. *)
Fixpoint run (m : Middleware) (next : Async ChainState ResponseContext)
    (st : ChainState) : Outcome ResponseContext * ChainState :=
  match m with
  | Return r => (Resolved r, st)
  | Throw e => (Rejected e, st)
  | Effect tag k => run k next (fst st, emit (EvEffect tag) (snd st))
  | Read k => run (k (context (snd st))) next st
  | Mutate f k => run k next (fst st, set_context (f (context (snd st))) (snd st))
  | Next k => let '(o, st') := next st in run (k o) next st'
  end.

Definition STUCK : Thrown := ThrownError None "middleware chain out of fuel".

Section Chain.
Variable middlewares : list Middleware.
Variable finalHandler : Async World ResponseContext.

(** The closure [next].  Every call that reaches a middleware
    increments [index] first, so [length middlewares - index] bounds
    the nesting depth; [fuel] stands for that bound and the [STUCK]
    branch is never taken (see [next_fuel_irrelevant]). *)
Fixpoint next (fuel : nat) (st : ChainState)
    : Outcome ResponseContext * ChainState :=
  let '(index, w) := st in
  if (length middlewares <=? index)%nat then
    let '(o, w') := finalHandler w in (o, (index, w'))
  else
    match fuel, middlewares !! index with
    | S fuel', Some middleware => run middleware (next fuel') (S index, w)
    | _, _ => (Rejected STUCK, st)
    end.

Definition executeMiddlewareChain : Async World ResponseContext := fun w =>
  let '(o, (_, w')) := next (length middlewares) (0%nat, w) in (o, w').
End Chain.

(** The usual shape of a middleware: something on the way in, one call
    of [next], something on the way out; a failure of [next] is not
    caught. *)
Definition around (enter leave : string)
    (rewrite_request : RequestContext -> RequestContext)
    (rewrite_response : ResponseContext -> ResponseContext) : Middleware :=
  Effect enter
    (Mutate rewrite_request
       (Next (fun o => match o with
                       | Resolved r => Effect leave (Return (rewrite_response r))
                       | Rejected e => Throw e
                       end))).

(** [async (ctx, next) => { order.push(enter); const res = await next();
    order.push(leave); return res; }] *)
Definition logging (enter leave : string) : Middleware :=
  around enter leave (fun c => c) (fun r => r).

(** A terminal handler that records [tag] and resolves with [r]. *)
Definition handler (tag : string) (r : ResponseContext)
  : Async World ResponseContext :=
  fun w => (Resolved r, emit (EvEffect tag) w).

(** Every mutation a middleware performs satisfies [Q]. *)
Inductive respects (Q : (RequestContext -> RequestContext) -> Prop)
  : Middleware -> Prop :=
| respects_return r : respects Q (Return r)
| respects_throw e : respects Q (Throw e)
| respects_effect tag k : respects Q k -> respects Q (Effect tag k)
| respects_read k : (forall c, respects Q (k c)) -> respects Q (Read k)
| respects_mutate f k : Q f -> respects Q k -> respects Q (Mutate f k)
| respects_next k : (forall o, respects Q (k o)) -> respects Q (Next k).

(** A middleware that leaves the headers of the context as they are. *)
Definition keeps_headers : Middleware -> Prop :=
  respects (fun f => forall c, ctx_headers (f c) = ctx_headers c).

(** A middleware that leaves the body and the method of the context as
    they are. *)
Definition keeps_body : Middleware -> Prop :=
  respects (fun f => forall c,
              (ctx_body (f c), ctx_method (f c)) = (ctx_body c, ctx_method c)).

End MiddlewareChain.

(* ================================================================== *)
(** * [transport/oauth.ts] and [transport/http-transport.ts]           *)
(* ================================================================== *)

Module HttpTransport.
Import Retry MiddlewareChain.

Record OAuthConfig : Type := mkOAuthConfig {
  consumerKey : string;
  consumerSecret : string;
  tokenKey : string;
  tokenSecret : string;
  realm : string;
}.

Record NetSuiteConfig : Type := mkNetSuiteConfig {
  ns_auth : OAuthConfig;
  ns_accountId : string;
  ns_timeout : option Z;
  ns_maxRetries : option Z;
  ns_retryDelay : option Q;
  ns_defaultHeaders : option Headers;
  ns_logger : bool;                  (* is a logger configured? *)
}.

Record ResolvedConfig : Type := mkResolvedConfig {
  rc_timeout : Z;
  rc_maxRetries : Z;
  rc_retryDelay : Q;
  rc_defaultHeaders : Headers;
  rc_logger : bool;
}.

Record RequestOptions : Type := mkRequestOptions {
  opt_method : option HttpMethod;
  opt_headers : option Headers;
  opt_body : Js.Value;               (* [undefined] when absent *)
  opt_timeout : option Z;
  opt_maxRetries : option Z;
}.

Definition NO_OPTIONS : RequestOptions :=
  mkRequestOptions None None Js.VUndefined None None.

Record NetSuiteResponse : Type := mkNetSuiteResponse {
  data : Js.Value;
  resp_status : Z;
  resp_headers : Headers;
  resp_duration : Z;
}.

(** The fields of the class: the credentials bound into [this.sign], the
    registered middlewares, the resolved configuration. *)
Record Transport : Type := mkTransport {
  credentials : OAuthConfig;
  middlewares : list Middleware;
  config : ResolvedConfig;
}.

(** The constructor. *)
Definition create (c : NetSuiteConfig) : Transport := {|
  credentials := ns_auth c;
  middlewares := [];
  config := {|
    rc_timeout := default 30000 (ns_timeout c);
    rc_maxRetries := default 3 (ns_maxRetries c);
    rc_retryDelay := default 1000%Q (ns_retryDelay c);
    rc_defaultHeaders := default ∅ (ns_defaultHeaders c);
    rc_logger := ns_logger c;
  |};
|}.

(** [use(middleware)] *)
Definition use (middleware : Middleware) (t : Transport) : Transport :=
  mkTransport (credentials t) (middlewares t ++ [middleware]) (config t).

(** What lies outside the repository: the [oauth-1.0a] library, the
    network behind axios, the random generator and the clock.  The
    library draws a nonce and reads the time at each call of
    [authorize]; the header it returns is therefore a function of which
    call it is.  The other three may depend on everything that has
    happened so far. *)
Record Host : Type := mkHost {
  oauth_header : OAuthConfig -> nat -> string -> HttpMethod -> Headers;
  axios : list Event -> AxiosRequestConfig -> Outcome AxiosResponse;
  random : list Event -> Q;
  clock : list Event -> Q;
}.

Definition is_sign (e : Event) : bool :=
  match e with EvSign _ _ => true | _ => false end.

(** Number of calls of the signer so far. *)
Definition signature_count (t : list Event) : nat :=
  length (List.filter is_sign t).

(** [{ ...a, ...b }]: the later spread wins. *)
Definition spread (a b : Headers) : Headers := b ∪ a.

(** [['POST', 'PUT', 'PATCH'].includes(method)] *)
Definition carries_body (m : HttpMethod) : bool :=
  match m with POST | PUT | PATCH => true | GET | DELETE => false end.

(** The [data] field of the axios call:
    [context.body && [...].includes(context.method) ? context.body : undefined] *)
Definition request_data (c : RequestContext) : Js.Value :=
  if Js.truthy (ctx_body c) && carries_body (ctx_method c)
  then ctx_body c else Js.VUndefined.

(** The argument of [this.axiosInstance.request] for the context [c]. *)
Definition axios_config (c : RequestContext) (timeout : Z) : AxiosRequestConfig := {|
  ax_url := ctx_url c;
  ax_method := ctx_method c;
  ax_headers := ctx_headers c;
  ax_data := request_data c;
  ax_timeout := timeout;
|}.

(** [extractHeaders] of [types/http.ts] *)
Definition extractHeaders (response : AxiosResponse) : Headers :=
  match ar_headers response with
  | None => ∅
  | Some entries =>
      fold_left (fun (headers : Headers) '(key, value) =>
                   match value with
                   | Js.VString s => <[key := s]> headers
                   | _ => headers
                   end) entries ∅
  end.

Definition error_message (errorBody : Js.Value) (status : Z) : Js.Value :=
  Js.coalesce
    (Js.coalesce
       (Js.coalesce (Js.get errorBody "detail") (Js.get errorBody "title"))
       (Js.get errorBody "message"))
    (Js.VString ("HTTP " ++ pretty status)%string).

Definition error_code (errorBody : Js.Value) (status : Z) : Js.Value :=
  Js.coalesce
    (Js.coalesce (Js.get errorBody "o:errorCode") (Js.get errorBody "code"))
    (Js.VString ("HTTP_" ++ pretty status)%string).

(** The [NetSuiteError] thrown for [response.status >= 400]. *)
Definition error_of_response (response : AxiosResponse) (c : RequestContext)
  : NetSuiteError :=
  let errorBody := Js.coalesce (ar_data response) (Js.VObject []) in
  mkNetSuiteError (error_message errorBody (ar_status response))
    (ar_status response)
    (error_code errorBody (ar_status response))
    errorBody (Some (ctx_url c)) (Some (ctx_method c)).

Definition timeout_error (timeout : Z) (c : RequestContext) : NetSuiteError :=
  mkNetSuiteError
    (Js.VString ("Request timed out after " ++ pretty timeout ++ "ms")%string)
    504 (Js.VString "TIMEOUT") Js.VUndefined
    (Some (ctx_url c)) (Some (ctx_method c)).

Definition network_error (msg : string) (c : RequestContext) : NetSuiteError :=
  mkNetSuiteError
    (Js.VString (if String.eqb msg "" then "Network error" else msg))
    0 (Js.VString "NETWORK_ERROR") Js.VUndefined
    (Some (ctx_url c)) (Some (ctx_method c)).

(** [axiosError.code === 'ECONNABORTED' || axiosError.code === 'ERR_CANCELED'] *)
Definition timed_out (code : option string) : bool :=
  match code with
  | Some s => String.eqb s "ECONNABORTED" || String.eqb s "ERR_CANCELED"
  | None => false
  end.

(** The [catch] clause of [executeRequest]: a [NetSuiteError] is thrown
    again as it is, anything else becomes a timeout or a network
    error. *)
Definition caught (error : Thrown) (timeout : Z) (c : RequestContext)
  : NetSuiteError :=
  match error with
  | ThrownNetSuite e => e
  | ThrownError code msg =>
      if timed_out code then timeout_error timeout c else network_error msg c
  end.

(** The retryability predicate that [request] passes to [withRetry]. *)
Definition transport_shouldRetry {W} (error : Thrown) (_ : Z) (w : W) : bool * W :=
  match error with
  | ThrownNetSuite e => (isRetryable e, w)
  | ThrownError _ _ => (true, w)
  end.

(** [options.method ?? 'GET'] *)
Definition method_of (options : RequestOptions) : HttpMethod :=
  default GET (opt_method options).

Section OnHost.
Variable host : Host.

#[export] Instance host_runtime : Runtime World := {|
  setTimeout ms w := emit (EvSleep ms) w;
  Math_random w := (random host (trace w), emit (EvRandom (random host (trace w))) w);
  performance_now w := clock host (trace w);
|}.

Variable t : Transport.

(** [this.config.logger?.level(...)] *)
Definition log_event (e : Event) (w : World) : World :=
  if rc_logger (config t) then emit e w else w.

(** [this.sign(url, method)]: one more call of the library. *)
Definition sign (url : string) (method : HttpMethod) (w : World)
  : Headers * World :=
  (oauth_header host (credentials t) (signature_count (trace w)) url method,
   emit (EvSign url method) w).

Definition executeRequest (timeout : Z) : Async World ResponseContext := fun w =>
  let c := context w in
  let startTime := performance_now w in
  let w1 := log_event
              (EvDebug (ctx_method c) (ctx_url c)
                 (fst <$> map_to_list (ctx_headers c))) w in
  let req := axios_config c timeout in
  let settled := axios host (trace w1) req in
  let w2 := emit (EvSend req) w1 in
  match settled with
  | Resolved response =>
      let duration := Math_round (performance_now w2 - startTime) in
      let w3 := log_event
                  (EvInfo (ctx_method c) (ctx_url c) (ar_status response) duration)
                  w2 in
      if (400 <=? ar_status response)%Z then
        (Rejected (ThrownNetSuite (error_of_response response c)), w3)
      else
        (Resolved {| res_status := ar_status response;
                     res_headers := extractHeaders response;
                     res_body := if (ar_status response =? 204)%Z
                                 then Js.VUndefined else ar_data response;
                     res_duration := duration |}, w3)
  | Rejected error => (Rejected (ThrownNetSuite (caught error timeout c)), w2)
  end.

(** The headers of the context of an attempt whose signer call
    returned [authHeaders]. *)
Definition attempt_headers (authHeaders : Headers) (options : RequestOptions)
  : Headers :=
  spread
    (spread
       (spread {[ "Content-Type" := "application/json" ]}
          (rc_defaultHeaders (config t)))
       authHeaders)
    (default ∅ (opt_headers options)).

(** The [context] object of an attempt. *)
Definition attempt_context (url : string) (method : HttpMethod)
    (options : RequestOptions) (authHeaders : Headers) : RequestContext := {|
  ctx_url := url;
  ctx_method := method;
  ctx_headers := attempt_headers authHeaders options;
  ctx_body := opt_body options;
  ctx_metadata := [];
|}.

(** The operation that [request] hands to [withRetry]. *)
Definition attempt (url : string) (method : HttpMethod)
    (options : RequestOptions) (timeout : Z) : Async World NetSuiteResponse :=
  fun w =>
    let '(authHeaders, w1) := sign url method w in
    let c := attempt_context url method options authHeaders in
    let w2 := set_context c w1 in
    match executeMiddlewareChain (middlewares t) (executeRequest timeout) w2 with
    | (Resolved response, w3) =>
        (Resolved {| data := res_body response;
                     resp_status := res_status response;
                     resp_headers := res_headers response;
                     resp_duration := res_duration response |}, w3)
    | (Rejected e, w3) => (Rejected e, w3)
    end.

Definition retry_config (url : string) (method : HttpMethod) (maxRetries : Z)
  : PartialRetryConfig World := {|
  p_maxRetries := Some maxRetries;
  p_initialDelay := Some (rc_retryDelay (config t));
  p_maxDelay := None;
  p_backoffFactor := None;
  p_shouldRetry := Some transport_shouldRetry;
  p_onRetry := Some (fun error attempt w =>
                       log_event (EvWarn attempt maxRetries url method error) w);
|}.

(** [options.maxRetries ?? this.config.maxRetries] *)
Definition retries_of (options : RequestOptions) : Z :=
  default (rc_maxRetries (config t)) (opt_maxRetries options).

Definition request (url : string) (options : RequestOptions)
  : Async World NetSuiteResponse :=
  let method := method_of options in
  let timeout := default (rc_timeout (config t)) (opt_timeout options) in
  let maxRetries := retries_of options in
  withRetry (attempt url method options timeout)
    (retry_config url method maxRetries).

End OnHost.

(** The requests put on the wire, in order. *)
Definition sends_of (t : list Event) : list AxiosRequestConfig :=
  omap (fun e => match e with EvSend c => Some c | _ => None end) t.

End HttpTransport.

(* ================================================================== *)
(** * [suiteql/suiteql-client.ts]                                      *)
(* ================================================================== *)

Module SuiteQL.

(** [maxRows] is a row count or [Infinity]. *)
Inductive Bound : Type := Finite (n : Z) | Infinity.

Record SuiteQLOptions : Type := mkSuiteQLOptions {
  pageSize : option Z;
  offset : option Z;
  maxRows : option Bound;
  timeout : option Z;
}.

(** The page envelope ([links] and [count] are never read). *)
Record SuiteQLRawResponse (T : Type) : Type := mkRaw {
  raw_items : list T;
  raw_totalResults : Z;
  raw_hasMore : bool;
  raw_offset : Z;
}.
Arguments mkRaw {T}.
Arguments raw_items {T}.
Arguments raw_totalResults {T}.
Arguments raw_hasMore {T}.
Arguments raw_offset {T}.

Record SuiteQLResult (T : Type) : Type := mkResult {
  items : list T;
  totalResults : Z;
  pagesFetched : Z;
  hasMore : bool;
  duration : Z;
}.
Arguments mkResult {T}.
Arguments items {T}.
Arguments totalResults {T}.
Arguments pagesFetched {T}.
Arguments hasMore {T}.
Arguments duration {T}.

(** One call of [this.transport.request].  The url is the template
    [`${this.baseUrl}?limit=${effectiveLimit}&offset=${currentOffset}`],
    kept with its two numbers apart ([render_url] is the string); the
    options are [{ method: 'POST', body: { q: sql }, headers: { Prefer:
    'transient' }, timeout }]. *)
Record PageCall : Type := mkPageCall {
  call_baseUrl : string;
  call_limit : Z;
  call_offset : Z;
  call_method : HttpMethod;
  call_body : Js.Value;
  call_headers : Headers;
  call_timeout : option Z;
}.

Definition render_url (c : PageCall) : string :=
  (call_baseUrl c ++ "?limit=" ++ pretty (call_limit c)
     ++ "&offset=" ++ pretty (call_offset c))%string.

(** The transport as the client sees it: [request] resolves with a
    response whose [data] is a page envelope, or rejects. *)
Definition PageTransport (W T : Type) : Type :=
  PageCall -> Async W (SuiteQLRawResponse T).

(** [Math.min(pageSize, maxRows - n)] *)
Definition min_with_remaining (pageSize : Z) (maxRows : Bound) (n : Z) : Z :=
  match maxRows with
  | Infinity => pageSize
  | Finite m => Z.min pageSize (m - n)
  end.

(** [n >= maxRows] *)
Definition reached (n : Z) (maxRows : Bound) : bool :=
  match maxRows with
  | Infinity => false
  | Finite m => (m <=? n)%Z
  end.

(** [n < maxRows] *)
Definition below (n : Z) (maxRows : Bound) : Prop :=
  match maxRows with
  | Infinity => True
  | Finite m => (n < m)%Z
  end.

(** The variables of [query] that the loop updates. *)
Record LoopState (T : Type) : Type := mkLoopState {
  allItems : list T;
  currentOffset : Z;
  st_totalResults : Z;
  st_pagesFetched : Z;
}.
Arguments mkLoopState {T}.
Arguments allItems {T}.
Arguments currentOffset {T}.
Arguments st_totalResults {T}.
Arguments st_pagesFetched {T}.

Definition len {T} (l : list T) : Z := Z.of_nat (length l).

Section Client.
Context {W : Type} `{RT : Runtime W} {T : Type}.
Variable transport : PageTransport W T.
Variable baseUrl : string.

Section Query.
Variable sql : string.
Variable pageSize : Z.
Variable maxRows : Bound.
Variable timeout : option Z.

Definition effectiveLimit (st : LoopState T) : Z :=
  min_with_remaining pageSize maxRows (len (allItems st)).

Definition page_call (st : LoopState T) : PageCall := {|
  call_baseUrl := baseUrl;
  call_limit := effectiveLimit st;
  call_offset := currentOffset st;
  call_method := POST;
  call_body := Js.VObject [("q", Js.VString sql)];
  call_headers := {[ "Prefer" := "transient" ]};
  call_timeout := timeout;
|}.

(** The variables after the page has been taken in, before the
    decision to go on. *)
Definition absorb (st : LoopState T) (page : SuiteQLRawResponse T)
  : LoopState T := {|
  allItems := allItems st ++ raw_items page;
  currentOffset := currentOffset st;
  st_totalResults := raw_totalResults page;
  st_pagesFetched := st_pagesFetched st + 1;
|}.

(** [page.hasMore || currentOffset + page.items.length < totalResults] *)
Definition more_pages (st : LoopState T) (page : SuiteQLRawResponse T) : bool :=
  raw_hasMore page
  || (currentOffset st + len (raw_items page) <? raw_totalResults page)%Z.

(** [!hasMore || allItems.length >= maxRows || page.items.length === 0] *)
Definition breaks (st : LoopState T) (page : SuiteQLRawResponse T) : bool :=
  negb (more_pages st page)
  || reached (len (allItems (absorb st page))) maxRows
  || (len (raw_items page) =? 0)%Z.

(** [currentOffset += page.items.length] *)
Definition advance (st : LoopState T) (page : SuiteQLRawResponse T)
  : LoopState T := {|
  allItems := allItems st;
  currentOffset := currentOffset st + len (raw_items page);
  st_totalResults := st_totalResults st;
  st_pagesFetched := st_pagesFetched st;
|}.

(** The [while (true)] loop.  A server that keeps answering with
    non-empty pages and [hasMore] keeps an unbounded query going for
    ever, so the loop is run for at most [fuel] iterations; the
    outcome [None] means that it has not left the loop by then. *)
Fixpoint query_loop (fuel : nat) (st : LoopState T) (w : W)
    : option (Outcome (LoopState T)) * W :=
  if (effectiveLimit st <=? 0)%Z then (Some (Resolved st), w)
  else
    match fuel with
    | O => (None, w)
    | S fuel' =>
        match transport (page_call st) w with
        | (Rejected e, w1) => (Some (Rejected e), w1)
        | (Resolved page, w1) =>
            let st1 := absorb st page in
            if breaks st page then (Some (Resolved st1), w1)
            else query_loop fuel' (advance st1 page) w1
        end
    end.
End Query.

(** The variables on entry to the loop. *)
Definition initial_state (options : SuiteQLOptions) : LoopState T :=
  mkLoopState [] (default 0%Z (offset options)) 0 0.

(** The object that [query] returns. *)
Definition result_of (st : LoopState T) (elapsed : Z) : SuiteQLResult T := {|
  items := allItems st;
  totalResults := st_totalResults st;
  pagesFetched := st_pagesFetched st;
  hasMore := (len (allItems st) <? st_totalResults st)%Z;
  duration := elapsed;
|}.

Definition query (fuel : nat) (sql : string) (options : SuiteQLOptions) (w : W)
    : option (Outcome (SuiteQLResult T)) * W :=
  let pageSize := default 1000%Z (pageSize options) in
  let maxRows := default Infinity (maxRows options) in
  let startTime := performance_now w in
  let '(exit, w') := query_loop sql pageSize maxRows (timeout options) fuel
                       (initial_state options) w in
  (match exit with
   | None => None
   | Some (Rejected e) => Some (Rejected e)
   | Some (Resolved st) =>
       Some (Resolved (result_of st (Math_round (performance_now w' - startTime))))
   end, w').

End Client.

(** [new SuiteQLClient(transport, accountId).query] *)
Definition client_query {W} `{Runtime W} {T} (transport : PageTransport W T)
    (accountId : string) :=
  query transport (UrlBuilder.SuiteQLClient_baseUrl accountId).

(** ** Recording the calls of the transport *)

Section Recording.
Context {W : Type} `{RT : Runtime W} {T : Type}.

(** The calls made so far, each with what it settled to. *)
Definition Recorded : Type :=
  (list (PageCall * Outcome (SuiteQLRawResponse T)) * W)%type.

Definition recording (transport : PageTransport W T)
  : PageTransport Recorded T :=
  fun call '(calls, w) =>
    let '(o, w') := transport call w in (o, (calls ++ [(call, o)], w')).

Definition calls_made (s : Recorded) : list PageCall := fst <$> fst s.

#[export] Instance recorded_runtime : Runtime Recorded := {|
  setTimeout ms s := (fst s, setTimeout ms (snd s));
  Math_random s := let '(r, w) := Math_random (snd s) in (r, (fst s, w));
  performance_now s := performance_now (snd s);
|}.
End Recording.
Arguments Recorded W T : clear implicits.

(** Every request of a recorded run carries a limit of at most
    [ceiling]. *)
Definition limits_at_most {W T} (ceiling : Z)
    (run : option (Outcome (SuiteQLResult T)) * Recorded W T) : Prop :=
  Forall (fun c => (call_limit c <= ceiling)%Z) (calls_made (snd run)).

(** ** The pagination policy in the words of the specification

    [page_log st l fin] : starting from the loop variables [st], the
    calls [l] are made and the loop is left as [fin] says, with the
    final variables or with what the transport threw ([None]: it has
    not been left yet).  No request is sent
    once the limit is [<= 0]; every request carries the limit
    [min(pageSize, maxRows - rowsSoFar)]; after a page the next one is
    fetched when the page was non-empty, the rows so far are below
    [maxRows] and one of the two indicators promises more, and the run
    stops when that fails. *)
Section Policy.
Context {T : Type}.
Variables (baseUrl sql : string) (pageSize : Z) (maxRows : Bound)
          (timeout : option Z).

(** More rows may follow the page just received: the server says so,
    or the rows up to the end of the page fall short of the total. *)
Definition indicates_more (st : LoopState T) (page : SuiteQLRawResponse T) : Prop :=
  raw_hasMore page = true
  \/ (currentOffset st + len (raw_items page) < raw_totalResults page)%Z.

(** The three conditions for fetching a further page. *)
Definition goes_on (st : LoopState T) (page : SuiteQLRawResponse T) : Prop :=
  raw_items page <> []
  /\ below (len (allItems st ++ raw_items page)) maxRows
  /\ indicates_more st page.

(** The run stops after a page when the page is empty, or the rows so
    far have reached [maxRows], or neither indicator promises more. *)
Definition stops (st : LoopState T) (page : SuiteQLRawResponse T) : Prop :=
  raw_items page = []
  \/ reached (len (allItems st ++ raw_items page)) maxRows = true
  \/ (raw_hasMore page = false
      /\ (raw_totalResults page <= currentOffset st + len (raw_items page))%Z).

(** The loop variables after the pages of the calls [l] have been
    taken in and stepped over. *)
Fixpoint state_after (st : LoopState T)
    (l : list (PageCall * Outcome (SuiteQLRawResponse T))) : LoopState T :=
  match l with
  | [] => st
  | (_, Resolved page) :: r => state_after (advance (absorb st page) page) r
  | (_, Rejected _) :: r => state_after st r
  end.

Inductive page_log
  : LoopState T -> list (PageCall * Outcome (SuiteQLRawResponse T))
    -> option (Outcome (LoopState T)) -> Prop :=
| log_no_request st :
    (min_with_remaining pageSize maxRows (len (allItems st)) <= 0)%Z ->
    page_log st [] (Some (Resolved st))
| log_unfinished st :
    (0 < min_with_remaining pageSize maxRows (len (allItems st)))%Z ->
    page_log st [] None
| log_failed st e :
    (0 < min_with_remaining pageSize maxRows (len (allItems st)))%Z ->
    page_log st
      [(page_call baseUrl sql pageSize maxRows timeout st, Rejected e)]
      (Some (Rejected e))
| log_last st page :
    (0 < min_with_remaining pageSize maxRows (len (allItems st)))%Z ->
    ~ goes_on st page ->
    page_log st
      [(page_call baseUrl sql pageSize maxRows timeout st, Resolved page)]
      (Some (Resolved (absorb st page)))
| log_more st page l fin :
    (0 < min_with_remaining pageSize maxRows (len (allItems st)))%Z ->
    goes_on st page ->
    page_log (advance (absorb st page) page) l fin ->
    page_log st
      ((page_call baseUrl sql pageSize maxRows timeout st, Resolved page) :: l)
      fin.
End Policy.

End SuiteQL.

(* ================================================================== *)
(** * Attempts and signatures in a trace                               *)
(* ================================================================== *)

Module Signing.
Import HttpTransport.

(** Reading a trace from left to right one keeps the number of signer
    calls seen and, while an attempt is in progress, the number of the
    signer call that opened it.  A backoff sleep ends the attempt. *)
Definition Reader : Type := (nat * option nat)%type.

Definition step (s : Reader) (e : Event) : Reader :=
  match e with
  | EvSign _ _ => (S (fst s), Some (fst s))
  | EvSleep _ => (fst s, None)
  | _ => s
  end.

Definition after (s : Reader) (l : list Event) : Reader := fold_left step l s.

Section Checked.
Variables (url : string) (method : HttpMethod).
(** [ok k config]: [config] is acceptable on the wire in the attempt
    opened by signer call number [k]. *)
Variable ok : nat -> AxiosRequestConfig -> Prop.

Definition check (s : Reader) (e : Event) : Prop :=
  match e with
  | EvSign u m => u = url /\ m = method
  | EvSend c => exists k, snd s = Some k /\ ok k c
  | _ => True
  end.

(** Every signer call is for [url] and [method], and every network
    call happens in an attempt, after the signer call of that attempt,
    with an acceptable request. *)
Fixpoint well_signed (s : Reader) (l : list Event) : Prop :=
  match l with
  | [] => True
  | e :: r => check s e /\ well_signed (step s e) r
  end.
End Checked.

(** The part of the trace that a run added. *)
Definition added (before after : World) : list Event :=
  drop (length (trace before)) (trace after).

Section Requests.
Variables (host : Host) (t : Transport).
Variables (url : string) (options : RequestOptions).

(** The headers that signer call number [k] returns. *)
Definition signature (k : nat) : Headers :=
  oauth_header host (credentials t) k url (method_of options).

(** The context of the attempt opened by signer call number [k]. *)
Definition context_of_attempt (k : nat) : RequestContext :=
  attempt_context t url (method_of options) options (signature k).

(** The request carries the headers of signer call [k] as they were
    generated. *)
Definition carries_signature (k : nat) (c : AxiosRequestConfig) : Prop :=
  signature k ⊆ ax_headers c.

(** The request carries the headers of an attempt: content type below
    the client's defaults below the headers of signer call [k] below
    the headers of the call. *)
Definition carries_attempt_headers (k : nat) (c : AxiosRequestConfig) : Prop :=
  ax_headers c = attempt_headers t (signature k) options.

(** The body rule applied to the body and method of the call. *)
Definition carries_body_of_call (k : nat) (c : AxiosRequestConfig) : Prop :=
  ax_data c = request_data (context_of_attempt k).

(** The signer calls are for the url and method of the call, and every
    network call of the run is acceptable for its attempt. *)
Definition run_well_signed (ok : nat -> AxiosRequestConfig -> Prop)
    (before after : World) : Prop :=
  well_signed url (method_of options) ok
    (signature_count (trace before), None) (added before after).

(** A judgement [okA] on wire requests relative to some aspect [proj]
    of the context, applied to the context of attempt [k]. *)
Definition judged {A : Type} (proj : RequestContext -> A)
    (okA : A -> AxiosRequestConfig -> Prop)
    (k : nat) (c : AxiosRequestConfig) : Prop :=
  okA (proj (context_of_attempt k)) c.

(** The state of a run that started in [w0], between two attempts:
    what it has added to the trace is well signed. *)
Definition between_attempts (ok : nat -> AxiosRequestConfig -> Prop)
    (w0 w : World) : Prop :=
  exists l,
    trace w = trace w0 ++ l
    /\ well_signed url (method_of options) ok
         (signature_count (trace w0), None) l.

(** The state of a run inside the attempt opened by signer call [k]:
    moreover the attempt is in progress, and the aspect [proj] of the
    context object is that of the context the attempt allocated. *)
Definition inside_attempt {A : Type} (proj : RequestContext -> A)
    (ok : nat -> AxiosRequestConfig -> Prop)
    (w0 : World) (k : nat) (w : World) : Prop :=
  exists l,
    trace w = trace w0 ++ l
    /\ well_signed url (method_of options) ok
         (signature_count (trace w0), None) l
    /\ snd (after (signature_count (trace w0), None) l) = Some k
    /\ proj (context w) = proj (context_of_attempt k).
End Requests.

End Signing.

(* ================================================================== *)
(** * Concrete hosts, transports and servers                           *)
(* ================================================================== *)

Module Examples.
Import Retry MiddlewareChain HttpTransport.

Definition CREDENTIALS : OAuthConfig := mkOAuthConfig "ck" "cs" "tk" "ts" "REALM".

(** A signer whose header shows which call produced it. *)
Definition numbered_header (_ : OAuthConfig) (k : nat) (_ : string) (_ : HttpMethod)
  : Headers :=
  {[ "Authorization" := ("OAuth oauth_nonce=" ++ pretty k)%string ]}.

(** A host whose network answers every request with [response], whose
    random generator returns one half and whose clock stands still. *)
Definition answering (response : AxiosResponse) : Host := {|
  oauth_header := numbered_header;
  axios := fun _ _ => Resolved response;
  random := fun _ => 1 # 2;
  clock := fun _ => 0%Q;
|}.

Definition SERVER_ERROR : AxiosResponse :=
  mkAxiosResponse 500 (Js.VObject [("title", Js.VString "Internal Error")]) (Some []).

(** An authentication failure whose body carries the error code
    [TIMEOUT]. *)
Definition UNAUTHORIZED_TIMEOUT : AxiosResponse :=
  mkAxiosResponse 401
    (Js.VObject [("title", Js.VString "Unauthorized");
                 ("o:errorCode", Js.VString "TIMEOUT")])
    (Some []).

Definition CONFIG : NetSuiteConfig :=
  mkNetSuiteConfig CREDENTIALS "1234567" None None None None false.

(** [maxRetries: 1] *)
Definition CONFIG_ONE_RETRY : NetSuiteConfig :=
  mkNetSuiteConfig CREDENTIALS "1234567" None (Some 1%Z) None None false.

(** A call that brings its own [Authorization] header. *)
Definition OWN_AUTHORIZATION : RequestOptions :=
  mkRequestOptions None (Some {[ "Authorization" := "Bearer static" ]})
    Js.VUndefined None None.

(** An operation that fails whenever it is invoked. *)
Definition always_fails : Async World unit :=
  throw (ThrownError None "always fails").

(** [{ maxRetries: 2, initialDelay: 10 }] *)
Definition TWO_RETRIES : PartialRetryConfig World :=
  mkPartial (Some 2%Z) (Some 10%Q) None None None None.

(** [{ maxRetries: 2, backoffFactor: -2 }] *)
Definition NEGATIVE_FACTOR : PartialRetryConfig World :=
  mkPartial (Some 2%Z) None None (Some (-2)%Q) None None.

(** A host without a network, for runs of [withRetry] on their own. *)
Definition OFFLINE : Host := {|
  oauth_header := numbered_header;
  axios := fun _ _ => Rejected (ThrownError (Some "ENOTFOUND") "offline");
  random := fun _ => 1 # 2;
  clock := fun _ => 0%Q;
|}.

(** A world in which nothing happens, for the paginating client. *)
#[export] Instance idle_runtime : Runtime unit := {|
  setTimeout _ w := w;
  Math_random w := (0%Q, w);
  performance_now _ := 0%Q;
|}.

(** A server without rows. *)
Definition empty_server : SuiteQL.PageTransport unit nat :=
  fun _ w => (Resolved (SuiteQL.mkRaw [] 0 false 0), w).

(** A server with three rows that hands out two of them, then one. *)
Definition three_rows : SuiteQL.PageTransport unit nat :=
  fun call w =>
    if (SuiteQL.call_offset call =? 0)%Z
    then (Resolved (SuiteQL.mkRaw [1; 2]%nat 3 true 0), w)
    else (Resolved (SuiteQL.mkRaw [3]%nat 3 false 2), w).

(** [{ pageSize: 2 }] *)
Definition PAGE_SIZE_2 : SuiteQL.SuiteQLOptions :=
  SuiteQL.mkSuiteQLOptions (Some 2%Z) None None None.

(** [{ pageSize: 5000 }] *)
Definition PAGE_SIZE_5000 : SuiteQL.SuiteQLOptions :=
  SuiteQL.mkSuiteQLOptions (Some 5000%Z) None None None.

(** [{ maxRows: 0 }] *)
Definition MAX_ROWS_0 : SuiteQL.SuiteQLOptions :=
  SuiteQL.mkSuiteQLOptions None None (Some (SuiteQL.Finite 0)) None.

End Examples.

(* ================================================================== *)
(** * Views of a transport run                                         *)
(* ================================================================== *)

Module Network.
Import HttpTransport.

(** What axios settles to for the one call that [executeRequest] makes
    when started in [w]. *)
Definition reply (host : Host) (t : Transport) (timeout : Z) (w : World)
  : Outcome AxiosResponse :=
  axios host
    (trace (log_event t
              (EvDebug (ctx_method (context w)) (ctx_url (context w))
                 (fst <$> map_to_list (ctx_headers (context w)))) w))
    (axios_config (context w) timeout).

(** The network answers every request with [response]. *)
Definition answers (host : Host) (response : AxiosResponse) : Prop :=
  forall tr cfg, axios host tr cfg = Resolved response.

(** Every request fails in a way that is worth retrying: a status of 500
    or more, a failure below HTTP, or an error that says so itself. *)
Definition always_transient (host : Host) : Prop :=
  forall tr cfg,
    match axios host tr cfg with
    | Resolved response => (500 <= ar_status response)%Z
    | Rejected (ThrownNetSuite e) => isRetryable e = true
    | Rejected (ThrownError _ _) => True
    end.

(** A line of the optional logger. *)
Definition is_log (e : Event) : Prop :=
  match e with EvDebug _ _ _ | EvInfo _ _ _ _ => True | _ => False end.

(** The durations of the backoff sleeps in a trace. *)
Definition sleeps_in (l : list Event) : list Double.number :=
  omap (fun e => match e with EvSleep ms => Some ms | _ => None end) l.

(** The response that [request] returns for the response context
    [r]. *)
Definition as_response (r : ResponseContext) : NetSuiteResponse := {|
  data := res_body r;
  resp_status := res_status r;
  resp_headers := res_headers r;
  resp_duration := res_duration r;
|}.

(** An outcome of an attempt after which [request] does not try again
    even if it could: a response, or a [NetSuiteError] that is not
    retryable. *)
Definition final {T} (o : Outcome T) : bool :=
  match o with
  | Resolved _ => true
  | Rejected (ThrownNetSuite e) => negb (isRetryable e)
  | Rejected (ThrownError _ _) => false
  end.

(** Axios itself never throws a [NetSuiteError]. *)
Definition plain_failures (host : Host) : Prop :=
  forall tr cfg e, axios host tr cfg <> Rejected (ThrownNetSuite e).

End Network.

(* ================================================================== *)
(** * Further concrete inputs                                          *)
(* ================================================================== *)

Module MoreExamples.
Import Retry MiddlewareChain HttpTransport Examples.

(** The error of a record that does not exist. *)
Definition NOT_FOUND_ERROR : NetSuiteError :=
  mkNetSuiteError (Js.VString "Record not found") 404 (Js.VString "RCRD_DSNT_EXIST")
    Js.VUndefined None None.

(** An operation that fails with [NOT_FOUND_ERROR] whenever it is
    invoked. *)
Definition record_missing : Async World unit :=
  throw (ThrownNetSuite NOT_FOUND_ERROR).

(** A 404 whose body is not JSON. *)
Definition NOT_FOUND_PAGE : AxiosResponse :=
  mkAxiosResponse 404 (Js.VString "<html>not found</html>") (Some []).

(** A response with two string headers and one that is a list. *)
Definition WITH_HEADERS : AxiosResponse :=
  mkAxiosResponse 200 (Js.VObject [])
    (Some [("content-type", Js.VString "application/json");
           ("set-cookie", Js.VArray [Js.VString "a=1"; Js.VString "b=2"]);
           ("x-request-id", Js.VString "42")]).

(** A successful deletion. *)
Definition NO_CONTENT : AxiosResponse :=
  mkAxiosResponse 204 (Js.VString "") (Some []).

(** A transport without middleware and with the default settings. *)
Definition PLAIN : Transport := create CONFIG.

(** A transport that retries once. *)
Definition PLAIN_ONE_RETRY : Transport := create CONFIG_ONE_RETRY.

(** The world in which an attempt for [url] runs its request. *)
Definition attempting (url : string) : World :=
  set_context
    (mkRequestContext url GET ∅ Js.VUndefined [])
    INITIAL_WORLD.

(** A server with the rows [0 .. total - 1] that hands out what it is
    asked for. *)
Definition counting_server (total : Z) : SuiteQL.PageTransport unit Z :=
  fun call w =>
    let k := Z.max 0 (Z.min (SuiteQL.call_limit call)
                        (total - SuiteQL.call_offset call)) in
    (Resolved
       (SuiteQL.mkRaw
          ((fun i => SuiteQL.call_offset call + Z.of_nat i)%Z <$> seq 0 (Z.to_nat k))
          total
          (SuiteQL.call_offset call + k <? total)%Z
          (SuiteQL.call_offset call)),
     w).

(** [{ pageSize: 2, maxRows: 3 }] *)
Definition THREE_ROWS_BY_2 : SuiteQL.SuiteQLOptions :=
  SuiteQL.mkSuiteQLOptions (Some 2%Z) None (Some (SuiteQL.Finite 3)) None.

(** [{}] *)
Definition DEFAULTS : SuiteQL.SuiteQLOptions :=
  SuiteQL.mkSuiteQLOptions None None None None.

(** Requests at 0, 10 and 20 ms. *)
Definition THREE_REQUESTS : list Z := [0; 10; 20]%Z.

(** [{ maxRetries: 3, initialDelay: 0, backoffFactor: 1e200 }] *)
Definition ZERO_DELAY_HUGE_FACTOR : PartialRetryConfig World :=
  mkPartial (Some 3%Z) (Some 0%Q) None (Some (inject_Z (10 ^ 200))) None None.

End MoreExamples.

(* ================================================================== *)
(** * Shapes of middleware                                             *)
(* ================================================================== *)

Module Onion.
Import MiddlewareChain.

(** A middleware of the usual shape, by its four parts. *)
Record Layer : Type := mkLayer {
  enter : string;
  leave : string;
  rewrite_request : RequestContext -> RequestContext;
  rewrite_response : ResponseContext -> ResponseContext;
}.

Definition layer_middleware (l : Layer) : Middleware :=
  around (enter l) (leave l) (rewrite_request l) (rewrite_response l).

(** The way in through [layers], outermost first. *)
Definition inward (layers : list Layer) (w : World) : World :=
  fold_left
    (fun w l => set_context (rewrite_request l (context (emit (EvEffect (enter l)) w)))
                  (emit (EvEffect (enter l)) w))
    layers w.

(** The way out with the response [r], innermost first. *)
Definition outward_response (layers : list Layer) (r : ResponseContext)
  : ResponseContext :=
  fold_right rewrite_response r layers.

Definition outward (layers : list Layer) (w : World) : World :=
  fold_right (fun l w => emit (EvEffect (leave l)) w) w layers.

(** A middleware that never calls [next]. *)
Inductive terminal : Middleware -> Prop :=
| terminal_return r : terminal (Return r)
| terminal_throw e : terminal (Throw e)
| terminal_effect tag k : terminal k -> terminal (Effect tag k)
| terminal_read k : (forall c, terminal (k c)) -> terminal (Read k)
| terminal_mutate f k : terminal k -> terminal (Mutate f k).

(** A cache in front of the network: answer from [stored] when the url
    of the request is there, throw otherwise. *)
Definition cache_only (stored : string -> option ResponseContext) : Middleware :=
  Read (fun c => match stored (ctx_url c) with
                 | Some r => Effect "cache hit" (Return r)
                 | None => Throw (ThrownError None "not cached")
                 end).

End Onion.

(* ================================================================== *)
(** * [queryOne], [queryPages] and views of a paginated run            *)
(* ================================================================== *)

Module Pages.
Import SuiteQL.

Section Views.
Context {T : Type}.

(** The pages that the calls of a run were answered with. *)
Definition pages_of (l : list (PageCall * Outcome (SuiteQLRawResponse T)))
  : list (SuiteQLRawResponse T) :=
  omap (fun co => match snd co with
                  | Resolved page => Some page
                  | Rejected _ => None
                  end) l.

(** Their rows, in order. *)
Definition rows_of (l : list (PageCall * Outcome (SuiteQLRawResponse T)))
  : list T :=
  concat (raw_items <$> pages_of l).

Definition answered (co : PageCall * Outcome (SuiteQLRawResponse T)) : Prop :=
  is_rejected (snd co) = false.

(** The [totalResults] of the last page, 0 without a page. *)
Definition last_total (l : list (PageCall * Outcome (SuiteQLRawResponse T))) : Z :=
  match last (pages_of l) with
  | Some page => raw_totalResults page
  | None => 0
  end.
End Views.

(** A server that never hands out more rows than the limit asks for. *)
Definition honours_limit {W T} (transport : PageTransport W T) : Prop :=
  forall call w,
    (0 < call_limit call)%Z ->
    match fst (transport call w) with
    | Resolved page => (len (raw_items page) <= call_limit call)%Z
    | Rejected _ => True
    end.

Section Client.
Context {W : Type} `{RT : Runtime W} {T : Type}.
Variable transport : PageTransport W T.
Variable baseUrl : string.

(** [{ ...options, maxRows: 1 }] *)
Definition with_maxRows_1 (options : SuiteQLOptions) : SuiteQLOptions := {|
  pageSize := pageSize options;
  offset := offset options;
  maxRows := Some (Finite 1);
  timeout := timeout options;
|}.

(** [queryOne]: [result.items[0] ?? null], the row or [null]. *)
Definition queryOne (fuel : nat) (sql : string) (options : SuiteQLOptions) (w : W)
    : option (Outcome (option T)) * W :=
  match query transport baseUrl fuel sql (with_maxRows_1 options) w with
  | (Some (Resolved result), w') => (Some (Resolved (head (items result))), w')
  | (Some (Rejected e), w') => (Some (Rejected e), w')
  | (None, w') => (None, w')
  end.

(** The one request that [queryOne] can make. *)
Definition first_row_call (sql : string) (options : SuiteQLOptions) : PageCall := {|
  call_baseUrl := baseUrl;
  call_limit := 1;
  call_offset := default 0%Z (offset options);
  call_method := POST;
  call_body := Js.VObject [("q", Js.VString sql)];
  call_headers := {[ "Prefer" := "transient" ]};
  call_timeout := timeout options;
|}.

(** ** [queryPages]

    The generator between two calls of its [next()]: about to run the
    loop body with the two counters, suspended at the [yield] of a
    page (the counters are updated when it is resumed), or
    finished. *)
Inductive Generator : Type :=
| Ready (currentOffset totalYielded : Z)
| Suspended (currentOffset totalYielded : Z) (page : SuiteQLRawResponse T)
| Finished.

(** The generator object that a call of [queryPages] returns. *)
Definition queryPages (options : SuiteQLOptions) : Generator :=
  Ready (default 0%Z (offset options)) 0.

Section Pull.
Variable sql : string.
Variable options : SuiteQLOptions.

Definition page_size : Z := default 1000%Z (pageSize options).
Definition max_rows : Bound := default Infinity (maxRows options).

Definition pages_call (currentOffset totalYielded : Z) : PageCall := {|
  call_baseUrl := baseUrl;
  call_limit := min_with_remaining page_size max_rows totalYielded;
  call_offset := currentOffset;
  call_method := POST;
  call_body := Js.VObject [("q", Js.VString sql)];
  call_headers := {[ "Prefer" := "transient" ]};
  call_timeout := timeout options;
|}.

(** From the top of the loop body to the next [yield] or
    [return]. *)
Definition body (currentOffset totalYielded : Z) (w : W)
    : Outcome (option (list T)) * Generator * W :=
  if (min_with_remaining page_size max_rows totalYielded <=? 0)%Z
  then (Resolved None, Finished, w)
  else
    match transport (pages_call currentOffset totalYielded) w with
    | (Rejected e, w1) => (Rejected e, Finished, w1)
    | (Resolved page, w1) =>
        if (len (raw_items page) =? 0)%Z then (Resolved None, Finished, w1)
        else (Resolved (Some (raw_items page)),
              Suspended currentOffset totalYielded page, w1)
    end.

(** One call of [next()]: [Some page] for [{ value: page, done:
    false }], [None] for [{ done: true }]. *)
Definition pull (g : Generator) (w : W)
    : Outcome (option (list T)) * Generator * W :=
  match g with
  | Finished => (Resolved None, Finished, w)
  | Ready currentOffset totalYielded => body currentOffset totalYielded w
  | Suspended currentOffset totalYielded page =>
      let totalYielded' := (totalYielded + len (raw_items page))%Z in
      let hasMore :=
        raw_hasMore page
        || (currentOffset + len (raw_items page) <? raw_totalResults page)%Z in
      if negb hasMore || reached totalYielded' max_rows
      then (Resolved None, Finished, w)
      else body (currentOffset + len (raw_items page)) totalYielded' w
  end.

(** [for await (const page of generator) pages.push(page)], for at
    most [fuel] calls of [next()]. *)
Fixpoint collect (fuel : nat) (g : Generator) (w : W)
    : option (Outcome (list (list T))) * W :=
  match fuel with
  | O => (None, w)
  | S fuel' =>
      match pull g w with
      | (Rejected e, _, w1) => (Some (Rejected e), w1)
      | (Resolved None, _, w1) => (Some (Resolved []), w1)
      | (Resolved (Some page), g1, w1) =>
          match collect fuel' g1 w1 with
          | (Some (Resolved pages), w2) => (Some (Resolved (page :: pages)), w2)
          | other => other
          end
      end
  end.
End Pull.
End Client.

End Pages.

(* ================================================================== *)
(** * [NetSuiteClient] and [RecordClient] on top of the transport      *)
(* ================================================================== *)

Module Clients.
Import MiddlewareChain HttpTransport.

(** A middleware that leaves url, method and body of the context as
    they are (it may add headers and metadata). *)
Definition keeps_request : Middleware -> Prop :=
  respects (fun f => forall c,
              (ctx_url (f c), ctx_method (f c), ctx_body (f c))
              = (ctx_url c, ctx_method c, ctx_body c)).

(** A request on the wire for [url] with [method] and [data]. *)
Definition on_wire (url : string) (method : HttpMethod) (data : Js.Value)
    (c : AxiosRequestConfig) : Prop :=
  ax_url c = url /\ ax_method c = method /\ ax_data c = data.

(** The data that goes with the body and method of a call. *)
Definition data_of (options : RequestOptions) : Js.Value :=
  if Js.truthy (opt_body options) && carries_body (method_of options)
  then opt_body options else Js.VUndefined.

(** [{ ...options, method }] *)
Definition with_method (method : HttpMethod) (options : RequestOptions)
  : RequestOptions := {|
  opt_method := Some method;
  opt_headers := opt_headers options;
  opt_body := opt_body options;
  opt_timeout := opt_timeout options;
  opt_maxRetries := opt_maxRetries options;
|}.

(** [{ ...options, method, body }] *)
Definition with_method_body (method : HttpMethod) (body : Js.Value)
    (options : RequestOptions) : RequestOptions := {|
  opt_method := Some method;
  opt_headers := opt_headers options;
  opt_body := body;
  opt_timeout := opt_timeout options;
  opt_maxRetries := opt_maxRetries options;
|}.

(** [{ method, body }] *)
Definition method_and_body (method : HttpMethod) (body : Js.Value)
  : RequestOptions :=
  mkRequestOptions (Some method) None body None None.

(** An internal id, [string | number], as a template literal prints
    it. *)
Inductive RecordId : Type := IdString (s : string) | IdNumber (n : Z).

Definition print_id (id : RecordId) : string :=
  match id with IdString s => s | IdNumber n => pretty n end.

Section OnHost.
Variables (host : Host) (t : Transport).

(** ** [NetSuiteClient] *)

Definition client_get (url : string) (options : RequestOptions)
  : Async World NetSuiteResponse :=
  request host t url (with_method GET options).

Definition client_post (url : string) (body : Js.Value) (options : RequestOptions)
  : Async World NetSuiteResponse :=
  request host t url (with_method_body POST body options).

Definition client_put (url : string) (body : Js.Value) (options : RequestOptions)
  : Async World NetSuiteResponse :=
  request host t url (with_method_body PUT body options).

Definition client_patch (url : string) (body : Js.Value) (options : RequestOptions)
  : Async World NetSuiteResponse :=
  request host t url (with_method_body PATCH body options).

Definition client_delete (url : string) (options : RequestOptions)
  : Async World NetSuiteResponse :=
  request host t url (with_method DELETE options).

(** ** [RecordClient] *)

Variable accountId : string.

Definition record_url (recordType : string) : string :=
  (UrlBuilder.RecordClient_baseUrl accountId ++ "/" ++ recordType)%string.

Definition record_id_url (recordType : string) (id : RecordId) : string :=
  (UrlBuilder.RecordClient_baseUrl accountId ++ "/" ++ recordType ++ "/"
     ++ print_id id)%string.

Definition record_create (recordType : string) (body : Js.Value)
  : Async World NetSuiteResponse :=
  request host t (record_url recordType) (method_and_body POST body).

Definition record_update (recordType : string) (id : RecordId) (body : Js.Value)
  : Async World NetSuiteResponse :=
  request host t (record_id_url recordType id) (method_and_body PATCH body).

Definition record_replace (recordType : string) (id : RecordId) (body : Js.Value)
  : Async World NetSuiteResponse :=
  request host t (record_id_url recordType id) (method_and_body PUT body).

Definition record_delete (recordType : string) (id : RecordId)
  : Async World NetSuiteResponse :=
  request host t (record_id_url recordType id)
    (method_and_body DELETE Js.VUndefined).

Definition record_upsert (recordType externalIdField externalIdValue : string)
    (body : Js.Value) : Async World NetSuiteResponse :=
  request host t
    (UrlBuilder.RecordClient_baseUrl accountId ++ "/" ++ recordType ++ "/eid:"
       ++ externalIdField ++ "=" ++ externalIdValue)%string
    (method_and_body PUT body).
End OnHost.

End Clients.

(* ================================================================== *)
(** * [validateConfig]                                                 *)
(* ================================================================== *)

Module Validation.

(** [typeof v === 'object'] *)
Definition typeof_object (v : Js.Value) : bool :=
  match v with
  | Js.VNull | Js.VObject _ | Js.VArray _ => true
  | _ => false
  end.

(** [typeof v === 'string'] *)
Definition typeof_string (v : Js.Value) : bool :=
  match v with Js.VString _ => true | _ => false end.

(** [!v || typeof v !== 'object'] *)
Definition not_an_object (v : Js.Value) : bool :=
  negb (Js.truthy v) || negb (typeof_object v).

(** [!v || typeof v !== 'string'] *)
Definition not_a_string (v : Js.Value) : bool :=
  negb (Js.truthy v) || negb (typeof_string v).

Definition requiredFields : list string :=
  ["consumerKey"; "consumerSecret"; "tokenKey"; "tokenSecret"; "realm"].

Definition NOT_AN_OBJECT : string := "Config must be a non-null object".
Definition NO_AUTH : string := "auth is required and must be an object".
Definition NO_ACCOUNT : string :=
  "accountId is required and must be a non-empty string".

(** [`auth.${field} is required and must be a non-empty string`] *)
Definition no_field (field : string) : string :=
  ("auth." ++ field ++ " is required and must be a non-empty string")%string.

Definition validateConfig (config : Js.Value) : list string :=
  if not_an_object config then [NOT_AN_OBJECT]
  else
    let auth := Js.get config "auth" in
    (if not_an_object auth then [NO_AUTH]
     else
       flat_map (fun field =>
                   if not_a_string (Js.get auth field) then [no_field field] else [])
         requiredFields)
    ++ (if not_a_string (Js.get config "accountId") then [NO_ACCOUNT] else []).

(** A configuration as the types describe it, seen as a value: an
    object whose [auth] is an object with the five credentials as
    non-empty strings and whose [accountId] is a non-empty string. *)
Definition nonempty_string (v : Js.Value) : Prop :=
  exists s, v = Js.VString s /\ s <> "".

Definition well_formed (config : Js.Value) : Prop :=
  exists fields authFields,
    config = Js.VObject fields
    /\ Js.assoc "auth" fields = Js.VObject authFields
    /\ Forall (fun field => nonempty_string (Js.assoc field authFields))
         requiredFields
    /\ nonempty_string (Js.assoc "accountId" fields).

(** The errors for a configuration whose checks came out as the
    arguments say. *)
Definition report (noConfig noAuth : bool) (missing : list bool) (noAccount : bool)
  : list string :=
  if noConfig then [NOT_AN_OBJECT]
  else
    (if noAuth then [NO_AUTH]
     else
       flat_map (fun '(field, bad) => if bad : bool then [no_field field] else [])
         (zip requiredFields missing))
    ++ (if noAccount then [NO_ACCOUNT] else []).

End Validation.

(* ================================================================== *)
(** * [SuiteQLBuilder] and [escapeValue]                               *)
(* ================================================================== *)

Module Builder.

(** [string | number | boolean]; the numbers of the model are the
    integers, which [String(value)] prints in decimal. *)
Inductive SqlValue : Type :=
| SqlString (s : string)
| SqlNumber (n : Z)
| SqlBool (b : bool).

Definition QUOTE : ascii := "'"%char.

(** [value.replace(/'/g, "''")] *)
Fixpoint double_quotes (s : string) : string :=
  match s with
  | EmptyString => EmptyString
  | String c r =>
      if Ascii.eqb c QUOTE then String QUOTE (String QUOTE (double_quotes r))
      else String c (double_quotes r)
  end.

Definition escapeValue (value : SqlValue) : string :=
  match value with
  | SqlNumber n => pretty n
  | SqlBool b => if b then "'T'" else "'F'"
  | SqlString s => String QUOTE (double_quotes s ++ String QUOTE EmptyString)
  end.

Record SuiteQLBuilder : Type := mkBuilder {
  _select : list string;
  _from : string;
  _joins : list string;
  _where : list string;
  _groupBy : list string;
  _orderBy : list string;
  _having : list string;
}.

(** [suiteql()] *)
Definition suiteql : SuiteQLBuilder := mkBuilder [] "" [] [] [] [] [].

Inductive JoinType : Type := INNER | LEFT | RIGHT.
Inductive Direction : Type := ASC | DESC.

Definition print_join (type : JoinType) : string :=
  match type with INNER => "INNER" | LEFT => "LEFT" | RIGHT => "RIGHT" end.

Definition print_direction (direction : Direction) : string :=
  match direction with ASC => "ASC" | DESC => "DESC" end.

Definition select (columns : list string) (b : SuiteQLBuilder) : SuiteQLBuilder :=
  mkBuilder (_select b ++ columns) (_from b) (_joins b) (_where b) (_groupBy b)
    (_orderBy b) (_having b).

(** [this._from = alias ? `${table} ${alias}` : table] *)
Definition from (table : string) (alias : option string) (b : SuiteQLBuilder)
  : SuiteQLBuilder :=
  mkBuilder (_select b)
    (match alias with
     | Some a => if String.eqb a "" then table else (table ++ " " ++ a)%string
     | None => table
     end)
    (_joins b) (_where b) (_groupBy b) (_orderBy b) (_having b).

Definition join (table condition : string) (type : JoinType) (b : SuiteQLBuilder)
  : SuiteQLBuilder :=
  mkBuilder (_select b) (_from b)
    (_joins b ++ [(print_join type ++ " JOIN " ++ table ++ " ON " ++ condition)%string])
    (_where b) (_groupBy b) (_orderBy b) (_having b).

Definition leftJoin (table condition : string) : SuiteQLBuilder -> SuiteQLBuilder :=
  join table condition LEFT.

Definition rightJoin (table condition : string) : SuiteQLBuilder -> SuiteQLBuilder :=
  join table condition RIGHT.

(** [where]; the name is reserved in Rocq. *)
Definition where_ (condition : string) (b : SuiteQLBuilder) : SuiteQLBuilder :=
  mkBuilder (_select b) (_from b) (_joins b) (_where b ++ [condition]) (_groupBy b)
    (_orderBy b) (_having b).

Definition whereEquals (column : string) (value : SqlValue) : SuiteQLBuilder -> SuiteQLBuilder :=
  where_ (column ++ " = " ++ escapeValue value)%string.

Definition whereNotEquals (column : string) (value : SqlValue)
  : SuiteQLBuilder -> SuiteQLBuilder :=
  where_ (column ++ " != " ++ escapeValue value)%string.

Definition whereIn (column : string) (values : list SqlValue)
  : SuiteQLBuilder -> SuiteQLBuilder :=
  where_ (column ++ " IN (" ++ String.concat ", " (escapeValue <$> values) ++ ")")%string.

Definition whereNull (column : string) : SuiteQLBuilder -> SuiteQLBuilder :=
  where_ (column ++ " IS NULL")%string.

Definition whereNotNull (column : string) : SuiteQLBuilder -> SuiteQLBuilder :=
  where_ (column ++ " IS NOT NULL")%string.

Definition whereBetween (column : string) (start finish : SqlValue)
  : SuiteQLBuilder -> SuiteQLBuilder :=
  where_ (column ++ " BETWEEN " ++ escapeValue start ++ " AND " ++ escapeValue finish)%string.

Definition whereLike (column pattern : string) : SuiteQLBuilder -> SuiteQLBuilder :=
  where_ (column ++ " LIKE " ++ escapeValue (SqlString pattern))%string.

Definition groupBy (columns : list string) (b : SuiteQLBuilder) : SuiteQLBuilder :=
  mkBuilder (_select b) (_from b) (_joins b) (_where b) (_groupBy b ++ columns)
    (_orderBy b) (_having b).

Definition having (condition : string) (b : SuiteQLBuilder) : SuiteQLBuilder :=
  mkBuilder (_select b) (_from b) (_joins b) (_where b) (_groupBy b) (_orderBy b)
    (_having b ++ [condition]).

Definition orderBy (column : string) (direction : Direction) (b : SuiteQLBuilder)
  : SuiteQLBuilder :=
  mkBuilder (_select b) (_from b) (_joins b) (_where b) (_groupBy b)
    (_orderBy b ++ [(column ++ " " ++ print_direction direction)%string]) (_having b).

Definition SELECT_REQUIRED : Thrown :=
  ThrownError None "SuiteQLBuilder: SELECT clause is required".
Definition FROM_REQUIRED : Thrown :=
  ThrownError None "SuiteQLBuilder: FROM clause is required".

(** [if (list.length > 0) parts.push(`${keyword}${list.join(sep)}`)] *)
Definition clause (keyword sep : string) (l : list string) : list string :=
  match l with
  | [] => []
  | _ => [(keyword ++ String.concat sep l)%string]
  end.

Definition build (b : SuiteQLBuilder) : Outcome string :=
  match _select b with
  | [] => Rejected SELECT_REQUIRED
  | _ =>
      if String.eqb (_from b) "" then Rejected FROM_REQUIRED
      else
        Resolved
          (String.concat " "
             ([("SELECT " ++ String.concat ", " (_select b))%string;
               ("FROM " ++ _from b)%string]
                ++ clause "" " " (_joins b)
                ++ clause "WHERE " " AND " (_where b)
                ++ clause "GROUP BY " ", " (_groupBy b)
                ++ clause "HAVING " " AND " (_having b)
                ++ clause "ORDER BY " ", " (_orderBy b)))
  end.

(** ** A chain of calls on a fresh builder *)

Inductive Call : Type :=
| CSelect (columns : list string)
| CFrom (table : string) (alias : option string)
| CJoin (table condition : string) (type : JoinType)
| CLeftJoin (table condition : string)
| CRightJoin (table condition : string)
| CWhere (condition : string)
| CWhereEquals (column : string) (value : SqlValue)
| CWhereNotEquals (column : string) (value : SqlValue)
| CWhereIn (column : string) (values : list SqlValue)
| CWhereNull (column : string)
| CWhereNotNull (column : string)
| CWhereBetween (column : string) (start finish : SqlValue)
| CWhereLike (column pattern : string)
| CGroupBy (columns : list string)
| CHaving (condition : string)
| COrderBy (column : string) (direction : Direction).

Definition call (c : Call) : SuiteQLBuilder -> SuiteQLBuilder :=
  match c with
  | CSelect columns => select columns
  | CFrom table alias => from table alias
  | CJoin table condition type => join table condition type
  | CLeftJoin table condition => leftJoin table condition
  | CRightJoin table condition => rightJoin table condition
  | CWhere condition => where_ condition
  | CWhereEquals column value => whereEquals column value
  | CWhereNotEquals column value => whereNotEquals column value
  | CWhereIn column values => whereIn column values
  | CWhereNull column => whereNull column
  | CWhereNotNull column => whereNotNull column
  | CWhereBetween column start finish => whereBetween column start finish
  | CWhereLike column pattern => whereLike column pattern
  | CGroupBy columns => groupBy columns
  | CHaving condition => having condition
  | COrderBy column direction => orderBy column direction
  end.

(** [suiteql().m1(...).m2(...) ...] *)
Definition chain (calls : list Call) : SuiteQLBuilder :=
  fold_left (fun b c => call c b) calls suiteql.

(** The columns that the [select] calls of a chain name. *)
Definition selected (calls : list Call) : list string :=
  flat_map (fun c => match c with CSelect columns => columns | _ => [] end) calls.

(** The tables that the [from] calls of a chain name, as written into
    the builder. *)
Definition tables (calls : list Call) : list string :=
  omap (fun c => match c with
                 | CFrom table alias => Some (_from (from table alias suiteql))
                 | _ => None
                 end) calls.

(** ** Reading a string literal

    How SQL reads a literal: after the opening quote, two quotes in a
    row stand for one quote of the text, and a quote on its own closes
    the literal.  [scan s] reads the text up to the closing quote and
    returns it with what follows. *)
Fixpoint scan (s : string) : option (string * string) :=
  match s with
  | EmptyString => None
  | String c r =>
      if Ascii.eqb c QUOTE then
        match r with
        | EmptyString => Some (EmptyString, EmptyString)
        | String c' r' =>
            if Ascii.eqb c' QUOTE
            then match scan r' with
                 | Some (text, rest) => Some (String QUOTE text, rest)
                 | None => None
                 end
            else Some (EmptyString, r)
        end
      else match scan r with
           | Some (text, rest) => Some (String c text, rest)
           | None => None
           end
  end.

Definition read_literal (s : string) : option (string * string) :=
  match s with
  | EmptyString => None
  | String c r => if Ascii.eqb c QUOTE then scan r else None
  end.

Definition starts_with_quote (s : string) : bool :=
  match s with
  | EmptyString => false
  | String c _ => Ascii.eqb c QUOTE
  end.

End Builder.

(* ================================================================== *)
(** * [ResponseCache] and [RateLimiter]                                *)
(* ================================================================== *)

Module Cache.

Record CacheEntry : Type := mkCacheEntry {
  entry_data : Js.Value;
  expiresAt : Q;
}.

(** The [Map] of the cache.  Every operation that reads the clock takes
    the value of [Date.now()] as [now]. *)
Definition ResponseCache : Type := gmap string CacheEntry.

Definition empty_cache : ResponseCache := ∅.

(** [Date.now() > entry.expiresAt] *)
Definition expired (now : Z) (entry : CacheEntry) : bool :=
  negb (Qle_bool (inject_Z now) (expiresAt entry)).

(** [get(key)]: the data or [null], and the cache afterwards. *)
Definition cache_get (key : string) (now : Z) (cache : ResponseCache)
  : option Js.Value * ResponseCache :=
  match cache !! key with
  | None => (None, cache)
  | Some entry =>
      if expired now entry then (None, delete key cache)
      else (Some (entry_data entry), cache)
  end.

(** [set(key, data, ttlSeconds)] *)
Definition cache_set (key : string) (data : Js.Value) (ttlSeconds : Q) (now : Z)
    (cache : ResponseCache) : ResponseCache :=
  <[key := mkCacheEntry data (inject_Z now + ttlSeconds * 1000)]> cache.

(** [delete(key)] *)
Definition cache_delete (key : string) (cache : ResponseCache) : bool * ResponseCache :=
  (bool_decide (is_Some (cache !! key)), delete key cache).

(** [clear()] *)
Definition cache_clear (_ : ResponseCache) : ResponseCache := ∅.

(** [size] *)
Definition cache_size (cache : ResponseCache) : nat := size cache.

End Cache.

Module Limiter.

Record RateLimiter : Type := mkRateLimiter {
  timestamps : list Z;
  maxRequests : Z;
  windowMs : Z;
}.

(** [new RateLimiter(maxRequests = 100, windowMs = 60_000)] *)
Definition newRateLimiter (maxRequests windowMs : option Z) : RateLimiter :=
  mkRateLimiter [] (default 100%Z maxRequests) (default 60000%Z windowMs).

(** [while (timestamps.length > 0 && timestamps[0] <= cutoff)
    timestamps.shift()] *)
Fixpoint shift_while (cutoff : Z) (l : list Z) : list Z :=
  match l with
  | [] => []
  | t :: r => if (t <=? cutoff)%Z then shift_while cutoff r else l
  end.

Definition pruneExpired (now : Z) (rl : RateLimiter) : RateLimiter :=
  mkRateLimiter (shift_while (now - windowMs rl) (timestamps rl))
    (maxRequests rl) (windowMs rl).

Definition canMakeRequest (now : Z) (rl : RateLimiter) : bool * RateLimiter :=
  let rl' := pruneExpired now rl in
  ((Z.of_nat (length (timestamps rl')) <? maxRequests rl')%Z, rl').

Definition recordRequest (now : Z) (rl : RateLimiter) : RateLimiter :=
  let rl' := pruneExpired now rl in
  mkRateLimiter (timestamps rl' ++ [now]) (maxRequests rl') (windowMs rl').

Definition getRemainingRequests (now : Z) (rl : RateLimiter) : Z * RateLimiter :=
  let rl' := pruneExpired now rl in
  (Z.max 0 (maxRequests rl' - Z.of_nat (length (timestamps rl'))), rl').

(** [getTimeUntilNextSlot]; [None] stands for the [NaN] that comes out
    when no slot is free and no request is on record. *)
Definition getTimeUntilNextSlot (now : Z) (rl : RateLimiter)
  : option Z * RateLimiter :=
  let rl' := pruneExpired now rl in
  if (Z.of_nat (length (timestamps rl')) <? maxRequests rl')%Z then (Some 0%Z, rl')
  else
    match timestamps rl' with
    | oldest :: _ => (Some (Z.max 0 (oldest + windowMs rl' - now)), rl')
    | [] => (None, rl')
    end.

(** A limiter after requests were recorded at the times [times], one
    after the other. *)
Definition recorded (times : list Z) (rl : RateLimiter) : RateLimiter :=
  fold_left (fun rl t => recordRequest t rl) times rl.

(** The requests among [times] that lie in the window that ends at
    [now]. *)
Definition in_window (window now : Z) (times : list Z) : list Z :=
  filter (fun t => (now - window < t)%Z) times.

End Limiter.

(* ================================================================== *)
(** * Facts about account identifiers                                  *)
(* ================================================================== *)

Module UrlBuilderFacts.
Import UrlBuilder.

Lemma lower_then_replace (c : ascii) :
  (if Ascii.eqb (lower_ascii c) "_" then "-"%char else lower_ascii c)
  = normalize_char c.
Proof.
  destruct c as [[] [] [] [] [] [] [] []]; reflexivity.
Qed.

Lemma normalize_char_idem (c : ascii) :
  normalize_char (normalize_char c) = normalize_char c.
Proof.
  destruct c as [[] [] [] [] [] [] [] []]; reflexivity.
Qed.

Lemma normalize_char_fixes (c : ascii) :
  normalized_char c = true -> normalize_char c = c.
Proof.
  destruct c as [[] [] [] [] [] [] [] []]; cbv; congruence.
Qed.

Lemma normalize_char_normalized (c : ascii) :
  normalized_char (normalize_char c) = true.
Proof.
  destruct c as [[] [] [] [] [] [] [] []]; reflexivity.
Qed.

Lemma normalizeAccountId_pointwise (s : string) :
  normalizeAccountId s = normalize_spec s.
Proof.
  unfold normalizeAccountId, normalize_spec.
  induction s as [|c r IH]; simpl; [reflexivity|].
  now rewrite lower_then_replace, IH.
Qed.

Lemma normalize_spec_idem (s : string) :
  normalize_spec (normalize_spec s) = normalize_spec s.
Proof.
  unfold normalize_spec.
  induction s as [|c r IH]; simpl; [reflexivity|].
  now rewrite normalize_char_idem, IH.
Qed.

Lemma normalize_spec_fixes (s : string) :
  is_normalized s = true -> normalize_spec s = s.
Proof.
  unfold normalize_spec.
  induction s as [|c r IH]; simpl; [reflexivity|].
  intros [Hc Hr]%andb_prop.
  now rewrite normalize_char_fixes, IH.
Qed.

Lemma normalize_spec_normalized (s : string) :
  is_normalized (normalize_spec s) = true.
Proof.
  unfold normalize_spec.
  induction s as [|c r IH]; simpl; [reflexivity|].
  now rewrite normalize_char_normalized, IH.
Qed.

End UrlBuilderFacts.

Module SpyFacts.
Import Retry Spy.

Section Facts.
Context {W : Type} `{RT : Runtime W} {T : Type}.
Implicit Types (s : Spied W T) (l : list (Observation T)).

Lemma merge_lifts (c : PartialRetryConfig W) :
  lifts (merge DEFAULT_RETRY_CONFIG c)
        (merge DEFAULT_RETRY_CONFIG (spy_config (T:=T) c)).
Proof.
  destruct c as [[m|] [i|] [d|] [b|] [sr|] [on|]];
    split; simpl; try reflexivity;
    intros e k [l q w]; reflexivity.
Qed.

Lemma backoffDelay_lifts opts (opts' : RetryConfig (Spied W T)) k :
  lifts opts opts' -> backoffDelay opts' k = backoffDelay opts k.
Proof.
  intros L. unfold backoffDelay.
  now rewrite (lifts_initial _ _ L), (lifts_cap _ _ L), (lifts_factor _ _ L).
Qed.

Lemma sleepDuration_lifts opts (opts' : RetryConfig (Spied W T)) k r :
  lifts opts opts' -> sleepDuration opts' k r = sleepDuration opts k r.
Proof.
  intros L. unfold sleepDuration. now rewrite (backoffDelay_lifts _ _ _ L).
Qed.

(** The observed loop computes what the plain loop computes; its log
    is a [run_log], and the questions it kept are those of that
    log. *)
Lemma spied_loop (fn : Async W T) opts opts' (L : lifts opts opts') fuel :
  forall attempt s,
    (Z.to_nat (maxRetries opts - attempt + 1) <= fuel)%nat ->
    exists l q,
      retry_loop (spy_fn fn) opts' fuel attempt s
      = (fst (retry_loop fn opts fuel attempt (inner s)),
         mkSpied (log s ++ l) (asked s ++ q)
           (snd (retry_loop fn opts fuel attempt (inner s))))
      /\ run_log fn opts attempt l
           (fst (retry_loop fn opts fuel attempt (inner s)))
      /\ ask_log opts attempt l q.
Proof.
  induction fuel as [|fuel IH]; intros attempt [lg qs w] Hfuel; simpl in Hfuel |- *;
    rewrite (lifts_max _ _ L);
    destruct (attempt <=? maxRetries opts)%Z eqn:Hle; simpl;
    try (exists [], []; rewrite !app_nil_r; split;
         [reflexivity | split; [apply run_exit; lia | apply ask_exit; lia]]);
    try lia.
  unfold spy_fn at 1; simpl.
  destruct (fn w) as [[v|e] w1] eqn:Hfn.
  { exists [Called (Resolved v)], []; rewrite app_nil_r.
    split; [reflexivity|]. split.
    - apply run_resolved with (w := w); [lia | now rewrite Hfn].
    - apply ask_resolved. lia. }
  destruct (attempt =? maxRetries opts)%Z eqn:Hlast; simpl.
  { exists [Called (Rejected e)], []; rewrite app_nil_r.
    split; [reflexivity|]. split.
    - apply run_rejected with (w := w) (w' := w);
        [lia | now rewrite Hfn | left; lia].
    - apply ask_last. lia. }
  rewrite (lifts_should _ _ L); unfold lift_should, note; simpl.
  destruct (shouldRetry opts e attempt w1) as [[|] w2] eqn:Hask; simpl.
  2:{ exists [Called (Rejected e)], [mkQuestion e attempt false].
      split; [reflexivity|]. split.
      - apply run_rejected with (w := w) (w' := w1);
          [lia | now rewrite Hfn | right; now rewrite Hask].
      - apply ask_refused with (w' := w1); [lia | now rewrite Hask]. }
  rewrite (lifts_on _ _ L); simpl.
  set (w3 := match onRetry opts with Some f => f e (attempt + 1) w2 | None => w2 end).
  destruct (Math_random w3) as [r w4] eqn:Hr; simpl.
  rewrite (backoffDelay_lifts _ _ _ L).
  match goal with
  | |- context [retry_loop (spy_fn fn) opts' fuel (attempt + 1) ?s5] =>
      destruct (IH (attempt + 1) s5) as (l & q & Heq & Hl & Hq); [simpl; lia|]
  end.
  simpl in Heq, Hl.
  exists (Called (Rejected e) :: Drew r :: Slept (sleepDuration opts attempt r) :: l),
         (mkQuestion e attempt true :: q).
  split; [|split].
  - rewrite Heq. unfold note; simpl. f_equal. f_equal.
    + now rewrite <- !app_assoc.
    + now rewrite <- !app_assoc.
  - assert (Hlt : (attempt < maxRetries opts)%Z) by lia.
    assert (Hf : fst (fn w) = Rejected e) by now rewrite Hfn.
    assert (Ha : fst (shouldRetry opts e attempt w1) = true) by now rewrite Hask.
    pose proof (run_retry fn opts attempt e w w1 w3 l _ Hlt Hf Ha Hl) as R.
    rewrite Hr in R. exact R.
  - apply ask_accepted with (w' := w1); [lia | now rewrite Hask | exact Hq].
Qed.

Lemma calls_of_app l1 l2 :
  calls_of (l1 ++ l2) = calls_of l1 ++ calls_of l2.
Proof. apply omap_app. Qed.

(** At most one call per remaining value of the counter. *)
Lemma run_log_bound (fn : Async W T) opts a l res :
  run_log fn opts a l res ->
  (Z.of_nat (length (calls_of l)) <= Z.max 0 (maxRetries opts - a + 1))%Z.
Proof.
  induction 1; simpl; lia.
Qed.

(** A call that resolves is the last entry of the log and settles the
    run; every call before it was rejected. *)
Lemma run_log_resolved (fn : Async W T) opts a l res :
  run_log fn opts a l res ->
  match res with
  | Resolved v =>
      exists l0, l = l0 ++ [Called (Resolved v)]
                 /\ Forall (fun o => is_rejected o = true) (calls_of l0)
  | Rejected _ => Forall (fun o => is_rejected o = true) (calls_of l)
  end.
Proof.
  induction 1 as [a Ha|a v w Ha Hf|a e w w' Ha Hf Hs|a e w w' w'' l res Ha Hf Hs Hl IH].
  - constructor.
  - exists []; split; [reflexivity | constructor].
  - repeat constructor.
  - destruct res as [v|e'].
    + destruct IH as (l0 & -> & Hall).
      eexists (_ :: _ :: _ :: l0); split; [reflexivity|].
      simpl. constructor; [reflexivity | exact Hall].
    + simpl. constructor; [reflexivity | exact IH].
Qed.

(** When no call resolves and the predicate accepted whenever it was
    asked, the loop runs until the counter reaches [maxRetries]. *)
Lemma ask_log_exhausts (opts : RetryConfig W) a l (q : list (Question)) :
  ask_log opts a l q ->
  Forall (fun o => is_rejected o = true) (calls_of l) ->
  Forall (fun x => q_answer x = true) q ->
  (a <= maxRetries opts)%Z ->
  Z.of_nat (length (calls_of l)) = (maxRetries opts - a + 1)%Z.
Proof.
  induction 1 as [a Ha|a v Ha|a e Ha|a e w' Ha Hno|a e w' r ms l q Ha Hyes Hl IH];
    simpl; intros Hrej Hall Hle.
  - lia.
  - inversion Hrej; subst; discriminate.
  - lia.
  - inversion Hall; subst; discriminate.
  - inversion Hrej; subst. inversion Hall; subst.
    assert (IH' : Z.of_nat (length (calls_of l)) = (maxRetries opts - (a + 1) + 1)%Z)
      by (apply IH; [assumption | assumption | lia]).
    lia.
Qed.

(** Every question on record is one that the loop put: for the error
    of a failed call, at a counter before the last, answered by the
    predicate in some world; and there is one question for each
    failed call that is not the last the loop allows. *)
Lemma ask_log_sound (opts : RetryConfig W) a l (q : list (Question)) :
  ask_log opts a l q ->
  Forall (fun x =>
            (a <= q_attempt x < maxRetries opts)%Z
            /\ In (Called (Rejected (q_error x))) l
            /\ exists w' : W,
                 q_answer x = fst (shouldRetry opts (q_error x) (q_attempt x) w'))
    q.
Proof.
  induction 1 as [a Ha|a v Ha|a e Ha|a e w' Ha Hno|a e w' r ms l q Ha Hyes Hl IH];
    try constructor.
  - cbn. split; [lia|]. split; [now left | now exists w'].
  - constructor.
  - cbn. split; [lia|]. split; [now left | now exists w'].
  - eapply Forall_impl; [exact IH|]. cbn beta.
    intros x (Hk & Hin & Hw). split; [lia|].
    split; [right; right; right; exact Hin | exact Hw].
Qed.

(** The sleeps of a run: the [k]-th retried round sleeps for
    [sleepDuration] of its counter and of the number it drew, and every
    number drawn came out of [Math.random]. *)
Lemma run_log_sleeps (fn : Async W T) opts a l res :
  run_log fn opts a l res ->
  sleeps_of l
  = imap (fun k r => sleepDuration opts (a + Z.of_nat k) r) (draws_of l)
  /\ Forall (fun r => exists w : W, r = fst (Math_random w)) (draws_of l).
Proof.
  induction 1 as [a Ha|a v w Ha Hf|a e w w' Ha Hf Hs|a e w w' w'' l res Ha Hf Hs Hl [IH1 IH2]];
    simpl; try (split; [reflexivity | constructor]).
  split.
  - rewrite Z.add_0_r. f_equal. rewrite IH1.
    apply imap_ext. intros k r _. simpl. f_equal. lia.
  - constructor; [now exists w''| exact IH2].
Qed.

(** The observed [withRetry] against the plain one. *)
Lemma spy_transparent (fn : Async W T) (config : PartialRetryConfig W) (w : W) :
  exists l q,
    withRetry (spy_fn fn) (spy_config config) (watch w)
    = (fst (withRetry fn config w), mkSpied l q (snd (withRetry fn config w)))
    /\ run_log fn (merge DEFAULT_RETRY_CONFIG config) 0 l
         (fst (withRetry fn config w))
    /\ ask_log (merge DEFAULT_RETRY_CONFIG config) 0 l q.
Proof.
  unfold withRetry.
  pose proof (merge_lifts config) as L.
  destruct (spied_loop fn _ _ L
              (Z.to_nat (maxRetries (merge DEFAULT_RETRY_CONFIG config) + 1))
              0 (watch w)) as (l & q & Heq & Hl & Hq).
  { apply Nat.eq_le_incl. f_equal. lia. }
  exists l, q. rewrite (lifts_max _ _ L).
  split; [exact Heq | split; [exact Hl | exact Hq]].
Qed.

(** The same for a whole run, whose counter starts at 0. *)
Lemma run_log_sleeps_from_0 (fn : Async W T) opts l res :
  run_log fn opts 0 l res ->
  sleeps_of l = imap (fun k r => sleepDuration opts (Z.of_nat k) r) (draws_of l)
  /\ Forall (fun r => exists w : W, r = fst (Math_random w)) (draws_of l).
Proof.
  intros Hl. destruct (run_log_sleeps _ _ _ _ _ Hl) as [E Hd].
  split; [|exact Hd]. rewrite E. apply imap_ext. intros; reflexivity.
Qed.

End Facts.
End SpyFacts.

(* ================================================================== *)
(** * Facts about the middleware chain                                 *)
(* ================================================================== *)

Module ChainFacts.
Import MiddlewareChain.

Section Chain.
Variable middlewares : list Middleware.
Variable finalHandler : Async World ResponseContext.

(** [index] never decreases, whatever the middleware does with the
    closure it was given. *)
Lemma run_index_mono m (nxt : Async ChainState ResponseContext) :
  (forall st, (fst st <= fst (snd (nxt st)))%nat) ->
  forall st, (fst st <= fst (snd (run m nxt st)))%nat.
Proof.
  intros Hn. induction m as [r|e|tag k IH|k IH|f k IH|k IH]; intros st; simpl.
  - lia.
  - lia.
  - apply (IH (_, _)).
  - apply IH.
  - apply (IH (_, _)).
  - destruct (nxt st) as [o st'] eqn:E.
    specialize (Hn st). rewrite E in Hn. simpl in Hn.
    specialize (IH o st'). lia.
Qed.

Lemma next_index_mono fuel :
  forall st, (fst st <= fst (snd (next middlewares finalHandler fuel st)))%nat.
Proof.
  induction fuel as [|fuel IH]; intros [i w]; simpl.
  - destruct (length middlewares <=? i)%nat;
      [destruct (finalHandler w); simpl; lia | simpl; lia].
  - destruct (length middlewares <=? i)%nat;
      [destruct (finalHandler w); simpl; lia |].
    destruct (middlewares !! i) as [m|]; [|simpl; lia].
    pose proof (run_index_mono m _ IH (S i, w)) as Hm. simpl in Hm. lia.
Qed.

(** Two closures that agree from [j] on are indistinguishable to a
    middleware started at or after [j]. *)
Lemma run_ext m (n1 n2 : Async ChainState ResponseContext) j :
  (forall st, (j <= fst st)%nat -> n1 st = n2 st) ->
  (forall st, (fst st <= fst (snd (n1 st)))%nat) ->
  forall st, (j <= fst st)%nat -> run m n1 st = run m n2 st.
Proof.
  intros Heq Hmono.
  induction m as [r|e|tag k IH|k IH|f k IH|k IH]; intros st Hj; simpl;
    try reflexivity.
  - apply IH; exact Hj.
  - apply IH; exact Hj.
  - apply IH; exact Hj.
  - rewrite <- (Heq st Hj).
    destruct (n1 st) as [o st'] eqn:E.
    apply IH. specialize (Hmono st). rewrite E in Hmono. simpl in Hmono. lia.
Qed.

(** Any amount of fuel that covers the middlewares still ahead gives
    the same run: the [STUCK] branch of [next] is dead code. *)
Lemma next_fuel_irrelevant f1 :
  forall f2 st,
    (length middlewares - fst st <= f1)%nat ->
    (length middlewares - fst st <= f2)%nat ->
    next middlewares finalHandler f1 st = next middlewares finalHandler f2 st.
Proof.
  induction f1 as [|f1 IH]; intros f2 [i w] H1 H2; simpl in H1, H2.
  - assert (Hi : (length middlewares <=? i)%nat = true)
      by (apply Nat.leb_le; lia).
    destruct f2; simpl; rewrite Hi; reflexivity.
  - destruct (length middlewares <=? i)%nat eqn:Hi.
    + destruct f2; simpl; rewrite Hi; reflexivity.
    + apply Nat.leb_gt in Hi.
      destruct f2 as [|f2]; [lia|].
      simpl. assert (Hi' : (length middlewares <=? i)%nat = false)
        by (apply Nat.leb_gt; lia).
      rewrite Hi'.
      destruct (middlewares !! i) as [m|]; [|reflexivity].
      apply run_ext with (j := S i); [| apply next_index_mono | simpl; lia].
      intros st Hst. apply IH; lia.
Qed.

(** A property of the world that the effects and mutations of the
    middlewares and the terminal handler preserve is preserved by the
    chain. *)
Section Invariant.
Variable P : World -> Prop.
Variable Q : (RequestContext -> RequestContext) -> Prop.
Hypothesis P_effect : forall tag w, P w -> P (emit (EvEffect tag) w).
Hypothesis P_mutate :
  forall f w, Q f -> P w -> P (set_context (f (context w)) w).
Hypothesis P_final : forall w, P w -> P (snd (finalHandler w)).

Lemma run_invariant m (nxt : Async ChainState ResponseContext) :
  respects Q m ->
  (forall st, P (snd st) -> P (snd (snd (nxt st)))) ->
  forall st, P (snd st) -> P (snd (snd (run m nxt st))).
Proof.
  intros Hm Hn. induction Hm as [r|e|tag k Hk IH|k Hk IH|f k Hf Hk IH|k Hk IH];
    intros st Hst; simpl; try exact Hst.
  - apply IH. simpl. now apply P_effect.
  - apply IH, Hst.
  - apply IH. simpl. now apply P_mutate.
  - destruct (nxt st) as [o st'] eqn:E. apply IH.
    specialize (Hn st Hst). now rewrite E in Hn.
Qed.

Lemma next_invariant fuel :
  Forall (respects Q) middlewares ->
  forall st, P (snd st) -> P (snd (snd (next middlewares finalHandler fuel st))).
Proof.
  intros Hall. induction fuel as [|fuel IH]; intros [i w] Hw; simpl in *.
  - destruct (length middlewares <=? i)%nat; [|exact Hw].
    specialize (P_final w Hw). destruct (finalHandler w); exact P_final.
  - destruct (length middlewares <=? i)%nat.
    { specialize (P_final w Hw). destruct (finalHandler w); exact P_final. }
    destruct (middlewares !! i) as [m|] eqn:Hm; [|exact Hw].
    apply run_invariant; [|exact IH|exact Hw].
    rewrite Forall_lookup in Hall. exact (Hall i m Hm).
Qed.

Lemma chain_invariant w :
  Forall (respects Q) middlewares ->
  P w -> P (snd (executeMiddlewareChain middlewares finalHandler w)).
Proof.
  intros Hall Hw. unfold executeMiddlewareChain.
  pose proof (next_invariant (length middlewares) Hall (0%nat, w) Hw) as H.
  destruct (next middlewares finalHandler (length middlewares) (0%nat, w))
    as [o [i w']]. exact H.
Qed.
End Invariant.
End Chain.

(** Every middleware respects the condition that holds of every
    mutation. *)
Lemma respects_any m : respects (fun _ => True) m.
Proof.
  induction m; constructor; auto.
Qed.

(** A middleware of the usual shape performs one mutation. *)
Lemma around_respects (Q : (RequestContext -> RequestContext) -> Prop)
    enter leave rewrite_request rewrite_response :
  Q rewrite_request ->
  respects Q (around enter leave rewrite_request rewrite_response).
Proof.
  intros HQ. unfold around.
  constructor. constructor; [exact HQ|]. constructor.
  intros [r|e]; repeat constructor.
Qed.

(** No middleware: the terminal handler, and nothing else. *)
Lemma chain_nil (finalHandler : Async World ResponseContext) w :
  executeMiddlewareChain [] finalHandler w = finalHandler w.
Proof.
  unfold executeMiddlewareChain. simpl.
  destruct (finalHandler w) as [o w']. reflexivity.
Qed.

(** Two middlewares of the usual shape around a terminal handler. *)
Lemma chain_two_around a_in a_out a_req a_res b_in b_out b_req b_res
    (finalHandler : Async World ResponseContext) w :
  let w_a := set_context (a_req (context (emit (EvEffect a_in) w)))
               (emit (EvEffect a_in) w) in
  let w_b := set_context (b_req (context (emit (EvEffect b_in) w_a)))
               (emit (EvEffect b_in) w_a) in
  executeMiddlewareChain
    [around a_in a_out a_req a_res; around b_in b_out b_req b_res]
    finalHandler w
  = match finalHandler w_b with
    | (Resolved r, w_h) =>
        (Resolved (a_res (b_res r)),
         emit (EvEffect a_out) (emit (EvEffect b_out) w_h))
    | (Rejected e, w_h) => (Rejected e, w_h)
    end.
Proof.
  unfold executeMiddlewareChain; simpl.
  destruct (finalHandler _) as [[r|e] w_h]; reflexivity.
Qed.

End ChainFacts.

(* ================================================================== *)
(** * Facts about [withRetry] and the transport                        *)
(* ================================================================== *)

Module RetryFacts.
Import Retry.

(** A property of the world that the operation, the callbacks and the
    host preserve holds after the loop. *)
Lemma retry_loop_invariant {W} `{Runtime W} {T} (P : W -> Prop)
    (fn : Async W T) (opts : RetryConfig W) :
  (forall w, P w -> P (snd (fn w))) ->
  (forall e k w, P w -> P (snd (shouldRetry opts e k w))) ->
  (forall e k w, P w ->
     P (match onRetry opts with Some f => f e k w | None => w end)) ->
  (forall w, P w -> P (snd (Math_random w))) ->
  (forall ms w, P w -> P (setTimeout ms w)) ->
  forall fuel a w, P w -> P (snd (retry_loop fn opts fuel a w)).
Proof.
  intros Hfn Hask Hon Hrand Hsleep.
  induction fuel as [|fuel IH]; intros a w Hw; simpl;
    destruct (a <=? maxRetries opts)%Z; simpl; try exact Hw.
  specialize (Hfn w Hw).
  destruct (fn w) as [[v|e] w1]; simpl in *; [exact Hfn|].
  destruct (a =? maxRetries opts)%Z; [exact Hfn|].
  specialize (Hask e a w1 Hfn).
  destruct (shouldRetry opts e a w1) as [[|] w2]; simpl in *; [|exact Hask].
  specialize (Hon e (a + 1)%Z w2 Hask).
  set (w3 := match onRetry opts with Some f => f e (a + 1)%Z w2 | None => w2 end) in *.
  specialize (Hrand w3 Hon).
  destruct (Math_random w3) as [r w4]; simpl in *.
  apply IH, Hsleep, Hrand.
Qed.

(** When the loop resolves, its value and its final world are those of
    one invocation of the operation: nothing runs after it. *)
Lemma retry_loop_resolved {W} `{Runtime W} {T}
    (fn : Async W T) (opts : RetryConfig W) fuel :
  forall a w v w',
    retry_loop fn opts fuel a w = (Resolved v, w') ->
    exists w1, fn w1 = (Resolved v, w').
Proof.
  induction fuel as [|fuel IH]; intros a w v w'; simpl;
    destruct (a <=? maxRetries opts)%Z; simpl; try discriminate.
  destruct (fn w) as [[v1|e] w1] eqn:Hfn.
  { intros [= <- <-]. now exists w. }
  destruct (a =? maxRetries opts)%Z; [discriminate|].
  destruct (shouldRetry opts e a w1) as [[|] w2]; simpl; [|discriminate].
  destruct (Math_random _) as [r w4]. apply IH.
Qed.

(** A rejection that the predicate refuses ends the loop at once: the
    operation has been invoked once and its error is thrown. *)
Lemma refused_error_is_thrown {W} `{Runtime W} {T}
    (fn : Async W T) (opts : RetryConfig W) fuel a w e w1 :
  (a <= maxRetries opts)%Z ->
  fn w = (Rejected e, w1) ->
  shouldRetry opts e a w1 = (false, w1) ->
  retry_loop fn opts (S fuel) a w = (Rejected e, w1).
Proof.
  intros Ha Hfn Hno. simpl.
  apply Z.leb_le in Ha. rewrite Ha. simpl. rewrite Hfn.
  destruct (a =? maxRetries opts)%Z; [reflexivity|].
  now rewrite Hno.
Qed.

(** The same when the predicate changes the world while it refuses. *)
Lemma refused_error_ends_loop {W} `{Runtime W} {T}
    (fn : Async W T) (opts : RetryConfig W) fuel a w e w1 :
  (a <= maxRetries opts)%Z ->
  fn w = (Rejected e, w1) ->
  fst (shouldRetry opts e a w1) = false ->
  retry_loop fn opts (S fuel) a w
  = (Rejected e,
     if (a =? maxRetries opts)%Z then w1 else snd (shouldRetry opts e a w1)).
Proof.
  intros Ha Hfn Hno. simpl.
  apply Z.leb_le in Ha. rewrite Ha. simpl. rewrite Hfn.
  destruct (a =? maxRetries opts)%Z; [reflexivity|].
  destruct (shouldRetry opts e a w1) as [b w2]. cbn [fst snd] in *.
  subst b. reflexivity.
Qed.

(** The predicate of the transport refuses an auth-error unless its
    error code is one of the two that mark it as retryable. *)
Lemma auth_error_refused {W} (e : NetSuiteError) (k : Z) (w : W) :
  isAuthError e = true ->
  Js.is_string (code e) "TIMEOUT" = false ->
  Js.is_string (code e) "NETWORK_ERROR" = false ->
  HttpTransport.transport_shouldRetry (ThrownNetSuite e) k w = (false, w).
Proof.
  intros Hauth Ht Hn. unfold HttpTransport.transport_shouldRetry, isRetryable.
  rewrite Ht, Hn. unfold isAuthError in Hauth.
  apply orb_true_iff in Hauth as [Hs|Hs]; apply Z.eqb_eq in Hs; rewrite Hs;
    reflexivity.
Qed.

End RetryFacts.

Module SigningFacts.
Import Retry MiddlewareChain HttpTransport Signing.

Lemma signature_count_app l1 l2 :
  signature_count (l1 ++ l2) = (signature_count l1 + signature_count l2)%nat.
Proof.
  unfold signature_count. now rewrite List.filter_app, length_app.
Qed.

Lemma after_app s l1 l2 : after s (l1 ++ l2) = after (after s l1) l2.
Proof. apply fold_left_app. Qed.

Lemma after_count s l : fst (after s l) = (fst s + signature_count l)%nat.
Proof.
  revert s. induction l as [|e l IH]; intros s; simpl.
  - unfold signature_count; simpl; lia.
  - change (after s (e :: l)) with (after (step s e) l). rewrite IH.
    change (e :: l) with ([e] ++ l). rewrite signature_count_app.
    destruct e; unfold signature_count; simpl; lia.
Qed.

Section Checked.
Variables (url : string) (method : HttpMethod).
Variable ok : nat -> AxiosRequestConfig -> Prop.

Lemma well_signed_app s l1 l2 :
  well_signed url method ok s (l1 ++ l2)
  <-> well_signed url method ok s l1
      /\ well_signed url method ok (after s l1) l2.
Proof.
  revert s. induction l1 as [|e l1 IH]; intros s; simpl.
  - tauto.
  - rewrite IH. change (after s (e :: l1)) with (after (step s e) l1). tauto.
Qed.

Lemma well_signed_snoc s l e :
  well_signed url method ok s l ->
  check url method ok (after s l) e ->
  well_signed url method ok s (l ++ [e]).
Proof.
  intros Hl He. apply well_signed_app. simpl. tauto.
Qed.

Lemma well_signed_weaken (ok' : nat -> AxiosRequestConfig -> Prop) s l :
  (forall k c, ok k c -> ok' k c) ->
  well_signed url method ok s l -> well_signed url method ok' s l.
Proof.
  intros Himp. revert s. induction l as [|e l IH]; intros s; simpl; [tauto|].
  intros [He Hl]. split; [|now apply IH].
  destruct e; simpl in *; try exact He.
  destruct He as (k & Hk & Hok). exists k. split; [exact Hk | now apply Himp].
Qed.
End Checked.

Lemma added_app (w : World) l w' :
  trace w' = trace w ++ l -> added w w' = l.
Proof.
  intros E. unfold added. rewrite E. now rewrite drop_app_length.
Qed.

End SigningFacts.

Module TransportFacts.
Import Retry MiddlewareChain HttpTransport Signing SigningFacts.

Section OnHost.
Variables (host : Host) (t : Transport).

Lemma emit_trace e w : trace (emit e w) = trace w ++ [e].
Proof. reflexivity. Qed.

(** What one call of [executeRequest] adds to the trace: exactly one
    network call, for the context as it is at that moment, between
    the two optional log lines; the context is left as it was. *)
Lemma executeRequest_trace timeout w :
  exists pre post,
    trace (snd (executeRequest host t timeout w))
    = trace w ++ pre ++ [EvSend (axios_config (context w) timeout)] ++ post
    /\ Forall (fun e => match e with EvDebug _ _ _ | EvInfo _ _ _ _ => True
                                   | _ => False end) (pre ++ post)
    /\ context (snd (executeRequest host t timeout w)) = context w.
Proof.
  unfold executeRequest, log_event.
  destruct (rc_logger (config t)) eqn:Hlog; simpl.
  - eexists [_].
    destruct (axios host _ _) as [response|e]; simpl.
    + destruct (400 <=? ar_status response)%Z; simpl;
        (eexists [_]; split;
         [rewrite <- !app_assoc; reflexivity
         | split; [repeat constructor | reflexivity]]).
    + exists []; split;
        [rewrite <- !app_assoc; reflexivity
        | split; [repeat constructor | reflexivity]].
  - exists [].
    destruct (axios host _ _) as [response|e]; simpl.
    + destruct (400 <=? ar_status response)%Z; simpl;
        (exists []; split; [reflexivity | split; [constructor | reflexivity]]).
    + exists []; split; [reflexivity | split; [constructor | reflexivity]].
Qed.

(** Whatever the middlewares do, an attempt calls the signer once,
    before anything else. *)
Lemma attempt_signs_once url method options timeout w :
  exists rest,
    trace (snd (attempt host t url method options timeout w))
    = trace w ++ EvSign url method :: rest
    /\ signature_count rest = 0%nat.
Proof.
  unfold attempt, sign.
  set (c := attempt_context t url method options _).
  set (w2 := set_context c (emit (EvSign url method) w)).
  pose (P := fun w' : World =>
               exists rest, trace w' = trace w ++ EvSign url method :: rest
                            /\ signature_count rest = 0%nat).
  assert (Pemit : forall e w', is_sign e = false -> P w' -> P (emit e w')).
  { intros e w' He (rest & E & Hc). exists (rest ++ [e]). split.
    - rewrite emit_trace, E. now rewrite <- app_assoc.
    - rewrite signature_count_app, Hc. unfold signature_count; simpl.
      now rewrite He. }
  assert (H2 : P w2) by (exists []; split; [reflexivity | reflexivity]).
  pose proof (ChainFacts.chain_invariant (middlewares t)
                (executeRequest host t timeout) P (fun _ => True)) as CI.
  specialize (CI ltac:(intros tag w' Hw'; now apply Pemit)).
  specialize (CI ltac:(intros f w' _ Hw'; exact Hw')).
  assert (Hfinal : forall w', P w' -> P (snd (executeRequest host t timeout w'))).
  { intros w' (rest & E & Hc).
    destruct (executeRequest_trace timeout w') as (pre & post & Et & Hlog & _).
    exists (rest ++ pre ++ [EvSend (axios_config (context w') timeout)] ++ post).
    split.
    - rewrite Et, E. now rewrite <- app_assoc.
    - rewrite signature_count_app, Hc. simpl.
      rewrite signature_count_app.
      change (EvSend ?x :: post) with ([EvSend x] ++ post).
      rewrite signature_count_app.
      apply Forall_app in Hlog as [Hpre Hpost].
      assert (Hnone : forall l,
                 Forall (fun e => match e with
                                  | EvDebug _ _ _ | EvInfo _ _ _ _ => True
                                  | _ => False end) l ->
                 signature_count l = 0%nat).
      { induction 1 as [|e l He _ IH]; [reflexivity|].
        change (e :: l) with ([e] ++ l). rewrite signature_count_app, IH.
        destruct e; try contradiction; reflexivity. }
      rewrite (Hnone _ Hpre), (Hnone _ Hpost). reflexivity. }
  specialize (CI Hfinal w2).
  specialize (CI ltac:(apply Forall_forall; intros; apply ChainFacts.respects_any) H2).
  destruct (executeMiddlewareChain _ _ w2) as [[r|e] w3]; exact CI.
Qed.

End OnHost.

(** ** The trace of a whole [request] *)

Section Run.
Variables (host : Host) (t : Transport).
Variables (url : string) (options : RequestOptions).

(** Some aspect [proj] of the context that no middleware changes, and
    a judgement [okA] on wire requests that holds of every request
    built from a context. *)
Variables (A : Type) (proj : RequestContext -> A).
Variable okA : A -> AxiosRequestConfig -> Prop.
Hypothesis wire_ok : forall c timeout, okA (proj c) (axios_config c timeout).
Hypothesis untouched :
  Forall (respects (fun f => forall c, proj (f c) = proj c)) (middlewares t).

Variable w0 : World.

Local Abbreviation ok := (judged host t url options proj okA).
Local Abbreviation s0 := (signature_count (trace w0), @None nat).
Local Abbreviation Weak := (between_attempts url options ok w0).
Local Abbreviation Strong := (inside_attempt host t url options proj ok w0).

Local Lemma Strong_Weak k w : Strong k w -> Weak w.
Proof. intros (l & E & Hl & _). exists l. tauto. Qed.

Local Lemma Weak_emit e w :
  (forall s, check url (method_of options) ok s e) -> Weak w -> Weak (emit e w).
Proof.
  intros He (l & E & Hl). exists (l ++ [e]). split.
  - rewrite emit_trace, E. now rewrite app_assoc.
  - apply well_signed_snoc; [exact Hl | apply He].
Qed.

Local Lemma Strong_emit k e w :
  (forall s, snd s = Some k -> check url (method_of options) ok s e) ->
  (forall s, snd (step s e) = snd s) ->
  Strong k w -> Strong k (emit e w).
Proof.
  intros He Hs (l & E & Hl & Hk & Hc). exists (l ++ [e]). repeat split.
  - rewrite emit_trace, E. now rewrite app_assoc.
  - apply well_signed_snoc; [exact Hl | now apply He].
  - rewrite after_app. simpl. now rewrite Hs.
  - exact Hc.
Qed.

Local Lemma Strong_log k e w :
  (forall s, snd s = Some k -> check url (method_of options) ok s e) ->
  (forall s, snd (step s e) = snd s) ->
  Strong k w -> Strong k (log_event t e w).
Proof.
  intros He Hs Hw. unfold log_event.
  destruct (rc_logger (config t)); [now apply Strong_emit | exact Hw].
Qed.

Local Lemma Strong_executeRequest k timeout w :
  Strong k w -> Strong k (snd (executeRequest host t timeout w)).
Proof.
  intros Hw.
  assert (Hsend : Strong k
            (emit (EvSend (axios_config (context w) timeout))
               (log_event t
                  (EvDebug (ctx_method (context w)) (ctx_url (context w))
                     (fst <$> map_to_list (ctx_headers (context w)))) w))).
  { apply Strong_emit; [| reflexivity |].
    - intros s Hs. exists k. split; [exact Hs|]. unfold judged.
      destruct Hw as (l & _ & _ & _ & Hc). rewrite <- Hc. apply wire_ok.
    - apply Strong_log; [intros; exact I | reflexivity | exact Hw]. }
  unfold executeRequest.
  destruct (axios host _ _) as [response|e]; simpl; [|exact Hsend].
  destruct (400 <=? ar_status response)%Z; simpl;
    (apply Strong_log; [intros; exact I | reflexivity | exact Hsend]).
Qed.

Local Lemma Weak_attempt timeout w :
  Weak w -> Weak (snd (attempt host t url (method_of options) options timeout w)).
Proof.
  intros (l & E & Hl). unfold attempt, sign.
  set (k := signature_count (trace w)).
  set (c := attempt_context t url (method_of options) options _).
  set (w2 := set_context c (emit (EvSign url (method_of options)) w)).
  assert (H2 : Strong k w2).
  { exists (l ++ [EvSign url (method_of options)]). repeat split.
    - simpl. rewrite E. now rewrite app_assoc.
    - apply well_signed_snoc; [exact Hl | simpl; tauto].
    - rewrite after_app. simpl. f_equal.
      rewrite after_count. unfold k. rewrite E, signature_count_app.
      reflexivity. }
  pose proof (ChainFacts.chain_invariant (middlewares t)
                (executeRequest host t timeout) (Strong k)
                (fun f => forall c, proj (f c) = proj c)) as CI.
  specialize (CI ltac:(intros tag w' Hw'; apply Strong_emit;
                        [intros; exact I | reflexivity | exact Hw'])).
  specialize (CI ltac:(intros f w' Hf (l' & E' & Hl' & Hk' & Hc');
                        exists l'; repeat split; try assumption;
                        simpl; now rewrite Hf)).
  specialize (CI ltac:(intros w' Hw'; now apply Strong_executeRequest)).
  specialize (CI w2 untouched H2).
  destruct (executeMiddlewareChain _ _ w2) as [[r|e] w3]; simpl in *;
    exact (Strong_Weak _ _ CI).
Qed.

(** The trace that [request] adds is well signed. *)
Lemma request_well_signed :
  run_well_signed url options ok w0 (snd (request host t url options w0)).
Proof.
  unfold run_well_signed.
  assert (HW : Weak (snd (request host t url options w0))).
  { unfold request, withRetry.
    apply (RetryFacts.retry_loop_invariant (H := host_runtime host) Weak).
    - intros w Hw. now apply Weak_attempt.
    - intros e k w Hw. simpl. unfold transport_shouldRetry.
      destruct e; exact Hw.
    - intros e k w Hw. simpl. unfold log_event.
      destruct (rc_logger (config t)); [|exact Hw].
      apply Weak_emit; [intros; exact I | exact Hw].
    - intros w Hw. simpl. apply Weak_emit; [intros; exact I | exact Hw].
    - intros ms w Hw. simpl. apply Weak_emit; [intros; exact I | exact Hw].
    - exists []. split; [now rewrite app_nil_r | exact I]. }
  destruct HW as (l & E & Hl).
  now rewrite (added_app _ _ _ E).
Qed.

End Run.
End TransportFacts.

(* ================================================================== *)
(** * Facts about the paginating query                                 *)
(* ================================================================== *)

Module SuiteQLFacts.
Import SuiteQL.

Section Facts.
Context {W : Type} `{RT : Runtime W} {T : Type}.
Variable transport : PageTransport W T.
Variables (baseUrl sql : string) (pageSize : Z) (maxRows : Bound)
          (timeout : option Z).
Implicit Types (st : LoopState T) (page : SuiteQLRawResponse T).
Implicit Types (l : list (PageCall * Outcome (SuiteQLRawResponse T))).

Lemma reached_below n : reached n maxRows = false <-> below n maxRows.
Proof.
  unfold reached, below. destruct maxRows as [m|]; [|tauto].
  rewrite Z.leb_gt. tauto.
Qed.

Lemma len_zero (l : list T) : (len l =? 0)%Z = false <-> l <> [].
Proof.
  unfold len. destruct l; simpl; split; intros H; try congruence; try lia.
Qed.

(** The test of the source against the three conditions. *)
Lemma breaks_goes_on (st : LoopState T) page :
  breaks maxRows st page = false <-> goes_on maxRows st page.
Proof.
  unfold breaks, goes_on, more_pages, indicates_more. simpl.
  rewrite !orb_false_iff, negb_false_iff, orb_true_iff, Z.ltb_lt,
    reached_below, len_zero.
  tauto.
Qed.

Lemma not_goes_on_stops st page :
  ~ goes_on maxRows st page <-> stops maxRows st page.
Proof.
  rewrite <- breaks_goes_on. unfold breaks, stops, more_pages. simpl.
  rewrite not_false_iff_true, !orb_true_iff, negb_true_iff, orb_false_iff,
    Z.ltb_ge, Z.eqb_eq.
  unfold len. destruct (raw_items page); simpl; split; intros H;
    intuition (try congruence; try lia).
Qed.

(** The recorded loop computes what the plain loop computes, adds its
    calls to the record, and follows the policy. *)
Lemma recorded_loop fuel :
  forall st calls w,
    exists l,
      query_loop (recording transport) baseUrl sql pageSize maxRows timeout
        fuel st (calls, w)
      = (fst (query_loop transport baseUrl sql pageSize maxRows timeout fuel st w),
         (calls ++ l,
          snd (query_loop transport baseUrl sql pageSize maxRows timeout fuel st w)))
      /\ page_log baseUrl sql pageSize maxRows timeout st l
           (fst (query_loop transport baseUrl sql pageSize maxRows timeout fuel st w)).
Proof.
  induction fuel as [|fuel IH]; intros st calls w; simpl;
    unfold effectiveLimit;
    destruct (min_with_remaining pageSize maxRows (len (allItems st)) <=? 0)%Z
      eqn:Hlim; simpl.
  - exists []. rewrite app_nil_r. split; [reflexivity|].
    apply log_no_request. lia.
  - exists []. rewrite app_nil_r. split; [reflexivity|].
    apply log_unfinished. lia.
  - exists []. rewrite app_nil_r. split; [reflexivity|].
    apply log_no_request. lia.
  - apply Z.leb_gt in Hlim.
    destruct (transport _ w) as [[page|e] w1] eqn:Ht; simpl.
    2:{ eexists [_]. split; [reflexivity|]. now apply log_failed. }
    destruct (breaks maxRows st page) eqn:Hb.
    + eexists [_]. split; [reflexivity|].
      apply log_last; [exact Hlim|].
      rewrite <- breaks_goes_on. congruence.
    + destruct (IH (advance (absorb st page) page)
                  (calls ++ [(page_call baseUrl sql pageSize maxRows timeout st,
                              Resolved page)]) w1) as (l & E & Hl).
      eexists (_ :: l). split.
      * rewrite E. now rewrite <- app_assoc.
      * apply log_more; [exact Hlim | now apply breaks_goes_on | exact Hl].
Qed.

(** ** What follows from the policy *)

Lemma min_with_remaining_le n :
  (min_with_remaining pageSize maxRows n <= pageSize)%Z.
Proof. unfold min_with_remaining. destruct maxRows; lia. Qed.


(** Every request carries the limit computed from the rows fetched
    before it; the limit is positive and at most [pageSize]. *)
Lemma page_log_limits st l fin :
  page_log baseUrl sql pageSize maxRows timeout st l fin ->
  forall l1 c o l2, l = l1 ++ (c, o) :: l2 ->
    c = page_call baseUrl sql pageSize maxRows timeout (state_after st l1)
    /\ (0 < call_limit c <= pageSize)%Z.
Proof.
  assert (Hle : forall n, (min_with_remaining pageSize maxRows n <= pageSize)%Z).
  { intros n. unfold min_with_remaining. destruct maxRows; lia. }
  induction 1 as [st H0|st H0|st e H0|st page H0 Hg|st page l fin H0 Hg Hl IH];
    intros l1 c o l2 E.
  - destruct l1; discriminate.
  - destruct l1; discriminate.
  - destruct l1 as [|x l1]; [|destruct l1; discriminate].
    injection E as <- <- <-. simpl. split; [reflexivity|]. split; [exact H0 | apply Hle].
  - destruct l1 as [|x l1]; [|destruct l1; discriminate].
    injection E as <- <- <-. simpl. split; [reflexivity|]. split; [exact H0 | apply Hle].
  - destruct l1 as [|x l1].
    + injection E as <- <- <-. simpl. split; [reflexivity|]. split; [exact H0 | apply Hle].
    + injection E as <- ->. simpl. now apply (IH l1 c o l2).
Qed.

(** A call that is followed by another one was answered with a page
    that meets the three conditions. *)
Lemma page_log_further st l fin :
  page_log baseUrl sql pageSize maxRows timeout st l fin ->
  forall l1 c o l2, l = l1 ++ (c, o) :: l2 -> l2 <> [] ->
    exists page, o = Resolved page /\ goes_on maxRows (state_after st l1) page.
Proof.
  induction 1 as [st H0|st H0|st e H0|st page H0 Hg|st page l fin H0 Hg Hl IH];
    intros l1 c o l2 E Hne.
  - destruct l1; discriminate.
  - destruct l1; discriminate.
  - destruct l1 as [|x l1]; [|destruct l1; discriminate].
    injection E as <- <- <-. congruence.
  - destruct l1 as [|x l1]; [|destruct l1; discriminate].
    injection E as <- <- <-. congruence.
  - destruct l1 as [|x l1].
    + injection E as <- <- <-. exists page. split; [reflexivity | exact Hg].
    + injection E as <- ->. simpl. now apply (IH l1 c o l2).
Qed.

(** When the loop is left with its variables, either no request was
    made, or the last call was answered with a page that fails one of
    the three conditions. *)
Lemma page_log_stop st l st' :
  page_log baseUrl sql pageSize maxRows timeout st l (Some (Resolved st')) ->
  (l = [] /\ st' = st
   /\ (min_with_remaining pageSize maxRows (len (allItems st)) <= 0)%Z)
  \/ exists l1 c page,
       l = l1 ++ [(c, Resolved page)]
       /\ ~ goes_on maxRows (state_after st l1) page
       /\ st' = absorb (state_after st l1) page.
Proof.
  remember (Some (Resolved st')) as fin eqn:Hfin.
  induction 1 as [st H0|st H0|st e H0|st page H0 Hg|st page l fin H0 Hg Hl IH].
  - injection Hfin as ->. left. tauto.
  - discriminate.
  - discriminate.
  - injection Hfin as <-. right. eexists [], _, page. simpl. eauto.
  - right. destruct (IH Hfin) as [(-> & -> & Hlim)|(l1 & c & p & -> & Hn & ->)].
    + exfalso. clear IH Hl. destruct Hg as (Hne & Hbelow & _).
      simpl in Hlim.
      unfold min_with_remaining, below in *.
      destruct maxRows as [m|]; lia.
    + eexists (_ :: l1), c, p. simpl. eauto.
Qed.

End Facts.

Section Query.
Context {W : Type} `{RT : Runtime W} {T : Type}.
Variable transport : PageTransport W T.
Variable baseUrl : string.

(** The recorded [query] against the plain one. *)
Lemma recorded_query fuel sql options calls w :
  exists l exit,
    query (recording transport) baseUrl fuel sql options (calls, w)
    = (fst (query transport baseUrl fuel sql options w),
       (calls ++ l, snd (query transport baseUrl fuel sql options w)))
    /\ page_log baseUrl sql (default 1000%Z (pageSize options))
         (default Infinity (maxRows options)) (timeout options)
         (initial_state options) l exit
    /\ fst (query transport baseUrl fuel sql options w)
       = match exit with
         | None => None
         | Some (Rejected e) => Some (Rejected e)
         | Some (Resolved st) =>
             Some (Resolved
                     (result_of st
                        (Math_round
                           (performance_now
                              (snd (query transport baseUrl fuel sql options w))
                            - performance_now w))))
         end.
Proof.
  unfold query.
  destruct (recorded_loop transport baseUrl sql (default 1000%Z (pageSize options))
              (default Infinity (maxRows options)) (timeout options) fuel
              (initial_state options) calls w) as (l & E & Hl).
  rewrite E.
  destruct (query_loop transport _ _ _ _ _ _ _ w) as [exit w'] eqn:Hq.
  simpl in *. exists l, exit. split; [|split; [exact Hl|]].
  - destruct exit as [[st|e]|]; reflexivity.
  - destruct exit as [[st|e]|]; reflexivity.
Qed.
End Query.
End SuiteQLFacts.

(* ================================================================== *)
(** * Facts about the backoff delay                                    *)
(* ================================================================== *)

Module BackoffFacts.
Import Retry Double.
Local Open Scope Q_scope.

Lemma OVERFLOW_large : 2 < OVERFLOW.
Proof. vm_compute. reflexivity. Qed.

(** An exact value within the range is that number. *)
Lemma of_Q_real (q : Q) :
  - OVERFLOW < q -> q < OVERFLOW -> of_Q q = Real q.
Proof.
  intros Hlo Hhi. unfold of_Q.
  destruct (Qle_bool OVERFLOW q) eqn:E1.
  { apply Qle_bool_iff in E1. lra. }
  destruct (Qle_bool q (- OVERFLOW)) eqn:E2.
  { apply Qle_bool_iff in E2. lra. }
  reflexivity.
Qed.

(** A value beyond the range is an infinity. *)
Lemma of_Q_overflow (q : Q) : OVERFLOW <= q -> of_Q q = PlusInfinity.
Proof.
  intros H. unfold of_Q. apply Qle_bool_iff in H. now rewrite H.
Qed.

Lemma times_infinity_positive (q : Q) : 0 < q -> times_infinity q = PlusInfinity.
Proof.
  intros H. unfold times_infinity.
  destruct (Qeq_bool q 0) eqn:E0.
  { apply Qeq_bool_iff in E0. lra. }
  destruct (Qle_bool 0 q) eqn:E1; [reflexivity|].
  assert (H1 : 0 <= q) by lra. apply Qle_bool_iff in H1. congruence.
Qed.

(** [Math.pow] of a non-negative number in range, for an exponent that
    is not negative: the exact power, or an infinity when that
    overflows. *)
Lemma pow_of_Q (b : Q) (k : Z) :
  0 <= b -> b < OVERFLOW -> (0 <= k)%Z ->
  pow (of_Q b) k = of_Q (b ^ k).
Proof.
  intros Hb Hr Hk. pose proof OVERFLOW_large as Hbig.
  rewrite of_Q_real by lra. unfold pow.
  destruct (k =? 0)%Z eqn:E0.
  - apply Z.eqb_eq in E0. subst k.
    symmetry. apply of_Q_real; cbn; lra.
  - assert (E1 : (k <? 0)%Z = false) by (apply Z.ltb_ge; lia).
    now rewrite E1.
Qed.

Section Delay.
Context {W : Type}.
Variable opts : RetryConfig W.
Variable k : Z.
Hypothesis initial_range : 0 <= initialDelay opts /\ initialDelay opts < OVERFLOW.
Hypothesis cap_range : 0 <= maxDelay opts /\ maxDelay opts < OVERFLOW.
Hypothesis factor_range : 0 <= backoffFactor opts /\ backoffFactor opts < OVERFLOW.
Hypothesis index : (0 <= k)%Z.
(** The product is not [0 * Infinity]. *)
Hypothesis defined :
  0 < initialDelay opts \/ backoffFactor opts ^ k < OVERFLOW.

(** The delay before jitter is a number between 0 and [maxDelay]: the
    exact [min(d0 * b^k, dmax)] as long as neither the power nor the
    product overflows, and [dmax] when one of them does. *)
Lemma backoffDelay_real :
  exists d,
    backoffDelay opts k = Real d
    /\ 0 <= d /\ d <= maxDelay opts
    /\ (backoffFactor opts ^ k < OVERFLOW ->
        initialDelay opts * backoffFactor opts ^ k < OVERFLOW ->
        d == Qmin (initialDelay opts * backoffFactor opts ^ k) (maxDelay opts))
    /\ (OVERFLOW <= backoffFactor opts ^ k
        \/ OVERFLOW <= initialDelay opts * backoffFactor opts ^ k ->
        d == maxDelay opts).
Proof.
  destruct initial_range as [Hi0 Hi1], cap_range as [Hc0 Hc1],
    factor_range as [Hf0 Hf1].
  pose proof OVERFLOW_large as Hbig.
  pose proof (Qpower_0_le (backoffFactor opts) k Hf0) as Hp.
  unfold backoffDelay.
  rewrite (pow_of_Q _ _ Hf0 Hf1 index).
  rewrite (of_Q_real (initialDelay opts)) by lra.
  rewrite (of_Q_real (maxDelay opts)) by lra.
  set (p := backoffFactor opts ^ k) in *.
  destruct (Qlt_le_dec p OVERFLOW) as [Hpr|Hpo].
  - rewrite (of_Q_real p) by lra. cbn [mul].
    assert (Hprod : 0 <= initialDelay opts * p) by nra.
    destruct (Qlt_le_dec (initialDelay opts * p) OVERFLOW) as [Hr|Ho].
    + rewrite (of_Q_real (initialDelay opts * p)) by lra. cbn [min].
      exists (Qmin (initialDelay opts * p) (maxDelay opts)).
      split; [reflexivity|].
      split; [apply Q.min_glb; assumption|].
      split; [apply Q.le_min_r|].
      split; [intros _ _; reflexivity|].
      intros [H|H]; lra.
    + rewrite (of_Q_overflow _ Ho). cbn [min].
      exists (maxDelay opts).
      split; [reflexivity|]. split; [exact Hc0|]. split; [lra|].
      split; [intros _ H; lra | intros _; reflexivity].
  - rewrite (of_Q_overflow _ Hpo). cbn [mul].
    destruct defined as [Hpos|Hfin]; [|lra].
    rewrite (times_infinity_positive _ Hpos). cbn [min].
    exists (maxDelay opts).
    split; [reflexivity|]. split; [exact Hc0|]. split; [lra|].
    split; [intros H; lra | intros _; reflexivity].
Qed.
End Delay.

(** The jitter as the source computes it is [d * 0.25 * (2r - 1)]; the
    sleep is the affine image [d * (0.75 + r / 2)] of the draw [r]. *)
Lemma jittered_real (d r : Q) :
  0 <= d -> d * (5 # 4) < OVERFLOW -> 0 <= r < 1 ->
  exists ms,
    add (Real d) (jitterOf (Real d) r) = Real ms
    /\ ms == d * (3 # 4) + d * (1 # 2) * r
    /\ is_real (jitterOf (Real d) r) (d * (1 # 4) * (r * 2 - 1)).
Proof.
  intros Hd Hcap [Hr0 Hr1]. pose proof OVERFLOW_large as Hbig.
  unfold jitterOf, sub, opposite.
  rewrite (of_Q_real r) by lra.
  cbn [mul add].
  rewrite (of_Q_real (d * (1 # 4))) by lra.
  rewrite (of_Q_real (r * 2)) by lra.
  cbn [add].
  rewrite (of_Q_real (r * 2 + Qopp 1)) by lra.
  cbn [mul].
  assert (Hj : - (d * (1 # 4)) <= d * (1 # 4) * (r * 2 + Qopp 1)
               /\ d * (1 # 4) * (r * 2 + Qopp 1) <= d * (1 # 4)) by (split; nra).
  rewrite (of_Q_real (d * (1 # 4) * (r * 2 + Qopp 1))) by lra.
  cbn [add].
  rewrite (of_Q_real (d + d * (1 # 4) * (r * 2 + Qopp 1))) by lra.
  eexists. split; [reflexivity|]. split; [|cbn [is_real]]; lra.
Qed.

End BackoffFacts.

(* ================================================================== *)
(** * Chains of middlewares of known shape                             *)
(* ================================================================== *)

Module OnionFacts.
Import MiddlewareChain Onion.

Section Layers.
Variable layers : list Layer.
Variable finalHandler : Async World ResponseContext.

(** The closure [next] called with [index = i]: the layers from [i]
    on are passed inward, the handler runs, and on success the same
    layers are passed outward. *)
Lemma next_onion fuel :
  forall i w,
    (length layers - i <= fuel)%nat -> (i <= length layers)%nat ->
    next (layer_middleware <$> layers) finalHandler fuel (i, w)
    = match finalHandler (inward (drop i layers) w) with
      | (Resolved r, w_h) =>
          (Resolved (outward_response (drop i layers) r),
           (length layers, outward (drop i layers) w_h))
      | (Rejected e, w_h) => (Rejected e, (length layers, w_h))
      end.
Proof.
  induction fuel as [|fuel IH]; intros i w Hf Hi.
  - assert (i = length layers) by lia. subst i.
    rewrite drop_all. cbn [next]. rewrite length_fmap, Nat.leb_refl.
    cbn. destruct (finalHandler w) as [[r|e] w_h]; reflexivity.
  - destruct (decide (i = length layers)) as [->|Hne].
    + rewrite drop_all. cbn [next]. rewrite length_fmap, Nat.leb_refl.
      cbn. destruct (finalHandler w) as [[r|e] w_h]; reflexivity.
    + cbn [next]. rewrite length_fmap.
      assert (Hlt : (length layers <=? i)%nat = false)
        by (apply Nat.leb_gt; lia).
      rewrite Hlt.
      destruct (lookup_lt_is_Some_2 layers i ltac:(lia)) as (l & Hl).
      rewrite list_lookup_fmap, Hl. cbn [fmap option_fmap option_map].
      rewrite (drop_S _ _ _ Hl).
      unfold layer_middleware at 1, around. cbn [run fst snd].
      rewrite (IH (S i)) by lia.
      cbn [inward fold_left].
      destruct (finalHandler _) as [[r|e] w_h]; reflexivity.
Qed.
End Layers.

(** What a middleware that never calls [next] does is independent of
    the closure it is handed. *)
Lemma run_terminal m (n1 n2 : Async ChainState ResponseContext) :
  terminal m -> forall st, run m n1 st = run m n2 st.
Proof.
  induction 1 as [r|e|tag k Hk IH|k Hk IH|f k Hk IH]; intros st; cbn [run];
    try reflexivity; apply IH.
Qed.

(** Such a middleware adds no signature and no network call to the
    trace. *)
Lemma run_terminal_trace m (nxt : Async ChainState ResponseContext) :
  terminal m ->
  forall st, exists l,
    trace (snd (snd (run m nxt st))) = trace (snd st) ++ l
    /\ HttpTransport.sends_of l = []
    /\ HttpTransport.signature_count l = 0%nat.
Proof.
  induction 1 as [r|e|tag k Hk IH|k Hk IH|f k Hk IH]; intros st; cbn [run].
  - exists []. now rewrite app_nil_r.
  - exists []. now rewrite app_nil_r.
  - destruct (IH (fst st, emit (EvEffect tag) (snd st))) as (l & Hl & Hs & Hc).
    exists (EvEffect tag :: l). cbn [snd] in Hl. rewrite Hl.
    unfold emit; cbn [trace]. rewrite <- app_assoc.
    repeat split; assumption.
  - apply IH.
  - destruct (IH (fst st, set_context (f (context (snd st))) (snd st)))
      as (l & Hl & Hs & Hc).
    exists l. cbn [snd] in Hl. rewrite Hl. repeat split; assumption.
Qed.

(** A chain headed by such a middleware: nothing but what that
    middleware does happens. *)
Lemma chain_terminal_trace m rest (finalHandler : Async World ResponseContext) w :
  terminal m ->
  exists l,
    trace (snd (executeMiddlewareChain (m :: rest) finalHandler w)) = trace w ++ l
    /\ HttpTransport.sends_of l = []
    /\ HttpTransport.signature_count l = 0%nat.
Proof.
  intros Hm. unfold executeMiddlewareChain. cbn [length next Nat.leb lookup].
  cbn [list_lookup].
  destruct (run_terminal_trace m (next (m :: rest) finalHandler (length rest))
              Hm (1%nat, w)) as (l & Hl & Hs & Hc).
  destruct (run m _ _) as [o [i w']]. cbn [snd] in *.
  now exists l.
Qed.

End OnionFacts.

(* ================================================================== *)
(** * More facts about the retry loop                                  *)
(* ================================================================== *)

Module MoreRetryFacts.
Import Retry Spy.

Section Facts.
Context {W : Type} `{RT : Runtime W} {T : Type}.
Implicit Types (l : list (Observation T)).

(** A run that enters the loop ends with the call that settles it. *)
Lemma run_log_last (fn : Async W T) opts a l res :
  run_log fn opts a l res ->
  (a <= maxRetries opts)%Z ->
  exists before,
    calls_of l = before ++ [res]
    /\ Forall (fun o => is_rejected o = true) before.
Proof.
  induction 1 as [a Ha|a v w Ha Hf|a e w w' Ha Hf Hs|a e w w' w'' l res Ha Hf Hs Hl IH];
    intros Hle.
  - lia.
  - exists []. split; [reflexivity | constructor].
  - exists []. split; [reflexivity | constructor].
  - destruct (IH ltac:(lia)) as (before & E & Hall).
    exists (Rejected e :: before). simpl. rewrite E.
    split; [reflexivity | constructor; [reflexivity | exact Hall]].
Qed.

(** One draw and one sleep between two consecutive calls, none after
    the last. *)
Lemma run_log_pauses (fn : Async W T) opts a l res :
  run_log fn opts a l res ->
  (a <= maxRetries opts)%Z ->
  (length (sleeps_of l) + 1 = length (calls_of l))%nat
  /\ length (draws_of l) = length (sleeps_of l).
Proof.
  induction 1 as [a Ha|a v w Ha Hf|a e w w' Ha Hf Hs|a e w w' w'' l res Ha Hf Hs Hl IH];
    intros Hle; simpl; lia.
Qed.

(** The last observation of such a run is a call. *)
Lemma run_log_ends_with_call (fn : Async W T) opts a l res :
  run_log fn opts a l res ->
  (a <= maxRetries opts)%Z ->
  exists before, l = before ++ [Called res].
Proof.
  induction 1 as [a Ha|a v w Ha Hf|a e w w' Ha Hf Hs|a e w w' w'' l res Ha Hf Hs Hl IH];
    intros Hle.
  - lia.
  - now exists [].
  - now exists [].
  - destruct (IH ltac:(lia)) as (before & ->).
    now eexists (_ :: _ :: _ :: before).
Qed.

(** No more draws than retries. *)
Lemma run_log_draws (fn : Async W T) opts a l res :
  run_log fn opts a l res ->
  (Z.of_nat (length (draws_of l)) <= Z.max 0 (maxRetries opts - a))%Z.
Proof.
  induction 1 as [a Ha|a v w Ha Hf|a e w w' Ha Hf Hs|a e w w' w'' l res Ha Hf Hs Hl IH];
    simpl; lia.
Qed.
End Facts.
End MoreRetryFacts.

(* ================================================================== *)
(** * More facts about the transport                                   *)
(* ================================================================== *)

Module MoreTransportFacts.
Import Retry MiddlewareChain HttpTransport Signing SigningFacts Network.

Lemma sends_of_app l1 l2 : sends_of (l1 ++ l2) = sends_of l1 ++ sends_of l2.
Proof. apply omap_app. Qed.

Lemma sleeps_in_app l1 l2 : sleeps_in (l1 ++ l2) = sleeps_in l1 ++ sleeps_in l2.
Proof. apply omap_app. Qed.

Lemma log_lines_silent l :
  Forall is_log l ->
  sends_of l = [] /\ sleeps_in l = [] /\ signature_count l = 0%nat.
Proof.
  induction 1 as [|e l He _ (IH1 & IH2 & IH3)]; [repeat split|].
  destruct e; try contradiction; repeat split; assumption.
Qed.

Section OnHost.
Variables (host : Host) (t : Transport).

(** What [executeRequest] settles to, read off the reply of the
    network. *)
Lemma executeRequest_settles timeout w :
  exists duration,
    fst (executeRequest host t timeout w)
    = match reply host t timeout w with
      | Resolved response =>
          if (400 <=? ar_status response)%Z
          then Rejected (ThrownNetSuite (error_of_response response (context w)))
          else Resolved
                 {| res_status := ar_status response;
                    res_headers := extractHeaders response;
                    res_body := if (ar_status response =? 204)%Z
                                then Js.VUndefined else ar_data response;
                    res_duration := duration |}
      | Rejected error =>
          Rejected (ThrownNetSuite (caught error timeout (context w)))
      end.
Proof.
  unfold executeRequest, reply.
  destruct (axios host _ _) as [response|error]; simpl.
  - eexists. destruct (400 <=? ar_status response)%Z; reflexivity.
  - exists 0%Z. reflexivity.
Qed.

(** What it adds to the trace, counted. *)
Lemma executeRequest_counts timeout w :
  let w' := snd (executeRequest host t timeout w) in
  sends_of (added w w') = [axios_config (context w) timeout]
  /\ sleeps_in (added w w') = []
  /\ signature_count (added w w') = 0%nat
  /\ context w' = context w
  /\ trace w' = trace w ++ added w w'.
Proof.
  intros w'. subst w'.
  destruct (TransportFacts.executeRequest_trace host t timeout w)
    as (pre & post & E & Hlog & Hc).
  rewrite (added_app _ _ _ E).
  apply Forall_app in Hlog as [Hpre Hpost].
  destruct (log_lines_silent _ Hpre) as (P1 & P2 & P3).
  destruct (log_lines_silent _ Hpost) as (Q1 & Q2 & Q3).
  rewrite !sends_of_app, !sleeps_in_app, !signature_count_app,
    P1, P2, P3, Q1, Q2, Q3.
  repeat split; try reflexivity; assumption.
Qed.

(** An attempt of a transport without middlewares: one signer call,
    then [executeRequest] on the fresh context. *)
Lemma attempt_without_middlewares url method options timeout w :
  middlewares t = [] ->
  let w2 := set_context
              (attempt_context t url method options
                 (oauth_header host (credentials t)
                    (signature_count (trace w)) url method))
              (emit (EvSign url method) w) in
  attempt host t url method options timeout w
  = (match fst (executeRequest host t timeout w2) with
     | Resolved r => Resolved (as_response r)
     | Rejected e => Rejected e
     end,
     snd (executeRequest host t timeout w2)).
Proof.
  intros Hnone w2. unfold attempt, sign. rewrite Hnone, ChainFacts.chain_nil.
  fold w2. destruct (executeRequest host t timeout w2) as [[r|e] w3]; reflexivity.
Qed.
End OnHost.

(** What the loop throws, the operation threw. *)
Lemma retry_loop_rejected {W} `{Runtime W} {T}
    (fn : Async W T) (opts : RetryConfig W) fuel :
  forall a w e w',
    (Z.to_nat (maxRetries opts - a + 1) <= fuel)%nat ->
    (a <= maxRetries opts)%Z ->
    retry_loop fn opts fuel a w = (Rejected e, w') ->
    exists w1 w2, fn w1 = (Rejected e, w2).
Proof.
  induction fuel as [|fuel IH]; intros a w e w' Hfuel Ha; [lia|].
  simpl. assert (Hle : (a <=? maxRetries opts)%Z = true) by (apply Z.leb_le; lia).
  rewrite Hle; simpl.
  destruct (fn w) as [[v|e1] w1] eqn:Hfn; [discriminate|].
  destruct (a =? maxRetries opts)%Z eqn:Hlast.
  { intros [= <- <-]. now exists w, w1. }
  apply Z.eqb_neq in Hlast.
  destruct (shouldRetry opts e1 a w1) as [[|] w2]; simpl.
  - destruct (Math_random _) as [r w4]. apply IH; lia.
  - intros [= <- <-]. now exists w, w1.
Qed.

Section NoMiddleware.
Variables (host : Host) (t : Transport).
Variables (url : string) (options : RequestOptions).
Hypothesis no_middleware : middlewares t = [].

Local Abbreviation timeout := (default (rc_timeout (config t)) (opt_timeout options)).

(** One attempt, counted: one signer call, one network call for the
    context of the attempt, no sleep. *)
Lemma attempt_counts w :
  let w' := snd (attempt host t url (method_of options) options timeout w) in
  let k := signature_count (trace w) in
  trace w' = trace w ++ added w w'
  /\ sends_of (added w w')
     = [axios_config (context_of_attempt host t url options k) timeout]
  /\ sleeps_in (added w w') = []
  /\ signature_count (added w w') = 1%nat.
Proof.
  intros w' k. subst w'.
  rewrite (attempt_without_middlewares host t url (method_of options) options
             timeout w no_middleware). cbn [snd].
  set (w2 := set_context _ (emit (EvSign url (method_of options)) w)).
  destruct (executeRequest_counts host t timeout w2)
    as (Hs & Hz & Hn & _ & Ht).
  assert (E : trace (snd (executeRequest host t timeout w2))
              = trace w ++ EvSign url (method_of options)
                          :: added w2 (snd (executeRequest host t timeout w2))).
  { rewrite Ht. subst w2. simpl. now rewrite <- app_assoc. }
  rewrite (added_app _ _ _ E).
  split; [exact E|].
  change (EvSign ?u ?m :: ?l) with ([EvSign u m] ++ l).
  rewrite sends_of_app, sleeps_in_app, signature_count_app, Hs, Hz, Hn.
  repeat split; reflexivity.
Qed.

(** What one attempt settles to, read off the reply of the network to
    its request. *)
Lemma attempt_settles w :
  let w2 := set_context
              (context_of_attempt host t url options (signature_count (trace w)))
              (emit (EvSign url (method_of options)) w) in
  exists duration,
    fst (attempt host t url (method_of options) options timeout w)
    = match reply host t timeout w2 with
      | Resolved response =>
          if (400 <=? ar_status response)%Z
          then Rejected (ThrownNetSuite
                           (error_of_response response (context w2)))
          else Resolved
                 (as_response
                    {| res_status := ar_status response;
                       res_headers := extractHeaders response;
                       res_body := if (ar_status response =? 204)%Z
                                   then Js.VUndefined else ar_data response;
                       res_duration := duration |})
      | Rejected error =>
          Rejected (ThrownNetSuite (caught error timeout (context w2)))
      end.
Proof.
  intros w2.
  rewrite (attempt_without_middlewares host t url (method_of options) options
             timeout w no_middleware). cbn [fst].
  fold (signature host t url options (signature_count (trace w))).
  fold (context_of_attempt host t url options (signature_count (trace w))).
  fold w2.
  destruct (executeRequest_settles host t timeout w2) as (duration & ->).
  exists duration.
  destruct (reply host t timeout w2) as [response|error]; [|reflexivity].
  destruct (400 <=? ar_status response)%Z; reflexivity.
Qed.
End NoMiddleware.

(** The fold of [extractHeaders] from an accumulator on. *)
Lemma fold_string_headers (entries : list (string * Js.Value)) :
  NoDup (fst <$> entries) ->
  forall (acc : Headers) key s,
    fold_left (fun (headers : Headers) '(key, value) =>
                 match value with
                 | Js.VString s => <[key := s]> headers
                 | _ => headers
                 end) entries acc !! key = Some s
    <-> In (key, Js.VString s) entries
        \/ (acc !! key = Some s
            /\ forall s', ~ In (key, Js.VString s') entries).
Proof.
  induction entries as [|[k v] r IH]; intros Hnd acc key s.
  - simpl. split; [intros H; right; split; [exact H | intros s' []]
                  | intros [[]|[H _]]; exact H].
  - apply NoDup_cons in Hnd as [Hk Hnd]. cbn [fold_left].
    assert (Hfresh : forall v', ~ In (k, v') r).
    { intros v' Hin. apply Hk. apply list_elem_of_fmap.
      exists (k, v'). split; [reflexivity | now apply list_elem_of_In]. }
    rewrite (IH Hnd). cbn [In].
    destruct (decide (key = k)) as [->|Hne].
    + destruct v as [| |b|q| |s0|fields|items];
        try (split; [intros [H|[H1 H2]]; [now apply Hfresh in H|];
                     right; split; [exact H1|]; intros s' [[=]|H]; now apply (H2 s')
                    |intros [[[=]|H]|[H1 H2]]; [now apply Hfresh in H|];
                     right; split; [exact H1|]; intros s' H; apply (H2 s'); now right]).
      rewrite lookup_insert_eq. split.
      * intros [H|[[= ->] _]]; [now apply Hfresh in H|]. left. now left.
      * intros [[[= ->]|H]|[_ H2]].
        -- right. split; [reflexivity|]. intros s' H. now apply Hfresh in H.
        -- now apply Hfresh in H.
        -- exfalso. apply (H2 s0). now left.
    + assert (Hacc : (match v with
                      | Js.VString s0 => <[k:=s0]> acc
                      | _ => acc
                      end) !! key = acc !! key).
      { destruct v; try reflexivity. now rewrite lookup_insert_ne. }
      rewrite Hacc. split.
      * intros [H|[H1 H2]]; [left; now right|].
        right. split; [exact H1|]. intros s' [[= E _]|H]; [now apply Hne|].
        now apply (H2 s').
      * intros [[[= E _]|H]|[H1 H2]]; [now destruct Hne | now left |].
        right. split; [exact H1|]. intros s' H. apply (H2 s'). now right.
Qed.

(** An error made from a transient failure is retryable. *)
Lemma transient_error_retryable (host : Host) (t : Transport) timeout w :
  always_transient host ->
  exists e,
    fst (executeRequest host t timeout w) = Rejected (ThrownNetSuite e)
    /\ isRetryable e = true.
Proof.
  intros Htr.
  destruct (executeRequest_settles host t timeout w) as (duration & ->).
  unfold reply. specialize (Htr (trace (log_event t
              (EvDebug (ctx_method (context w)) (ctx_url (context w))
                 (fst <$> map_to_list (ctx_headers (context w)))) w))
              (axios_config (context w) timeout)).
  destruct (axios host _ _) as [response|[e|code msg]].
  - assert (H4 : (400 <=? ar_status response)%Z = true) by (apply Z.leb_le; lia).
    rewrite H4. eexists. split; [reflexivity|].
    unfold isRetryable, error_of_response; simpl.
    assert (H5 : (500 <=? ar_status response)%Z = true) by (apply Z.leb_le; lia).
    now rewrite H5.
  - exists e. split; [reflexivity | exact Htr].
  - eexists. split; [reflexivity|]. simpl.
    destruct (timed_out code); reflexivity.
Qed.

End MoreTransportFacts.

(* ================================================================== *)
(** * Whole runs of [request] without middleware                       *)
(* ================================================================== *)

Module RequestFacts.
Import Retry MiddlewareChain HttpTransport Signing Network.
Import SigningFacts TransportFacts MoreTransportFacts.

(** The optional logger adds at most the line it is given. *)
Lemma log_event_trace (t : Transport) e w :
  context (log_event t e w) = context w
  /\ exists l, trace (log_event t e w) = trace w ++ l /\ (l = [] \/ l = [e]).
Proof.
  unfold log_event. destruct (rc_logger (config t)).
  - split; [reflexivity|]. exists [e]. split; [apply emit_trace | now right].
  - split; [reflexivity|]. exists []. split; [now rewrite app_nil_r | now left].
Qed.

Section Loops.
Variables (host : Host) (t : Transport).
Variables (url : string) (options : RequestOptions).
Hypothesis no_middleware : middlewares t = [].

Local Abbreviation timeout :=
  (default (rc_timeout (config t)) (opt_timeout options)).
Local Abbreviation N := (retries_of t options).
Local Abbreviation fn :=
  (attempt host t url (method_of options) options timeout).
Local Abbreviation opts :=
  (merge DEFAULT_RETRY_CONFIG (retry_config t url (method_of options) N)).

(** The pause before a retry: an optional warning, the draw of the
    jitter, the sleep. *)
Lemma pause_trace e a w :
  let w5 := setTimeout (Runtime := host_runtime host)
              (Double.add (backoffDelay opts a)
                 (jitterOf (backoffDelay opts a)
                    (fst (Math_random (Runtime := host_runtime host)
                            (log_event t (EvWarn (a + 1) N url (method_of options) e) w)))))
              (snd (Math_random (Runtime := host_runtime host)
                      (log_event t (EvWarn (a + 1) N url (method_of options) e) w))) in
  exists l,
    trace w5 = trace w ++ l
    /\ signature_count l = 0%nat /\ sends_of l = []
    /\ length (sleeps_in l) = 1%nat.
Proof.
  intros w5. subst w5.
  destruct (log_event_trace t (EvWarn (a + 1) N url (method_of options) e) w)
    as (_ & l & Hl & Hcase).
  cbn [setTimeout Math_random host_runtime fst snd].
  rewrite !emit_trace, Hl.
  eexists. split; [rewrite <- !app_assoc; reflexivity|].
  destruct Hcase as [-> | ->]; repeat split; reflexivity.
Qed.

(** When every request fails transiently, the loop uses every attempt
    it has left. *)
Lemma transient_loop :
  always_transient host ->
  forall fuel a w,
    (0 <= a <= N)%Z -> (Z.to_nat (N - a + 1) <= fuel)%nat ->
    let r := retry_loop (H := host_runtime host) fn opts fuel a w in
    trace (snd r) = trace w ++ added w (snd r)
    /\ signature_count (added w (snd r)) = Z.to_nat (N - a + 1)
    /\ length (sends_of (added w (snd r))) = Z.to_nat (N - a + 1)
    /\ length (sleeps_in (added w (snd r))) = Z.to_nat (N - a)
    /\ exists e, fst r = Rejected (ThrownNetSuite e) /\ isRetryable e = true.
Proof.
  intros Htr. induction fuel as [|fuel IH]; intros a w Ha Hf; [lia|].
  cbn [retry_loop].
  change (maxRetries opts) with N.
  assert (Hle : (a <=? N)%Z = true) by (apply Z.leb_le; lia).
  rewrite Hle. cbn [negb].
  destruct (attempt_counts host t url options no_middleware w)
    as (Ht & Hs & Hz & Hn).
  assert (He : exists e, fst (fn w) = Rejected (ThrownNetSuite e)
                         /\ isRetryable e = true).
  { rewrite (attempt_without_middlewares host t url (method_of options) options
               timeout w no_middleware). cbn [fst].
    match goal with |- context [executeRequest host t ?to ?w2] =>
      destruct (transient_error_retryable host t to w2 Htr) as (e & -> & Hr)
    end.
    now exists e. }
  destruct He as (e & He & Hr).
  destruct (fn w) as [o w1] eqn:E. cbn [fst snd] in *. subst o.
  destruct (a =? N)%Z eqn:Ea.
  - apply Z.eqb_eq in Ea. cbn [fst snd].
    replace (Z.to_nat (N - a + 1)) with 1%nat by lia.
    replace (Z.to_nat (N - a)) with 0%nat by lia.
    rewrite Hs, Hz. repeat split; try assumption; try reflexivity.
    now exists e.
  - apply Z.eqb_neq in Ea.
    change (shouldRetry opts) with (@transport_shouldRetry World).
    cbn [transport_shouldRetry]. rewrite Hr. cbn [negb].
    change (onRetry opts)
      with (Some (fun error attempt w =>
                    log_event t (EvWarn attempt N url (method_of options) error) w)).
    pose proof (pause_trace (ThrownNetSuite e) a w1) as Hp. cbv zeta in Hp.
    revert Hp.
    destruct (Math_random _) as [r w4]. cbn [fst snd].
    intros (l & Hl & Hls & Hlz & Hlp).
    set (w5 := setTimeout _ w4) in *.
    destruct (IH (a + 1)%Z w5 ltac:(lia) ltac:(lia))
      as (Ht' & Hn' & Hs' & Hz' & e' & He' & Hr').
    set (w' := snd (retry_loop fn opts fuel (a + 1) w5)) in *.
    assert (Htrace : trace w' = trace w ++ (added w w1 ++ l ++ added w5 w')).
    { rewrite Ht', Hl, Ht. now rewrite <- !app_assoc. }
    rewrite (added_app _ _ _ Htrace).
    split; [exact Htrace|].
    rewrite !signature_count_app, !sends_of_app, !sleeps_in_app, !length_app.
    rewrite Hn, Hls, Hn', Hs, Hlz, Hs', Hz, Hlp, Hz'. cbn [length].
    repeat split; try lia.
    now exists e'.
Qed.
End Loops.

(** [request] stops at the first attempt when that attempt was final. *)
Lemma final_attempt_ends_run (host : Host) (t : Transport) url options w :
  (0 <= retries_of t options)%Z ->
  final (fst (attempt host t url (method_of options) options
                (default (rc_timeout (config t)) (opt_timeout options)) w)) = true ->
  request host t url options w
  = attempt host t url (method_of options) options
      (default (rc_timeout (config t)) (opt_timeout options)) w.
Proof.
  intros HN Hfinal. unfold request, withRetry.
  change (maxRetries (merge DEFAULT_RETRY_CONFIG
                        (retry_config t url (method_of options) (retries_of t options))))
    with (retries_of t options).
  destruct (Z.to_nat (retries_of t options + 1)) as [|fuel] eqn:Hfuel; [lia|].
  cbn [retry_loop].
  change (maxRetries (merge DEFAULT_RETRY_CONFIG
                        (retry_config t url (method_of options) (retries_of t options))))
    with (retries_of t options).
  assert (Hle : (0 <=? retries_of t options)%Z = true) by (apply Z.leb_le; lia).
  rewrite Hle. cbn [negb].
  destruct (attempt host t url (method_of options) options _ w)
    as [[v|[e|c m]] w1]; cbn [fst final] in Hfinal; try reflexivity;
    [|discriminate].
  destruct (0 =? retries_of t options)%Z; [reflexivity|].
  change (shouldRetry _) with (@transport_shouldRetry World).
  cbn [transport_shouldRetry].
  apply negb_true_iff in Hfinal. now rewrite Hfinal.
Qed.

(** Without middleware every error that leaves an attempt is a
    [NetSuiteError]; unless axios threw it itself, it is for the url and
    method of the call. *)
Lemma attempt_rejects_with_NetSuiteError (host : Host) (t : Transport)
    url options w thrown :
  middlewares t = [] ->
  fst (attempt host t url (method_of options) options
         (default (rc_timeout (config t)) (opt_timeout options)) w)
  = Rejected thrown ->
  exists e, thrown = ThrownNetSuite e
            /\ (plain_failures host ->
                requestUrl e = Some url
                /\ requestMethod e = Some (method_of options)).
Proof.
  intros Hnil Hrej.
  destruct (attempt_settles host t url options Hnil w) as (duration & E).
  cbv zeta in E. rewrite E in Hrej. clear E.
  unfold reply in Hrej.
  set (ax := axios host _ _) in *.
  destruct ax as [response|[e|c m]] eqn:Hax.
  - destruct (400 <=? ar_status response)%Z; [|discriminate].
    injection Hrej as <-. eexists. split; [reflexivity|].
    intros _. split; reflexivity.
  - injection Hrej as <-. exists e. split; [reflexivity|].
    intros Hplain. exfalso. subst ax. exact (Hplain _ _ _ Hax).
  - injection Hrej as <-. eexists. split; [reflexivity|].
    intros _. cbn [caught]. destruct (timed_out c); split; reflexivity.
Qed.

(** With a first middleware that never calls [next], no attempt of a
    run reaches the network. *)
Lemma short_circuit_run (host : Host) (t : Transport) m rest url options w :
  middlewares t = m :: rest ->
  Onion.terminal m ->
  exists l,
    trace (snd (request host t url options w)) = trace w ++ l
    /\ sends_of l = [].
Proof.
  intros Hms Hm. unfold request, withRetry.
  pose (P := fun w' : World => exists l, trace w' = trace w ++ l /\ sends_of l = []).
  assert (Pemit : forall e w', sends_of [e] = [] -> P w' -> P (emit e w')).
  { intros e w' He (l & Hl & Hs). exists (l ++ [e]).
    rewrite emit_trace, Hl, <- app_assoc, sends_of_app, Hs, He.
    split; reflexivity. }
  apply (RetryFacts.retry_loop_invariant (H := host_runtime host) P).
  - intros w' Hw'. unfold attempt, sign. rewrite Hms.
    match goal with |- context [executeMiddlewareChain _ ?h ?w2] =>
      destruct (OnionFacts.chain_terminal_trace m rest h w2 Hm) as (l & Hl & Hs & _);
      assert (Hw2 : P w2) by (apply (Pemit (EvSign url (method_of options)) w' eq_refl Hw'));
      destruct (executeMiddlewareChain (m :: rest) h w2) as [[r|e] w3]
    end; cbn [snd] in *;
      destruct Hw2 as (l2 & Hl2 & Hs2); exists (l2 ++ l);
      (split; [rewrite Hl; cbn [set_context trace] in *; rewrite Hl2;
               now rewrite <- app_assoc
              | now rewrite sends_of_app, Hs2, Hs]).
  - intros e k w' Hw'. destruct e; exact Hw'.
  - intros e k w' Hw'. cbn. unfold log_event.
    destruct (rc_logger (config t)); [|exact Hw'].
    now apply Pemit.
  - intros w' Hw'. cbn. now apply Pemit.
  - intros ms w' Hw'. cbn. now apply Pemit.
  - exists []. now rewrite app_nil_r.
Qed.

End RequestFacts.

(* ================================================================== *)
(** * More about paginated runs                                        *)
(* ================================================================== *)

Module PagesFacts.
Import SuiteQL Pages SuiteQLFacts.

Section Views.
Context {T : Type}.
Implicit Types (st : LoopState T) (page : SuiteQLRawResponse T).
Implicit Types (l : list (PageCall * Outcome (SuiteQLRawResponse T))).

Lemma len_app (a b : list T) : len (a ++ b) = (len a + len b)%Z.
Proof. unfold len. rewrite length_app. lia. Qed.

Lemma len_pos (a : list T) : a <> [] -> (0 < len a)%Z.
Proof. unfold len. destruct a; [congruence | simpl; lia]. Qed.

(** The loop variables after the calls [l], in closed form. *)
Lemma state_after_closed l :
  forall st,
    allItems (state_after st l) = allItems st ++ rows_of l
    /\ currentOffset (state_after st l) = (currentOffset st + len (rows_of l))%Z
    /\ st_pagesFetched (state_after st l)
       = (st_pagesFetched st + Z.of_nat (length (pages_of l)))%Z.
Proof.
  induction l as [|[c [page|e]] l IH]; intros st; cbn [state_after].
  - change (rows_of (T := T) []) with (@nil T).
    change (pages_of (T := T) []) with (@nil (SuiteQLRawResponse T)).
    rewrite app_nil_r. unfold len. cbn [length]. repeat split; lia.
  - destruct (IH (advance (absorb st page) page)) as (H1 & H2 & H3).
    rewrite H1, H2, H3.
    change (rows_of ((c, Resolved page) :: l)) with (raw_items page ++ rows_of l).
    change (pages_of ((c, Resolved page) :: l)) with (page :: pages_of l).
    cbn [allItems currentOffset st_pagesFetched advance absorb length].
    rewrite len_app.
    repeat split; [now rewrite <- app_assoc | lia | lia].
  - destruct (IH st) as (H1 & H2 & H3).
    rewrite H1, H2, H3. repeat split.
Qed.
End Views.

Section Policy.
Context {T : Type}.
Variables (baseUrl sql : string) (pageSize : Z) (maxRows : Bound)
          (timeout : option Z).
Implicit Types (st : LoopState T) (page : SuiteQLRawResponse T).
Implicit Types (l : list (PageCall * Outcome (SuiteQLRawResponse T))).

(** A run that returns: every call was answered, the rows are those
    of the pages, each page counted, the total that of the last
    page. *)
Lemma page_log_returns st l st' :
  page_log baseUrl sql pageSize maxRows timeout st l (Some (Resolved st')) ->
  Forall answered l
  /\ allItems st' = allItems st ++ rows_of l
  /\ st_pagesFetched st' = (st_pagesFetched st + Z.of_nat (length l))%Z
  /\ st_totalResults st'
     = match last (pages_of l) with
       | Some page => raw_totalResults page
       | None => st_totalResults st
       end.
Proof.
  remember (Some (Resolved st')) as fin eqn:Hfin.
  induction 1 as [st H0|st H0|st e H0|st page H0 Hg|st page l fin H0 Hg Hl IH].
  - injection Hfin as ->. unfold rows_of; simpl. rewrite app_nil_r.
    repeat split; [constructor | lia].
  - discriminate.
  - discriminate.
  - injection Hfin as <-. unfold rows_of; cbn. rewrite app_nil_r.
    repeat split. repeat constructor.
  - destruct (IH Hfin) as (Ha & Hi & Hp & Ht).
    split; [constructor; [reflexivity | exact Ha]|].
    rewrite Hi, Hp, Ht.
    change (rows_of ((page_call baseUrl sql pageSize maxRows timeout st,
                      Resolved page) :: l)) with (raw_items page ++ rows_of l).
    change (pages_of ((page_call baseUrl sql pageSize maxRows timeout st,
                       Resolved page) :: l)) with (page :: pages_of l).
    cbn [allItems absorb advance st_pagesFetched st_totalResults length].
    split; [now rewrite <- app_assoc|]. split; [lia|].
    destruct (pages_of l) as [|p ps]; [reflexivity|].
    rewrite last_cons_cons.
    destruct (last (p :: ps)) eqn:E; [reflexivity|].
    now apply last_None in E.
Qed.

(** A run that throws: the last call was rejected with that error,
    the ones before were answered. *)
Lemma page_log_throws st l e :
  page_log baseUrl sql pageSize maxRows timeout st l (Some (Rejected e)) ->
  exists before c, l = before ++ [(c, Rejected e)] /\ Forall answered before.
Proof.
  remember (Some (Rejected e)) as fin eqn:Hfin.
  induction 1 as [st H0|st H0|st e' H0|st page H0 Hg|st page l fin H0 Hg Hl IH];
    try discriminate.
  - injection Hfin as ->. eexists [], _. split; [reflexivity | constructor].
  - destruct (IH Hfin) as (before & c & -> & Ha).
    eexists (_ :: before), c. split; [reflexivity|].
    constructor; [reflexivity | exact Ha].
Qed.

(** A rejected call is the last call of its run, and ends it. *)
Lemma page_log_rejection_is_last st l fin :
  page_log baseUrl sql pageSize maxRows timeout st l fin ->
  forall before c e later, l = before ++ (c, Rejected e) :: later ->
    later = [] /\ fin = Some (Rejected e).
Proof.
  induction 1 as [st H0|st H0|st e' H0|st page H0 Hg|st page l fin H0 Hg Hl IH];
    intros before c e later E.
  - destruct before; discriminate.
  - destruct before; discriminate.
  - destruct before as [|x before]; [|destruct before; discriminate].
    injection E as <- <- <-. split; reflexivity.
  - destruct before as [|x before]; [discriminate | destruct before; discriminate].
  - destruct before as [|x before]; [discriminate|].
    injection E as <- E. exact (IH _ _ _ _ E).
Qed.

(** With [maxRows = m] a run makes at most as many calls as rows are
    still allowed. *)
Lemma page_log_length m st l fin :
  maxRows = Finite m ->
  page_log baseUrl sql pageSize maxRows timeout st l fin ->
  (Z.of_nat (length l) <= Z.max 0 (m - len (allItems st)))%Z.
Proof.
  intros Hm.
  induction 1 as [st H0|st H0|st e' H0|st page H0 Hg|st page l fin H0 Hg Hl IH];
    cbn [length]; try lia;
    rewrite Hm in H0; unfold min_with_remaining in H0; try lia.
  destruct Hg as (Hne & _ & _). apply len_pos in Hne.
  cbn [allItems advance absorb] in IH. rewrite len_app in IH. lia.
Qed.
End Policy.

Section Loop.
Context {W : Type} `{RT : Runtime W} {T : Type}.
Variable transport : PageTransport W T.
Variables (baseUrl sql : string) (pageSize : Z) (maxRows : Bound)
          (timeout : option Z).

(** With [maxRows = m], fuel for the rows still allowed is enough for
    the loop to be left. *)
Lemma query_loop_terminates m fuel :
  maxRows = Finite m ->
  forall st w,
    (Z.to_nat (m - len (allItems st)) <= fuel)%nat ->
    fst (query_loop transport baseUrl sql pageSize maxRows timeout fuel st w)
    <> None.
Proof.
  intros Hm. induction fuel as [|fuel IH]; intros st w Hf; cbn [query_loop];
    unfold effectiveLimit;
    destruct (min_with_remaining pageSize maxRows (len (allItems st)) <=? 0)%Z
      eqn:Hlim; try (cbn; discriminate).
  - apply Z.leb_gt in Hlim. rewrite Hm in Hlim. unfold min_with_remaining in Hlim.
    lia.
  - apply Z.leb_gt in Hlim. rewrite Hm in Hlim. unfold min_with_remaining in Hlim.
    destruct (transport _ w) as [[page|e] w1]; [|cbn; discriminate].
    destruct (breaks maxRows st page) eqn:Hb; [cbn; discriminate|].
    apply IH. cbn [allItems advance absorb]. rewrite len_app.
    apply (breaks_goes_on maxRows) in Hb. destruct Hb as (Hne & _ & _).
    apply len_pos in Hne. lia.
Qed.

(** Against a server that honours the limit, the rows stay within
    [maxRows = m]. *)
Lemma query_loop_within_maxRows m fuel :
  maxRows = Finite m ->
  honours_limit transport ->
  forall st w st',
    (len (allItems st) <= Z.max 0 m)%Z ->
    fst (query_loop transport baseUrl sql pageSize maxRows timeout fuel st w)
    = Some (Resolved st') ->
    (len (allItems st') <= Z.max 0 m)%Z.
Proof.
  intros Hm Hsrv. induction fuel as [|fuel IH]; intros st w st' Hst;
    cbn [query_loop]; unfold effectiveLimit;
    destruct (min_with_remaining pageSize maxRows (len (allItems st)) <=? 0)%Z
      eqn:Hlim; cbn [fst]; try discriminate;
    try (intros [= <-]; exact Hst).
  apply Z.leb_gt in Hlim.
  pose proof (Hsrv (page_call baseUrl sql pageSize maxRows timeout st) w Hlim)
    as Hpage.
  destruct (transport _ w) as [[page|e] w1]; [|cbn; discriminate].
  cbn [fst] in Hpage. cbn [call_limit page_call] in Hpage.
  unfold effectiveLimit in Hpage.
  assert (Hnew : (len (allItems (absorb st page)) <= Z.max 0 m)%Z).
  { cbn [allItems absorb]. rewrite len_app.
    rewrite Hm in Hpage, Hlim. unfold min_with_remaining in Hpage, Hlim. lia. }
  destruct (breaks maxRows st page).
  - cbn. intros [= <-]. exact Hnew.
  - apply IH. exact Hnew.
Qed.
End Loop.

Section Generator.
Context {W : Type} `{RT : Runtime W} {T : Type}.
Variable transport : PageTransport W T.
Variables (baseUrl sql : string) (options : SuiteQLOptions).

Local Abbreviation loop :=
  (query_loop transport baseUrl sql (page_size options) (max_rows options)
     (timeout options)).
Local Abbreviation gather := (collect transport baseUrl sql options).

(** The loop of [query] and the consumer of [queryPages], started
    with the same counters: the same pages, the same world. *)
Lemma collect_matches_loop fuel :
  forall (st : LoopState T) w,
    match loop fuel st w with
    | (Some (Resolved st'), w') =>
        exists pages,
          gather (S fuel) (Ready (currentOffset st) (len (allItems st))) w
          = (Some (Resolved pages), w')
          /\ allItems st' = allItems st ++ concat pages
          /\ Forall (fun page => page <> []) pages
    | (Some (Rejected e), w') =>
        gather (S fuel) (Ready (currentOffset st) (len (allItems st))) w
        = (Some (Rejected e), w')
    | (None, _) => True
    end.
Proof.
  induction fuel as [|fuel IH]; intros st w.
  - cbn [query_loop collect pull]. unfold body, effectiveLimit.
    destruct (min_with_remaining _ _ _ <=? 0)%Z; [|exact I].
    exists []. rewrite app_nil_r. repeat split. constructor.
  - cbn [query_loop]. unfold effectiveLimit.
    change (collect transport baseUrl sql options (S (S fuel))
              (Ready (currentOffset st) (len (allItems st))) w)
      with (match body transport baseUrl sql options
                    (currentOffset st) (len (allItems st)) w with
            | (Rejected e, _, w1) => (Some (Rejected e), w1)
            | (Resolved None, _, w1) => (Some (Resolved []), w1)
            | (Resolved (Some page), g1, w1) =>
                match gather (S fuel) g1 w1 with
                | (Some (Resolved pages), w2) =>
                    (Some (Resolved (page :: pages)), w2)
                | other => other
                end
            end).
    unfold body.
    change (pages_call baseUrl sql options (currentOffset st) (len (allItems st)))
      with (page_call baseUrl sql (page_size options) (max_rows options)
              (timeout options) st).
    destruct (min_with_remaining _ _ _ <=? 0)%Z.
    { exists []. rewrite app_nil_r. repeat split. constructor. }
    destruct (transport _ w) as [[page|e] w1]; [|reflexivity].
    unfold breaks, more_pages. cbn [allItems absorb].
    rewrite len_app.
    destruct (len (raw_items page) =? 0)%Z eqn:Hempty.
    { rewrite orb_true_r.
      exists []. split; [reflexivity|]. split; [|constructor].
      cbn [allItems absorb concat]. f_equal.
      apply Z.eqb_eq in Hempty. unfold len in Hempty.
      destruct (raw_items page); [reflexivity | simpl in Hempty; lia]. }
    rewrite orb_false_r.
    assert (Hne : raw_items page <> []).
    { intros E. rewrite E in Hempty. discriminate. }
    cbn [collect pull].
    destruct (negb _ || reached _ _) eqn:Hstop.
    + exists [raw_items page]. cbn [concat]. rewrite app_nil_r.
      repeat split. constructor; [exact Hne | constructor].
    + specialize (IH (advance (absorb st page) page) w1).
      cbn [allItems currentOffset advance absorb] in IH.
      rewrite len_app in IH.
      destruct (loop fuel (advance (absorb st page) page) w1)
        as [[[st'|e]|] w'].
      * destruct IH as (pages & E & Hi & Hall).
        exists (raw_items page :: pages).
        cbn [collect pull] in E. rewrite E.
        split; [reflexivity|]. split.
        -- rewrite Hi. cbn [concat]. now rewrite <- app_assoc.
        -- constructor; assumption.
      * cbn [collect pull] in IH. now rewrite IH.
      * exact I.
Qed.
End Generator.

Section One.
Context {W : Type} `{RT : Runtime W} {T : Type}.
Variable transport : PageTransport W T.
Variables (baseUrl sql : string) (options : SuiteQLOptions).

(** [queryOne] without its loop. *)
Lemma queryOne_unfolded fuel w :
  (1 <= fuel)%nat ->
  queryOne transport baseUrl fuel sql options w
  = if (default 1000%Z (pageSize options) <=? 0)%Z
    then (Some (Resolved None), w)
    else
      match transport (first_row_call baseUrl sql options) w with
      | (Resolved page, w1) => (Some (Resolved (head (raw_items page))), w1)
      | (Rejected e, w1) => (Some (Rejected e), w1)
      end.
Proof.
  intros Hfuel. destruct fuel as [|fuel]; [lia|].
  unfold queryOne, query.
  change (default Infinity (maxRows (with_maxRows_1 options))) with (Finite 1).
  change (default 1000%Z (pageSize (with_maxRows_1 options)))
    with (default 1000%Z (pageSize options)).
  change (timeout (with_maxRows_1 options)) with (timeout options).
  change (initial_state (with_maxRows_1 options))
    with (mkLoopState (@nil T) (default 0%Z (offset options)) 0 0).
  cbn [query_loop]. unfold effectiveLimit.
  cbn [allItems min_with_remaining].
  change (len (@nil T)) with 0%Z. change (1 - 0)%Z with 1%Z.
  destruct (default 1000%Z (pageSize options) <=? 0)%Z eqn:Hps.
  - assert (E : (Z.min (default 1000%Z (pageSize options)) 1 <=? 0)%Z = true)
      by (apply Z.leb_le; apply Z.leb_le in Hps; lia).
    rewrite E. reflexivity.
  - assert (E : (Z.min (default 1000%Z (pageSize options)) 1 <=? 0)%Z = false)
      by (apply Z.leb_gt; apply Z.leb_gt in Hps; lia).
    rewrite E.
    assert (Hcall : page_call baseUrl sql (default 1000%Z (pageSize options))
                      (Finite 1) (timeout options)
                      (mkLoopState (@nil T) (default 0%Z (offset options)) 0 0)
                    = first_row_call baseUrl sql options).
    { unfold page_call, first_row_call, effectiveLimit.
      cbn [allItems min_with_remaining currentOffset].
      change (len (@nil T)) with 0%Z. f_equal.
      apply Z.leb_gt in Hps. lia. }
    rewrite Hcall.
    destruct (transport _ w) as [[page|e] w1]; [|reflexivity].
    assert (Hb : breaks (Finite 1)
                   (mkLoopState (@nil T) (default 0%Z (offset options)) 0 0) page
                 = true).
    { unfold breaks. cbn [allItems absorb app reached].
      unfold len. destruct (raw_items page) as [|x r]; cbn [length].
      - now rewrite orb_true_r.
      - assert (E1 : (1 <=? Z.of_nat (S (length r)))%Z = true)
          by (apply Z.leb_le; lia).
        rewrite E1. now rewrite orb_true_r. }
    rewrite Hb. reflexivity.
Qed.
End One.

End PagesFacts.

(* ================================================================== *)
(** * What the clients put on the wire                                 *)
(* ================================================================== *)

Module ClientsFacts.
Import MiddlewareChain HttpTransport Signing Clients.

(** A property that every acceptable request has holds of every
    request in a well-signed trace. *)
Lemma well_signed_sends url method (ok : nat -> AxiosRequestConfig -> Prop)
    (P : AxiosRequestConfig -> Prop) :
  (forall k c, ok k c -> P c) ->
  forall l s, well_signed url method ok s l -> Forall P (sends_of l).
Proof.
  intros Himp. induction l as [|e l IH]; intros s Hl; [constructor|].
  destruct Hl as [He Hl]. specialize (IH _ Hl).
  destruct e; cbn; try exact IH.
  destruct He as (k & _ & Hok). constructor; [now apply (Himp k) | exact IH].
Qed.

(** Behind middlewares that keep url, method and body, every request of
    a call is for the url and method of the call and carries its
    data. *)
Lemma request_wire (host : Host) (t : Transport) url options w :
  Forall keeps_request (middlewares t) ->
  Forall (on_wire url (method_of options) (data_of options))
    (sends_of (added w (snd (request host t url options w)))).
Proof.
  intros Hkeep.
  pose proof (TransportFacts.request_well_signed host t url options
                (string * HttpMethod * Js.Value)
                (fun c => (ctx_url c, ctx_method c, ctx_body c))
                (fun a req =>
                   ax_url req = fst (fst a)
                   /\ ax_method req = snd (fst a)
                   /\ ax_data req = if Js.truthy (snd a) && carries_body (snd (fst a))
                                    then snd a else Js.VUndefined)
                ltac:(intros; repeat split) Hkeep w) as Hrun.
  unfold run_well_signed in Hrun.
  eapply well_signed_sends; [|exact Hrun].
  intros k c Hok. exact Hok.
Qed.

End ClientsFacts.

(* ================================================================== *)
(** * Facts about [validateConfig]                                     *)
(* ================================================================== *)

Module ValidationFacts.
Import Validation.

Lemma not_a_string_false v : not_a_string v = false <-> nonempty_string v.
Proof.
  unfold not_a_string, nonempty_string.
  destruct v as [| |b|q| |s|fields|items]; cbn;
    try (split; [discriminate | intros (s' & [=] & _)]);
    try (rewrite orb_true_r; split; [discriminate | intros (s' & [=] & _)]).
  rewrite orb_false_r, negb_false_iff, negb_true_iff. split.
  - intros Hs. exists s. split; [reflexivity|].
    intros ->. discriminate.
  - intros (s' & [= <-] & Hne). now apply String.eqb_neq.
Qed.

Lemma not_an_object_false v :
  not_an_object v = false <-> (exists fields, v = Js.VObject fields)
                              \/ (exists items, v = Js.VArray items).
Proof.
  unfold not_an_object.
  destruct v as [| |b|q| |s|fields|items]; cbn;
    try (split; [discriminate | intros [(x & [=])|(x & [=])]]);
    try (rewrite orb_true_r; split; [discriminate | intros [(x & [=])|(x & [=])]]).
  - split; [intros _; left; now exists fields | reflexivity].
  - split; [intros _; right; now exists items | reflexivity].
Qed.

(** The errors, from the outcome of the eight checks. *)
Lemma validateConfig_report config :
  validateConfig config
  = report (not_an_object config) (not_an_object (Js.get config "auth"))
      ((fun field => not_a_string (Js.get (Js.get config "auth") field))
         <$> requiredFields)
      (not_a_string (Js.get config "accountId")).
Proof. reflexivity. Qed.

Lemma flat_map_nil {A B} (g : A -> list B) (l : list A) :
  flat_map g l = [] <-> Forall (fun x => g x = []) l.
Proof.
  induction l as [|x l IH]; cbn [flat_map].
  - split; [constructor | reflexivity].
  - split.
    + intros H. apply app_eq_nil in H as [Hx Hl].
      constructor; [exact Hx | now apply IH].
    + intros H. apply Forall_cons in H as [Hx Hl].
      rewrite Hx. now apply IH.
Qed.

End ValidationFacts.

(* ================================================================== *)
(** * Facts about the query builder                                    *)
(* ================================================================== *)

Module BuilderFacts.
Import Builder.

Lemma append_closing (a : string) c rest :
  ((a ++ String c EmptyString) ++ rest)%string = (a ++ String c rest)%string.
Proof.
  induction a as [|x a IH]; [reflexivity|].
  change (String x (((a ++ String c EmptyString) ++ rest))%string
          = String x (a ++ String c rest)%string).
  now rewrite IH.
Qed.

Lemma scan_cons c r :
  scan (String c r)
  = if Ascii.eqb c QUOTE
    then match r with
         | EmptyString => Some (EmptyString, EmptyString)
         | String c' r' =>
             if Ascii.eqb c' QUOTE
             then match scan r' with
                  | Some (text, rest) => Some (String QUOTE text, rest)
                  | None => None
                  end
             else Some (EmptyString, r)
         end
    else match scan r with
         | Some (text, rest) => Some (String c text, rest)
         | None => None
         end.
Proof. reflexivity. Qed.

(** Reading back what [double_quotes] wrote, up to the closing
    quote. *)
Lemma scan_double_quotes s rest :
  starts_with_quote rest = false ->
  scan (double_quotes s ++ String QUOTE rest) = Some (s, rest).
Proof.
  intros Hrest. induction s as [|c s IH].
  - change (double_quotes EmptyString ++ String QUOTE rest)%string
      with (String QUOTE rest).
    rewrite scan_cons, Ascii.eqb_refl.
    destruct rest as [|c' r']; [reflexivity|].
    cbn [starts_with_quote] in Hrest. now rewrite Hrest.
  - cbn [double_quotes]. destruct (Ascii.eqb c QUOTE) eqn:Hc.
    + apply Ascii.eqb_eq in Hc. subst c.
      change (String QUOTE (String QUOTE (double_quotes s)) ++ String QUOTE rest)%string
        with (String QUOTE (String QUOTE (double_quotes s ++ String QUOTE rest))).
      rewrite scan_cons, !Ascii.eqb_refl. now rewrite IH.
    + change (String c (double_quotes s) ++ String QUOTE rest)%string
        with (String c (double_quotes s ++ String QUOTE rest)).
      rewrite scan_cons, Hc. now rewrite IH.
Qed.

(** The two fields that [build] tests, after a chain of calls on the
    builder [b]. *)
Lemma fold_calls calls :
  forall b,
    _select (fold_left (fun b c => call c b) calls b) = _select b ++ selected calls
    /\ _from (fold_left (fun b c => call c b) calls b)
       = default (_from b) (last (tables calls)).
Proof.
  induction calls as [|c calls IH]; intros b.
  - cbn. now rewrite app_nil_r.
  - cbn [fold_left]. destruct (IH (call c b)) as [Hs Hf]. rewrite Hs, Hf.
    assert (Hlast : forall x, default (_from b) (last (x :: tables calls))
                              = default x (last (tables calls))).
    { intros x. destruct (tables calls) as [|y l]; [reflexivity|].
      rewrite last_cons_cons.
      destruct (last (y :: l)) eqn:El; [reflexivity|].
      now apply last_None in El. }
    destruct c;
      try (split; [change (_select b ++ selected calls = _select b ++ selected calls);
                   reflexivity
                  |reflexivity]).
    + split.
      * change (selected (CSelect columns :: calls)) with (columns ++ selected calls).
        change (_select (call (CSelect columns) b)) with (_select b ++ columns).
        now rewrite <- app_assoc.
      * reflexivity.
    + split; [reflexivity|].
      change (tables (CFrom table alias :: calls))
        with (_from (from table alias suiteql) :: tables calls).
      rewrite Hlast. reflexivity.
Qed.

End BuilderFacts.

(* ================================================================== *)
(** * Facts about the rate limiter                                     *)
(* ================================================================== *)

Module LimiterFacts.
Import Limiter.

(** Pruning removes a prefix of expired timestamps and stops at a live
    one. *)
Lemma shift_while_suffix cutoff l :
  exists n,
    (n <= length l)%nat
    /\ shift_while cutoff l = drop n l
    /\ Forall (fun t => (t <= cutoff)%Z) (take n l)
    /\ match shift_while cutoff l with
       | t :: _ => (cutoff < t)%Z
       | [] => True
       end.
Proof.
  induction l as [|t r IH].
  - exists 0%nat. cbn. repeat split; [lia | constructor].
  - cbn [shift_while]. destruct (t <=? cutoff)%Z eqn:Ht.
    + destruct IH as (n & Hn & Hd & Hf & Hh). exists (S n). cbn.
      apply Z.leb_le in Ht.
      repeat split; [lia | exact Hd | constructor; assumption | exact Hh].
    + exists 0%nat. cbn. apply Z.leb_gt in Ht.
      repeat split; [lia | constructor | exact Ht].
Qed.

Lemma filter_all (cutoff : Z) l :
  Forall (fun t => (cutoff < t)%Z) l -> filter (fun t => (cutoff < t)%Z) l = l.
Proof.
  induction 1 as [|t r Ht Hr IH]; [reflexivity|].
  rewrite filter_cons_True by exact Ht. now rewrite IH.
Qed.

Lemma filter_none (cutoff : Z) l :
  Forall (fun t => (t <= cutoff)%Z) l -> filter (fun t => (cutoff < t)%Z) l = [].
Proof.
  induction 1 as [|t r Ht Hr IH]; [reflexivity|].
  rewrite filter_cons_False by lia. exact IH.
Qed.

(** On timestamps in order, pruning keeps exactly the live ones. *)
Lemma shift_while_sorted cutoff l :
  StronglySorted Z.le l ->
  shift_while cutoff l = filter (fun t => (cutoff < t)%Z) l.
Proof.
  induction 1 as [|t r Hr IH Ht]; [reflexivity|].
  cbn [shift_while]. destruct (t <=? cutoff)%Z eqn:E.
  - apply Z.leb_le in E. rewrite filter_cons_False by lia. exact IH.
  - apply Z.leb_gt in E. symmetry. apply filter_all.
    constructor; [exact E|].
    eapply Forall_impl; [exact Ht|]. cbn beta. intros x Hx. lia.
Qed.

Lemma recorded_settings times :
  forall rl,
    maxRequests (recorded times rl) = maxRequests rl
    /\ windowMs (recorded times rl) = windowMs rl.
Proof.
  induction times as [|t times IH]; intros rl; [split; reflexivity|].
  cbn [recorded fold_left]. apply (IH (recordRequest t rl)).
Qed.

(** After requests recorded at times in order, the timestamps on record
    are the times without a prefix that has expired by any later
    [now]. *)
Lemma recorded_suffix times :
  forall maxRequests window now,
    StronglySorted Z.le times ->
    Forall (fun t => (t <= now)%Z) times ->
    exists n,
      (n <= length times)%nat
      /\ timestamps (recorded times (mkRateLimiter [] maxRequests window))
         = drop n times
      /\ Forall (fun t => (t <= now - window)%Z) (take n times).
Proof.
  induction times as [|t times IH] using rev_ind; intros m window now Hsorted Hnow.
  - exists 0%nat. cbn. repeat split; [lia | constructor].
  - apply StronglySorted_app in Hsorted as (Hcross & Hl & _).
    assert (Hle : Forall (fun x => (x <= t)%Z) times).
    { apply Forall_forall. intros x Hx. apply (Hcross x t Hx).
      now apply list_elem_of_singleton. }
    apply Forall_app in Hnow as [_ Ht]. apply Forall_inv in Ht.
    destruct (IH m window t Hl Hle) as (n & Hn & Hd & Hf).
    unfold recorded. rewrite fold_left_app. cbn [fold_left].
    fold (recorded times (mkRateLimiter [] m window)).
    destruct (recorded_settings times (mkRateLimiter [] m window)) as [_ Hw].
    cbn [windowMs] in Hw.
    unfold recordRequest, pruneExpired. cbn [timestamps]. rewrite Hw, Hd.
    destruct (shift_while_suffix (t - window) (drop n times))
      as (k & Hk & Hdk & Hfk & _).
    rewrite length_drop in Hk.
    exists (n + k)%nat. rewrite length_app. cbn [length].
    split; [lia|]. split.
    + rewrite Hdk, drop_drop. now rewrite drop_app_le by lia.
    + rewrite take_app_le by lia.
      rewrite <- (take_drop n (take (n + k) times)).
      rewrite take_take, <- take_drop_commute.
      replace (n `min` (n + k))%nat with n by lia.
      apply Forall_app. split.
      * eapply Forall_impl; [exact Hf|]. cbn beta. intros x Hx. lia.
      * eapply Forall_impl; [exact Hfk|]. cbn beta. intros x Hx. lia.
Qed.

(** What pruning at [now] leaves of those timestamps: the requests of
    the window that ends at [now]. *)
Lemma recorded_window times maxRequests window now :
  StronglySorted Z.le times ->
  Forall (fun t => (t <= now)%Z) times ->
  timestamps (pruneExpired now
                (recorded times (mkRateLimiter [] maxRequests window)))
  = in_window window now times.
Proof.
  intros Hsorted Hnow.
  destruct (recorded_suffix times maxRequests window now Hsorted Hnow)
    as (n & Hn & Hd & Hf).
  destruct (recorded_settings times (mkRateLimiter [] maxRequests window)) as [_ Hw].
  cbn [windowMs] in Hw.
  unfold pruneExpired. cbn [timestamps]. rewrite Hw, Hd.
  rewrite shift_while_sorted.
  - unfold in_window.
    rewrite <- (take_drop n times) at 2. rewrite filter_app.
    now rewrite (filter_none _ _ Hf).
  - rewrite <- (take_drop n times) in Hsorted.
    now apply StronglySorted_app in Hsorted as (_ & _ & Hr).
Qed.

Lemma shift_while_length cutoff l :
  (length (shift_while cutoff l) <= length l)%nat.
Proof.
  destruct (shift_while_suffix cutoff l) as (n & _ & -> & _).
  rewrite length_drop. lia.
Qed.

Lemma shift_while_idempotent cutoff l :
  shift_while cutoff (shift_while cutoff l) = shift_while cutoff l.
Proof.
  destruct (shift_while_suffix cutoff l) as (n & _ & _ & _ & Hhead).
  revert Hhead.
  destruct (shift_while cutoff l) as [|t r]; [reflexivity|]. intros Hhead.
  cbn [shift_while].
  assert (E : (t <=? cutoff)%Z = false) by (apply Z.leb_gt; exact Hhead).
  now rewrite E.
Qed.

End LimiterFacts.

(* ================================================================== *)
(** * The properties                                                   *)
(* ================================================================== *)

Module Claims.
Import UrlBuilder Retry Spy MiddlewareChain HttpTransport Signing SuiteQL Examples.

(** ** The retry bound *)

Lemma called_in_calls {T} (o : Outcome T) (l : list (Observation T)) :
  In (Called o) l -> In o (calls_of l).
Proof.
  induction l as [|x l IH]; simpl; [tauto|].
  intros [->|Hin]; simpl; [now left|].
  destruct x; simpl; auto.
Qed.

(** C1.  With [maxRetries = N >= 0], [withRetry] invokes the wrapped
    operation at most [N + 1] times; exactly [N + 1] times when no
    invocation succeeds and the predicate accepted every failure it was
    asked about, that is, said yes each time the loop asked it, for the
    error, at the attempt and in the world in which it was asked (what
    it would say of other errors, at other attempts or in other worlds
    does not matter); and an invocation that succeeds is the last thing
    the run does: no call, no draw and no sleep follows it, and its
    value and the world it left are the result.  The run is observed
    through [spy_fn] and [spy_config], which change neither the result
    nor the world; the questions they keep are exactly those the loop
    put to the predicate: each is for the error of a failed invocation,
    at an attempt [0 <= k < N], with the answer of the predicate. *)
Theorem withRetry_invocation_bound {W} `{Runtime W} {T}
    (fn : Async W T) (config : PartialRetryConfig W) (w : W) :
  let opts := merge DEFAULT_RETRY_CONFIG config in
  (0 <= maxRetries opts)%Z ->
  let observed := withRetry (spy_fn fn) (spy_config config) (watch w) in
  (fst observed, inner (snd observed)) = withRetry fn config w
  /\ (call_count (snd observed) <= maxRetries opts + 1)%Z
  /\ (Forall (fun o => is_rejected o = true) (calls_of (log (snd observed))) ->
      Forall (fun x => q_answer x = true) (asked (snd observed)) ->
      call_count (snd observed) = (maxRetries opts + 1)%Z)
  /\ Forall (fun x =>
               (0 <= q_attempt x < maxRetries opts)%Z
               /\ In (Called (Rejected (q_error x))) (log (snd observed))
               /\ exists w',
                    q_answer x
                    = fst (shouldRetry opts (q_error x) (q_attempt x) w'))
       (asked (snd observed))
  /\ (forall v, In (Called (Resolved v)) (log (snd observed)) ->
        fst observed = Resolved v
        /\ exists before,
             log (snd observed) = before ++ [Called (Resolved v)]
             /\ Forall (fun o => is_rejected o = true) (calls_of before))
  /\ (forall v, fst observed = Resolved v ->
        In (Called (Resolved v)) (log (snd observed))
        /\ exists w1, fn w1 = (Resolved v, inner (snd observed))).
Proof.
  intros opts HN observed.
  destruct (SpyFacts.spy_transparent fn config w) as (l & q & E & Hl & Hq).
  subst observed opts. rewrite E.
  unfold call_count; cbn [fst snd inner log asked].
  split; [now destruct (withRetry fn config w)|].
  split; [pose proof (SpyFacts.run_log_bound _ _ _ _ _ Hl); lia|].
  split.
  { intros Hrej Hyes.
    rewrite (SpyFacts.ask_log_exhausts _ _ _ _ Hq Hrej Hyes HN). lia. }
  split; [exact (SpyFacts.ask_log_sound _ _ _ _ Hq)|].
  pose proof (SpyFacts.run_log_resolved _ _ _ _ _ Hl) as Hres.
  split.
  - intros v Hin. apply called_in_calls in Hin.
    destruct (fst (withRetry fn config w)) as [v'|e].
    + destruct Hres as (before & -> & Hall).
      rewrite SpyFacts.calls_of_app in Hin. simpl in Hin.
      apply in_app_or in Hin as [Hin|[Hin|[]]].
      * rewrite List.Forall_forall in Hall. specialize (Hall _ Hin). discriminate.
      * injection Hin as ->. split; [reflexivity|]. now exists before.
    + rewrite List.Forall_forall in Hres. specialize (Hres _ Hin). discriminate.
  - intros v Hv. split.
    + rewrite Hv in Hres. destruct Hres as (before & -> & _).
      apply in_or_app. right. now left.
    + unfold withRetry in *.
      destruct (retry_loop fn _ _ _ w) as [res w'] eqn:Hloop.
      simpl in Hv. subst res.
      exact (RetryFacts.retry_loop_resolved _ _ _ _ _ _ _ Hloop).
Qed.

(** An operation that always fails, retried twice: three invocations. *)
Lemma withRetry_invocation_bound_witness :
  call_count
    (snd (withRetry (H := spy_runtime (RT := host_runtime OFFLINE))
            (spy_fn always_fails) (spy_config TWO_RETRIES) (watch INITIAL_WORLD)))
  = 3%Z.
Proof.
  assert (HN : (0 <= maxRetries (merge DEFAULT_RETRY_CONFIG TWO_RETRIES))%Z)
    by (simpl; lia).
  destruct (withRetry_invocation_bound (H := host_runtime OFFLINE)
              always_fails TWO_RETRIES INITIAL_WORLD HN)
    as (_ & _ & Hexact & _).
  apply Hexact.
  - vm_compute. repeat constructor.
  - vm_compute. repeat constructor.
Defined.

(** ** Middleware ordering *)

(** C7.  Two middlewares [A], [B] registered in that order around a
    terminal handler [H] run as [A-enter, B-enter, H, B-exit, A-exit];
    with no middleware the terminal handler runs directly and what it
    returns is returned unchanged.  The first part is stated for the
    logging middlewares of the test suite and, in general, for any two
    middlewares that do something before and after one call of
    [next]. *)
Theorem middleware_chain_order :
  (forall (finalHandler : Async World ResponseContext) w,
      executeMiddlewareChain [] finalHandler w = finalHandler w)
  /\ (forall a_enter a_exit b_enter b_exit h r w,
        executeMiddlewareChain
          [logging a_enter a_exit; logging b_enter b_exit] (handler h r) w
        = (Resolved r,
           mkWorld (trace w ++ [EvEffect a_enter; EvEffect b_enter; EvEffect h;
                                EvEffect b_exit; EvEffect a_exit])
                   (context w)))
  /\ (forall a_in a_out a_req a_res b_in b_out b_req b_res
             (finalHandler : Async World ResponseContext) w,
        let w_a := set_context (a_req (context w)) (emit (EvEffect a_in) w) in
        let w_b := set_context (b_req (context w_a)) (emit (EvEffect b_in) w_a) in
        executeMiddlewareChain
          [around a_in a_out a_req a_res; around b_in b_out b_req b_res]
          finalHandler w
        = match finalHandler w_b with
          | (Resolved r, w_h) =>
              (Resolved (a_res (b_res r)),
               emit (EvEffect a_out) (emit (EvEffect b_out) w_h))
          | (Rejected e, w_h) => (Rejected e, w_h)
          end).
Proof.
  split; [exact ChainFacts.chain_nil|]. split.
  - intros. unfold logging. rewrite ChainFacts.chain_two_around.
    unfold handler, emit, set_context; simpl.
    now rewrite <- !app_assoc.
  - intros. apply ChainFacts.chain_two_around.
Qed.

(** ** Account identifiers *)

(** C8.  Normalization lower-cases the identifier and turns every
    underscore into a hyphen; ["1234567_SB1"] becomes ["1234567-sb1"];
    normalizing twice is normalizing once, and an identifier that is
    already normalized is returned as it is; every host that is built
    (the two url builders and the three client constructors, the
    SuiteQL one among them) contains the normalized identifier, and
    every request of a SuiteQL client goes to that host. *)
Theorem normalizeAccountId_everywhere :
  (forall s, normalizeAccountId s = normalize_spec s)
  /\ normalizeAccountId "1234567_SB1" = "1234567-sb1"
  /\ (forall s, normalizeAccountId (normalizeAccountId s) = normalizeAccountId s)
  /\ (forall s, is_normalized (normalizeAccountId s) = true)
  /\ (forall s, is_normalized s = true -> normalizeAccountId s = s)
  /\ (forall accountId,
        SuiteQLClient_baseUrl accountId
        = ("https://" ++ normalizeAccountId accountId
             ++ ".suitetalk.api.netsuite.com/services/rest/query/v1/suiteql")%string
        /\ RecordClient_baseUrl accountId
           = ("https://" ++ normalizeAccountId accountId
                ++ ".suitetalk.api.netsuite.com/services/rest/record/v1")%string
        /\ RestletClient_baseUrl accountId
           = ("https://" ++ normalizeAccountId accountId
                ++ ".restlets.api.netsuite.com/app/site/hosting/restlet.nl")%string
        /\ buildSuiteTalkUrl accountId
           = ("https://" ++ normalizeAccountId accountId
                ++ ".suitetalk.api.netsuite.com")%string
        /\ buildRestletUrl accountId
           = ("https://" ++ normalizeAccountId accountId
                ++ ".restlets.api.netsuite.com")%string)
  /\ SuiteQLClient_baseUrl "1234567_SB1"
     = "https://1234567-sb1.suitetalk.api.netsuite.com/services/rest/query/v1/suiteql"
  /\ (forall W (RT : Runtime W) T (transport : PageTransport W T)
             accountId fuel sql options w,
        Forall (fun c => call_baseUrl c
                         = ("https://" ++ normalizeAccountId accountId
                              ++ ".suitetalk.api.netsuite.com/services/rest/query/v1/suiteql")%string)
          (calls_made
             (snd (client_query (recording transport) accountId fuel sql options
                     ([], w))))).
Proof.
  split; [exact UrlBuilderFacts.normalizeAccountId_pointwise|].
  split; [reflexivity|].
  split.
  { intros s. rewrite !UrlBuilderFacts.normalizeAccountId_pointwise.
    apply UrlBuilderFacts.normalize_spec_idem. }
  split.
  { intros s. rewrite UrlBuilderFacts.normalizeAccountId_pointwise.
    apply UrlBuilderFacts.normalize_spec_normalized. }
  split.
  { intros s Hs. rewrite UrlBuilderFacts.normalizeAccountId_pointwise.
    now apply UrlBuilderFacts.normalize_spec_fixes. }
  split; [intros accountId; repeat split; reflexivity|].
  split; [reflexivity|].
  intros W RT T transport accountId fuel sql options w. unfold client_query.
  destruct (SuiteQLFacts.recorded_query transport (SuiteQLClient_baseUrl accountId)
              fuel sql options [] w) as (l & exit & E & Hl & _).
  rewrite E. unfold calls_made. cbn [fst snd app].
  apply List.Forall_forall. intros c Hin.
  apply List.in_map_iff in Hin as ([c' o] & <- & Hin).
  apply List.in_split in Hin as (l1 & l2 & Hsplit).
  destruct (SuiteQLFacts.page_log_limits _ _ _ _ _ _ _ _ Hl _ _ _ _ Hsplit)
    as (Hc & _).
  simpl. rewrite Hc. reflexivity.
Qed.

(** ["1234567-sb1"] is normalized and is returned as it is. *)
Lemma normalizeAccountId_everywhere_witness :
  normalizeAccountId "1234567-sb1" = "1234567-sb1".
Proof.
  destruct normalizeAccountId_everywhere as (_ & _ & _ & _ & Hfix & _).
  apply Hfix. reflexivity.
Defined.


(** ** Pagination *)

(** C10.  With [maxRows <= 0] the query makes no request at all, however
    much fuel it is given, and returns no items, a total of 0, 0 pages
    fetched and [hasMore = false]. *)
Theorem query_with_no_rows_allowed {W} `{Runtime W} {T}
    (transport : PageTransport W T) (baseUrl : string)
    (fuel : nat) (sql : string) (options : SuiteQLOptions) (m : Z) (w : W) :
  maxRows options = Some (Finite m) ->
  (m <= 0)%Z ->
  exists result,
    query (recording transport) baseUrl fuel sql options ([], w)
    = (Some (Resolved result), ([], w))
    /\ query transport baseUrl fuel sql options w = (Some (Resolved result), w)
    /\ items result = []
    /\ totalResults result = 0%Z
    /\ pagesFetched result = 0%Z
    /\ hasMore result = false.
Proof.
  intros Hmax Hm.
  assert (Hlim : (effectiveLimit (default 1000%Z (pageSize options))
                    (default Infinity (maxRows options))
                    (initial_state (T := T) options) <=? 0)%Z = true).
  { rewrite Hmax. apply Z.leb_le. unfold effectiveLimit; simpl. unfold len; simpl. lia. }
  eexists. unfold query.
  destruct fuel; simpl; rewrite Hlim; simpl; repeat split; reflexivity.
Qed.

(** [{ maxRows: 0 }] against a server: nothing is asked. *)
Lemma query_with_no_rows_allowed_witness :
  fst (snd (query (recording empty_server) "https://1234567.example/suiteql"
              5 "SELECT 1" MAX_ROWS_0 ([], tt)))
  = [].
Proof.
  destruct (query_with_no_rows_allowed empty_server
              "https://1234567.example/suiteql" 5 "SELECT 1" MAX_ROWS_0 0 tt
              eq_refl ltac:(reflexivity)) as (result & E & _).
  rewrite E. reflexivity.
Defined.

(** C5.  The requests of a query follow the pagination policy.  Each
    request is sent with the positive limit
    [min(pageSize, maxRows - rowsSoFar)] and the current offset, so none
    is sent once that value is [<= 0]; a request that is followed by
    another one was answered with a non-empty page, with the rows so far
    below [maxRows] and with one of the two indicators promising more;
    and when the query returns, either no request was made or the last
    page was empty, or brought the rows to [maxRows], or came with both
    indicators saying that nothing follows.  The run is observed through
    [recording], which changes neither the result nor the world. *)
Theorem query_follows_pagination_policy {W} `{Runtime W} {T}
    (transport : PageTransport W T) (baseUrl : string)
    (fuel : nat) (sql : string) (options : SuiteQLOptions) (w : W) :
  let page_size := default 1000%Z (pageSize options) in
  let max_rows := default Infinity (maxRows options) in
  let st0 := initial_state (T := T) options in
  let run := query (recording transport) baseUrl fuel sql options ([], w) in
  let calls := fst (snd run) in
  (fst run, snd (snd run)) = query transport baseUrl fuel sql options w
  /\ (exists exit, page_log baseUrl sql page_size max_rows (timeout options)
                     st0 calls exit)
  /\ (forall before c o later, calls = before ++ (c, o) :: later ->
        let st := state_after st0 before in
        call_limit c = min_with_remaining page_size max_rows (len (allItems st))
        /\ call_offset c = currentOffset st
        /\ (0 < call_limit c)%Z
        /\ (later <> [] ->
            exists page,
              o = Resolved page
              /\ raw_items page <> []
              /\ below (len (allItems st ++ raw_items page)) max_rows
              /\ (raw_hasMore page = true
                  \/ (currentOffset st + len (raw_items page)
                      < raw_totalResults page)%Z)))
  /\ (forall result, fst run = Some (Resolved result) ->
        (calls = [] /\ (min_with_remaining page_size max_rows 0 <= 0)%Z)
        \/ exists before c page,
             calls = before ++ [(c, Resolved page)]
             /\ stops max_rows (state_after st0 before) page).
Proof.
  intros page_size max_rows st0 run calls.
  destruct (SuiteQLFacts.recorded_query transport baseUrl fuel sql options [] w)
    as (l & exit & E & Hl & Hexit).
  subst calls run. rewrite E. cbn [fst snd app].
  split; [now destruct (query transport baseUrl fuel sql options w)|].
  split; [now exists exit|].
  split.
  - intros before c o later Hsplit. cbv zeta.
    destruct (SuiteQLFacts.page_log_limits _ _ _ _ _ _ _ _ Hl _ _ _ _ Hsplit)
      as (Hc & Hpos & _).
    split; [now rewrite Hc|]. split; [now rewrite Hc|]. split; [exact Hpos|].
    intros Hne.
    destruct (SuiteQLFacts.page_log_further _ _ _ _ _ _ _ _ Hl _ _ _ _ Hsplit Hne)
      as (page & -> & Hne' & Hbelow & Hmore).
    exists page. repeat split; assumption.
  - intros result Hres. rewrite Hexit in Hres.
    destruct exit as [[st|e]|]; try discriminate.
    destruct (SuiteQLFacts.page_log_stop _ _ _ _ _ _ _ _ Hl)
      as [(-> & _ & Hlim)|(before & c & page & -> & Hstop & _)].
    + left. split; [reflexivity | exact Hlim].
    + right. exists before, c, page. split; [reflexivity|].
      now apply SuiteQLFacts.not_goes_on_stops.
Qed.

(** Three rows in pages of two: the first page, which is followed by a
    second request, was not empty and came with [hasMore]. *)
Lemma query_follows_pagination_policy_witness :
  exists c page later,
    fst (snd (query (recording three_rows) "https://1234567.example/suiteql"
                5 "SELECT id FROM customer" PAGE_SIZE_2 ([], tt)))
    = (c, Resolved page) :: later
    /\ call_limit c = 2%Z
    /\ raw_items page <> []
    /\ raw_hasMore page = true.
Proof.
  destruct (query_follows_pagination_policy three_rows
              "https://1234567.example/suiteql" 5 "SELECT id FROM customer"
              PAGE_SIZE_2 tt) as (_ & _ & Hcalls & _).
  eexists _, (mkRaw [1; 2]%nat 3 true 0), [_].
  split; [reflexivity|].
  destruct (Hcalls [] _ _ _ eq_refl) as (Hlimit & _ & _ & Hnext).
  split; [exact Hlimit|].
  destruct (Hnext ltac:(discriminate)) as (page & Hpage & Hne & _ & _).
  injection Hpage as <-.
  split; [exact Hne | reflexivity].
Defined.

(** C4, as stated, fails: a caller who asks for pages of 5000 rows has
    [limit=5000] sent to the server. *)
Lemma page_size_above_ceiling_is_sent :
  ~ limits_at_most 1000
      (query (recording empty_server) "https://1234567.example/suiteql"
         1 "SELECT 1" PAGE_SIZE_5000 ([], tt)).
Proof.
  unfold limits_at_most. vm_compute. intros Hall.
  inversion Hall as [|c l Hc _]; subst. apply Hc. reflexivity.
Qed.

(** C4, amended.  The limit of every page request is at most the
    caller's [pageSize] (1000 when none is given): it never exceeds 1000
    as long as the caller does not ask for more than 1000. *)
Theorem query_limit_at_most_page_size {W} `{Runtime W} {T}
    (transport : PageTransport W T) (baseUrl : string)
    (fuel : nat) (sql : string) (options : SuiteQLOptions) (w : W) :
  let run := query (recording transport) baseUrl fuel sql options ([], w) in
  limits_at_most (default 1000%Z (pageSize options)) run
  /\ (pageSize options = None -> limits_at_most 1000 run)
  /\ (forall n, pageSize options = Some n -> (n <= 1000)%Z ->
                limits_at_most 1000 run).
Proof.
  intros run.
  assert (Hall : limits_at_most (default 1000%Z (pageSize options)) run).
  { destruct (SuiteQLFacts.recorded_query transport baseUrl fuel sql options [] w)
      as (l & exit & E & Hl & _).
    subst run. rewrite E. unfold limits_at_most, calls_made. cbn [fst snd app].
    apply List.Forall_forall. intros c Hin.
    apply List.in_map_iff in Hin as ([c' o] & <- & Hin).
    apply List.in_split in Hin as (l1 & l2 & Hsplit).
    destruct (SuiteQLFacts.page_log_limits _ _ _ _ _ _ _ _ Hl _ _ _ _ Hsplit)
      as (_ & _ & Hle).
    exact Hle. }
  split; [exact Hall|]. split.
  - intros Hnone. now rewrite Hnone in Hall.
  - intros n Hn Hle. rewrite Hn in Hall. simpl in Hall.
    unfold limits_at_most in *.
    eapply List.Forall_impl; [|exact Hall]. simpl. intros; lia.
Qed.

(** Pages of 500 rows: every limit is at most 1000. *)
Lemma query_limit_at_most_page_size_witness :
  limits_at_most 1000
    (query (recording empty_server) "https://1234567.example/suiteql"
       3 "SELECT 1" (mkSuiteQLOptions (Some 500%Z) None None None) ([], tt)).
Proof.
  destruct (query_limit_at_most_page_size empty_server
              "https://1234567.example/suiteql" 3 "SELECT 1"
              (mkSuiteQLOptions (Some 500%Z) None None None) tt)
    as (_ & _ & Hcap).
  apply (Hcap 500%Z); [reflexivity | lia].
Defined.

(** ** The body of the outgoing call *)

(** C9.  [executeRequest] makes exactly one network call, and attaches
    to it the body of the context exactly when that body is truthy and
    the method is POST, PUT or PATCH; a falsy body ([undefined], [null],
    the empty string, [0], [false]) is never attached, whatever the
    method.  For a whole [request] whose middlewares leave body and
    method alone, every network call of every attempt follows the rule
    for the body and method of the call. *)
Theorem body_attached_iff_truthy_and_body_method
    (host : Host) (t : Transport) (timeout : Z) (w : World) :
  let c := context w in
  let sent := axios_config c timeout in
  sends_of (added w (snd (executeRequest host t timeout w))) = [sent]
  /\ (Js.truthy (ctx_body c) = false -> ax_data sent = Js.VUndefined)
  /\ (ax_data sent <> Js.VUndefined
      <-> Js.truthy (ctx_body c) = true /\ In (ctx_method c) [POST; PUT; PATCH])
  /\ (ax_data sent <> Js.VUndefined -> ax_data sent = ctx_body c)
  /\ Forall (fun v => Js.truthy v = false)
       [Js.VUndefined; Js.VNull; Js.VString ""; Js.VNumber 0; Js.VBool false]
  /\ (Forall keeps_body (middlewares t) ->
      forall url options w0,
        run_well_signed url options (carries_body_of_call host t url options)
          w0 (snd (request host t url options w0))).
Proof.
  intros c sent. split.
  { destruct (TransportFacts.executeRequest_trace host t timeout w)
      as (pre & post & E & Hlog & _).
    rewrite (SigningFacts.added_app _ _ _ E).
    apply Forall_app in Hlog as [Hpre Hpost].
    assert (Hnone : forall l,
               Forall (fun e => match e with
                                | EvDebug _ _ _ | EvInfo _ _ _ _ => True
                                | _ => False end) l ->
               sends_of l = []).
    { induction 1 as [|e l He _ IH]; [reflexivity|].
      destruct e; try contradiction; exact IH. }
    unfold sends_of in *. rewrite !omap_app, (Hnone _ Hpre), (Hnone _ Hpost).
    reflexivity. }
  assert (Hdata : ax_data sent = request_data c) by reflexivity.
  rewrite Hdata. unfold request_data.
  split; [intros ->; reflexivity|].
  split.
  { destruct (Js.truthy (ctx_body c)) eqn:Ht, (ctx_method c) eqn:Hm; simpl;
      split; try tauto; try congruence.
    all: try (intros _; split; [reflexivity | simpl; tauto]).
    all: try (intros [_ H]; simpl in H; intuition discriminate).
    all: try (intros [H _]; discriminate).
    all: intros _ Hu; rewrite Hu in Ht; discriminate. }
  split.
  { destruct (Js.truthy (ctx_body c) && carries_body (ctx_method c));
      [reflexivity | congruence]. }
  split; [repeat constructor|].
  intros Hkeep url options w0.
  apply (TransportFacts.request_well_signed host t url options
           (Js.Value * HttpMethod)
           (fun c => (ctx_body c, ctx_method c))
           (fun a req => ax_data req
                         = if Js.truthy (fst a) && carries_body (snd a)
                           then fst a else Js.VUndefined)).
  - intros; reflexivity.
  - exact Hkeep.
Qed.

(** A POST with the body [0] through a transport with a logging
    middleware: nothing is attached. *)
Lemma body_attached_iff_truthy_and_body_method_witness :
  run_well_signed "https://1234567.suitetalk.api.netsuite.com/x"
    (mkRequestOptions (Some POST) None (Js.VNumber 0) None None)
    (fun _ c => ax_data c = Js.VUndefined)
    INITIAL_WORLD
    (snd (request (answering SERVER_ERROR)
            (use (logging "enter" "exit") (create CONFIG_ONE_RETRY))
            "https://1234567.suitetalk.api.netsuite.com/x"
            (mkRequestOptions (Some POST) None (Js.VNumber 0) None None)
            INITIAL_WORLD)).
Proof.
  destruct (body_attached_iff_truthy_and_body_method (answering SERVER_ERROR)
              (use (logging "enter" "exit") (create CONFIG_ONE_RETRY))
              0 INITIAL_WORLD) as (_ & _ & _ & _ & _ & Hrun).
  apply Hrun.
  constructor; [|constructor].
  apply ChainFacts.around_respects. reflexivity.
Defined.

(** ** Signing *)

(** C2, as stated, fails: a call that brings its own [Authorization]
    header is sent, in the first attempt and in the retry, with that
    header and not with what the signer generated for the attempt. *)
Lemma own_authorization_header_is_sent_in_every_attempt :
  let url := "https://1234567.suitetalk.api.netsuite.com/x" in
  let host := answering SERVER_ERROR in
  let t := create CONFIG_ONE_RETRY in
  let run := request host t url OWN_AUTHORIZATION INITIAL_WORLD in
  (fun c => ax_headers c !! "Authorization") <$> sends_of (trace (snd run))
  = [Some "Bearer static"; Some "Bearer static"]
  /\ signature host t url OWN_AUTHORIZATION 0 !! "Authorization"
     = Some "OAuth oauth_nonce=0"
  /\ signature host t url OWN_AUTHORIZATION 1 !! "Authorization"
     = Some "OAuth oauth_nonce=1"
  /\ ~ run_well_signed url OWN_AUTHORIZATION
         (carries_signature host t url OWN_AUTHORIZATION)
         INITIAL_WORLD (snd run).
Proof.
  intros url host t run.
  split; [vm_compute; reflexivity|].
  split; [vm_compute; reflexivity|].
  split; [vm_compute; reflexivity|].
  intros Hrun. unfold run_well_signed in Hrun.
  assert (E : exists c rest,
             added INITIAL_WORLD (snd run) = EvSign url GET :: EvSend c :: rest
             /\ ax_headers c !! "Authorization" = Some "Bearer static").
  { eexists _, _. split; vm_compute; reflexivity. }
  destruct E as (c & rest & E & Hc). rewrite E in Hrun.
  cbn [well_signed check step fst snd] in Hrun.
  destruct Hrun as (_ & (k & Hk & Hsub) & _).
  injection Hk as <-.
  unfold carries_signature in Hsub.
  rewrite map_subseteq_spec in Hsub.
  specialize (Hsub "Authorization" "OAuth oauth_nonce=0").
  rewrite Hc in Hsub.
  assert (Hsig : signature host t url OWN_AUTHORIZATION 0 !! "Authorization"
                 = Some "OAuth oauth_nonce=0") by (vm_compute; reflexivity).
  specialize (Hsub Hsig). discriminate.
Qed.

(** C2, amended.  Every attempt that [withRetry] makes for
    [Transport.request], the first one and every retry, calls the
    signer once, with the url and method of the call, before anything
    else happens in the attempt, whatever the middlewares are.  When the
    middlewares leave the headers alone, every network call is made in
    an attempt and carries the headers of that attempt: content type,
    below the client's default headers, below the headers that the
    signer call of this attempt returned, below the headers of the call.
    So the signer's headers are never taken from an earlier attempt, and
    they are what goes on the wire unless the call itself brings a
    header of the same name. *)
Theorem request_signs_every_attempt
    (host : Host) (t : Transport) (url : string) (options : RequestOptions) :
  (forall timeout w,
      exists rest,
        trace (snd (attempt host t url (method_of options) options timeout w))
        = trace w ++ EvSign url (method_of options) :: rest
        /\ signature_count rest = 0%nat)
  /\ (Forall keeps_headers (middlewares t) ->
      forall w0,
        run_well_signed url options
          (carries_attempt_headers host t url options)
          w0 (snd (request host t url options w0))
        /\ ((forall k, default ∅ (opt_headers options)
                       ##ₘ signature host t url options k) ->
            run_well_signed url options
              (carries_signature host t url options)
              w0 (snd (request host t url options w0)))).
Proof.
  split; [intros; apply TransportFacts.attempt_signs_once|].
  intros Hkeep w0.
  assert (Hrun : run_well_signed url options
                   (carries_attempt_headers host t url options)
                   w0 (snd (request host t url options w0))).
  { apply (TransportFacts.request_well_signed host t url options
             Headers ctx_headers (fun a req => ax_headers req = a)).
    - intros; reflexivity.
    - exact Hkeep. }
  split; [exact Hrun|].
  intros Hdisj. unfold run_well_signed in *.
  eapply SigningFacts.well_signed_weaken; [|exact Hrun].
  intros k c Hc. unfold carries_attempt_headers in Hc.
  unfold carries_signature. rewrite Hc. unfold attempt_headers, spread.
  apply map_subseteq_spec. intros name value Hsig.
  apply lookup_union_Some_raw. right. split.
  - exact (map_disjoint_Some_r _ _ _ _ (Hdisj k) Hsig).
  - now apply lookup_union_Some_l.
Qed.

(** A call without headers of its own through a transport with a logging
    middleware, retried once: each network call carries the signature
    of its own attempt. *)
Lemma request_signs_every_attempt_witness :
  run_well_signed "https://1234567.suitetalk.api.netsuite.com/x"
    HttpTransport.NO_OPTIONS
    (carries_signature (answering SERVER_ERROR)
       (use (logging "enter" "exit") (create CONFIG_ONE_RETRY))
       "https://1234567.suitetalk.api.netsuite.com/x" HttpTransport.NO_OPTIONS)
    INITIAL_WORLD
    (snd (request (answering SERVER_ERROR)
            (use (logging "enter" "exit") (create CONFIG_ONE_RETRY))
            "https://1234567.suitetalk.api.netsuite.com/x"
            HttpTransport.NO_OPTIONS INITIAL_WORLD)).
Proof.
  destruct (request_signs_every_attempt (answering SERVER_ERROR)
              (use (logging "enter" "exit") (create CONFIG_ONE_RETRY))
              "https://1234567.suitetalk.api.netsuite.com/x"
              HttpTransport.NO_OPTIONS) as (_ & Hrun).
  apply Hrun.
  - constructor; [|constructor].
    apply ChainFacts.around_respects. reflexivity.
  - intros k. apply map_disjoint_empty_l.
Defined.

(** ** Errors that must not be retried *)

(** C3 does not hold of the code.  The server answers 401 with the error
    code [TIMEOUT] in the body; the error that the transport builds is
    an auth-error, its [isRetryable] is nevertheless [true] because of
    the code, and with the default configuration the request is signed
    and sent four times instead of once. *)
Theorem auth_error_with_timeout_code_is_retried :
  let run := request (answering UNAUTHORIZED_TIMEOUT) (create CONFIG)
               "https://1234567.suitetalk.api.netsuite.com/x"
               HttpTransport.NO_OPTIONS INITIAL_WORLD in
  (exists e, fst run = Rejected (ThrownNetSuite e)
             /\ status e = 401%Z
             /\ isAuthError e = true
             /\ code e = Js.VString "TIMEOUT"
             /\ isRetryable e = true)
  /\ length (sends_of (trace (snd run))) = 4%nat
  /\ signature_count (trace (snd run)) = 4%nat.
Proof.
  intros run. split; [|split; vm_compute; reflexivity].
  eexists. split; [vm_compute; reflexivity|].
  repeat split; reflexivity.
Qed.

(** ** Backoff *)

(** C6, as stated, fails: with [initialDelay = 1000], [maxDelay = 30000]
    and the backoff factor [-2], the delay of the retry with index 1 is
    [min(1000 * (-2)^1, 30000) = -2000], and the timer is set to a
    negative duration. *)
Lemma negative_backoff_factor_gives_negative_sleep :
  let opts := merge (W := World) DEFAULT_RETRY_CONFIG NEGATIVE_FACTOR in
  let observed := withRetry (H := spy_runtime (RT := host_runtime OFFLINE))
                    (spy_fn always_fails) (spy_config NEGATIVE_FACTOR)
                    (watch INITIAL_WORLD) in
  (0 <= initialDelay opts)%Q
  /\ (0 <= maxDelay opts)%Q
  /\ draws_of (log (snd observed)) = [1 # 2; 1 # 2]
  /\ Double.is_real (backoffDelay opts 1) (-2000)
  /\ Double.is_real (sleepDuration opts 1 (1 # 2)) (-2000)
  /\ ~ Forall Double.not_negative (sleeps_of (log (snd observed))).
Proof.
  intros opts observed.
  split; [discriminate|]. split; [discriminate|].
  split; [vm_compute; reflexivity|].
  split; [vm_compute; reflexivity|]. split; [vm_compute; reflexivity|].
  intros Hall.
  assert (Hsecond : exists first s rest,
             sleeps_of (log (snd observed)) = first :: Double.Real s :: rest
             /\ (s < 0)%Q).
  { eexists _, _, _. split; [vm_compute; reflexivity | reflexivity]. }
  destruct Hsecond as (first & s & rest & E & Hneg).
  rewrite E in Hall.
  inversion Hall as [|? ? _ Hrest]; subst.
  inversion Hrest as [|? ? Hs _]; subst.
  cbn [Double.not_negative] in Hs. lra.
Qed.

(** A non-negative factor is not enough either when the delay is 0 and
    the power overflows: with [initialDelay = 0] and the factor
    [10^200], [Math.pow(b, 2)] is [Infinity], the delay
    [min(0 * Infinity, 30000)] is [NaN], and the timer of the third
    retry is set to [NaN]. *)
Lemma zero_delay_times_overflowing_power_is_NaN :
  let opts := merge (W := World) DEFAULT_RETRY_CONFIG MoreExamples.ZERO_DELAY_HUGE_FACTOR in
  let observed := withRetry (H := spy_runtime (RT := host_runtime OFFLINE))
                    (spy_fn always_fails) (spy_config MoreExamples.ZERO_DELAY_HUGE_FACTOR)
                    (watch INITIAL_WORLD) in
  (0 <= initialDelay opts)%Q
  /\ (0 <= maxDelay opts)%Q
  /\ (0 <= backoffFactor opts)%Q
  /\ Double.pow (Double.of_Q (backoffFactor opts)) 2 = Double.PlusInfinity
  /\ backoffDelay opts 2 = Double.NaN
  /\ sleeps_of (log (snd observed)) !! 2%nat = Some Double.NaN.
Proof.
  intros opts observed.
  split; [discriminate|]. split; [discriminate|]. split; [discriminate|].
  split; [vm_compute; reflexivity|]. split; vm_compute; reflexivity.
Qed.

(** C6, amended.  The three numbers are non-negative and in the range
    of the doubles ([dmax * 1.25] too), and the product [d0 * b^k] is
    never [0 * Infinity]: [d0 > 0], or [b^k] does not overflow.  Then
    the retry with index [k] (from 0) sleeps for the delay
    [min(d0 * b^k, dmax)] plus the jitter [delay * 0.25 * (2r - 1)],
    [r] being the number that [Math.random] returned for it.  The delay
    is a number between 0 and [dmax]: the exact minimum as long as
    neither [b^k] nor [d0 * b^k] overflows, and [dmax] otherwise.  The
    sleep is the affine image [delay * (0.75 + r / 2)] of the draw, so
    that it is spread over [delay * 0.75 .. delay * 1.25] as the draw
    is spread over [0 .. 1] (uniformly, when [Math.random] is uniform),
    and it is a number between [0] and [dmax * 1.25].  Within the range
    the arithmetic is exact: the rounding of the doubles is not part of
    the model. *)
Theorem backoff_sleep_within_bounds {W} `{Runtime W} {T}
    (fn : Async W T) (config : PartialRetryConfig W) (w : W) :
  let opts := merge DEFAULT_RETRY_CONFIG config in
  (0 <= initialDelay opts /\ initialDelay opts < Double.OVERFLOW)%Q ->
  (0 <= maxDelay opts /\ maxDelay opts * (5 # 4) < Double.OVERFLOW)%Q ->
  (0 <= backoffFactor opts /\ backoffFactor opts < Double.OVERFLOW)%Q ->
  (forall k, (0 <= k < maxRetries opts)%Z ->
             (0 < initialDelay opts
              \/ backoffFactor opts ^ k < Double.OVERFLOW)%Q) ->
  (forall w', 0 <= fst (Math_random w') /\ fst (Math_random w') < 1)%Q ->
  let observed := withRetry (spy_fn fn) (spy_config config) (watch w) in
  let sleeps := sleeps_of (log (snd observed)) in
  let draws := draws_of (log (snd observed)) in
  sleeps
  = imap (fun k r =>
            let delay :=
              Double.min
                (Double.mul (Double.of_Q (initialDelay opts))
                   (Double.pow (Double.of_Q (backoffFactor opts)) (Z.of_nat k)))
                (Double.of_Q (maxDelay opts)) in
            Double.add delay
              (Double.mul (Double.mul delay (Double.Real (1 # 4)))
                 (Double.sub (Double.mul (Double.of_Q r) (Double.Real 2))
                    (Double.Real 1))))
      draws
  /\ (forall k r, draws !! k = Some r ->
        let power := (backoffFactor opts ^ Z.of_nat k)%Q in
        exists delay ms,
          Double.min
            (Double.mul (Double.of_Q (initialDelay opts))
               (Double.pow (Double.of_Q (backoffFactor opts)) (Z.of_nat k)))
            (Double.of_Q (maxDelay opts))
          = Double.Real delay
          /\ (0 <= delay /\ delay <= maxDelay opts)%Q
          /\ ((power < Double.OVERFLOW)%Q ->
              (initialDelay opts * power < Double.OVERFLOW)%Q ->
              (delay == Qmin (initialDelay opts * power) (maxDelay opts))%Q)
          /\ ((Double.OVERFLOW <= power
               \/ Double.OVERFLOW <= initialDelay opts * power)%Q ->
              (delay == maxDelay opts)%Q)
          /\ sleeps !! k = Some (Double.Real ms)
          /\ (ms == delay * (3 # 4) + delay * (1 # 2) * r)%Q
          /\ (delay * (3 # 4) <= ms /\ ms <= delay * (5 # 4))%Q)
  /\ Forall (Double.within 0 (maxDelay opts * (5 # 4))) sleeps.
Proof.
  intros opts Hd0 Hdmax Hb Hdefined Hrandom observed sleeps draws.
  destruct (SpyFacts.spy_transparent fn config w) as (l & q & E & Hl & Hq).
  subst sleeps draws observed. rewrite E. cbn [snd log].
  destruct (SpyFacts.run_log_sleeps_from_0 _ _ _ _ Hl) as [Hsleeps Hdraws].
  pose proof (MoreRetryFacts.run_log_draws _ _ _ _ _ Hl) as Hcount.
  fold opts in Hcount.
  split; [exact Hsleeps|].
  assert (Hcap : (0 <= maxDelay opts /\ maxDelay opts < Double.OVERFLOW)%Q)
    by (destruct Hdmax; split; lra).
  assert (Hone : forall k r, draws_of l !! k = Some r ->
            exists delay ms,
              backoffDelay opts (Z.of_nat k) = Double.Real delay
              /\ (0 <= delay /\ delay <= maxDelay opts)%Q
              /\ ((backoffFactor opts ^ Z.of_nat k < Double.OVERFLOW)%Q ->
                  (initialDelay opts * backoffFactor opts ^ Z.of_nat k
                   < Double.OVERFLOW)%Q ->
                  (delay == Qmin (initialDelay opts * backoffFactor opts ^ Z.of_nat k)
                              (maxDelay opts))%Q)
              /\ ((Double.OVERFLOW <= backoffFactor opts ^ Z.of_nat k
                   \/ Double.OVERFLOW
                      <= initialDelay opts * backoffFactor opts ^ Z.of_nat k)%Q ->
                  (delay == maxDelay opts)%Q)
              /\ sleeps_of l !! k = Some (Double.Real ms)
              /\ (ms == delay * (3 # 4) + delay * (1 # 2) * r)%Q
              /\ (delay * (3 # 4) <= ms /\ ms <= delay * (5 # 4))%Q).
  { intros k r Hr.
    assert (Hk : (0 <= Z.of_nat k < maxRetries opts)%Z).
    { apply lookup_lt_Some in Hr. lia. }
    destruct (BackoffFacts.backoffDelay_real opts (Z.of_nat k) Hd0 Hcap Hb
                ltac:(lia) (Hdefined _ Hk))
      as (delay & Edelay & Hlo & Hhi & Hexact & Hover).
    rewrite Forall_lookup in Hdraws.
    destruct (Hdraws k r Hr) as (w' & Er).
    assert (Hrange : (0 <= r < 1)%Q) by (rewrite Er; apply Hrandom).
    destruct (BackoffFacts.jittered_real delay r Hlo
                ltac:(destruct Hdmax; lra) Hrange) as (ms & Ems & Hms & _).
    exists delay, ms.
    split; [exact Edelay|]. split; [split; assumption|].
    split; [exact Hexact|]. split; [exact Hover|].
    split.
    - rewrite Hsleeps, list_lookup_imap, Hr. cbn [fmap option_fmap option_map].
      unfold sleepDuration. cbv zeta. fold opts. now rewrite Edelay, Ems.
    - split; [exact Hms|]. destruct Hrange. split; nra. }
  split; [exact Hone|].
  apply Forall_lookup. intros k x Hx.
  assert (Hr : exists r, draws_of l !! k = Some r).
  { rewrite Hsleeps, list_lookup_imap in Hx.
    destruct (draws_of l !! k) as [r|]; [now exists r | discriminate]. }
  destruct Hr as (r & Hr).
  destruct (Hone k r Hr) as (delay & ms & _ & [Hlo Hhi] & _ & _ & Es & _ & [Hm0 Hm1]).
  rewrite Es in Hx. injection Hx as <-. cbn [Double.within]. split; lra.
Qed.

(** The default factor 2, two retries from 10 ms: both sleeps are within
    bounds. *)
Lemma backoff_sleep_within_bounds_witness :
  Forall (Double.within 0 (30000 * (5 # 4)))
    (sleeps_of
       (log (snd (withRetry (H := spy_runtime (RT := host_runtime OFFLINE))
                    (spy_fn always_fails) (spy_config TWO_RETRIES)
                    (watch INITIAL_WORLD))))).
Proof.
  apply (backoff_sleep_within_bounds (H := host_runtime OFFLINE)
           always_fails TWO_RETRIES INITIAL_WORLD).
  - split; [discriminate | vm_compute; reflexivity].
  - split; [discriminate | vm_compute; reflexivity].
  - split; [discriminate | vm_compute; reflexivity].
  - intros k _. left. reflexivity.
  - intros w'. split; [discriminate | reflexivity].
Defined.

End Claims.

(* ================================================================== *)
(** * Further properties                                               *)
(* ================================================================== *)

Module Extras.
Import UrlBuilder Retry Spy MiddlewareChain HttpTransport Signing SuiteQL Network.
Import Examples MoreExamples.

(** ** [withRetry] *)

(** X1.  With [maxRetries >= 0] the operation is invoked at least once,
    and [withRetry] settles exactly as its last invocation did: the
    value it resolved with, or the very error it threw, unchanged; every
    earlier invocation failed, and the last thing the run does is that
    invocation (no sleep follows it). *)
Theorem withRetry_settles_as_last_invocation {W} `{Runtime W} {T}
    (fn : Async W T) (config : PartialRetryConfig W) (w : W) :
  (0 <= maxRetries (merge DEFAULT_RETRY_CONFIG config))%Z ->
  let observed := withRetry (spy_fn fn) (spy_config config) (watch w) in
  exists earlier,
    calls_of (log (snd observed)) = earlier ++ [fst (withRetry fn config w)]
    /\ Forall (fun o => is_rejected o = true) earlier
    /\ (exists before,
          log (snd observed) = before ++ [Called (fst (withRetry fn config w))]).
Proof.
  intros HN observed.
  destruct (SpyFacts.spy_transparent fn config w) as (l & q & E & Hl & Hq).
  subst observed. rewrite E. cbn [snd log].
  destruct (MoreRetryFacts.run_log_last _ _ _ _ _ Hl HN) as (earlier & Hc & Hall).
  exists earlier. split; [exact Hc|]. split; [exact Hall|].
  exact (MoreRetryFacts.run_log_ends_with_call _ _ _ _ _ Hl HN).
Qed.

(** An operation that always fails, retried twice: the error that comes
    out is the one of the third invocation. *)
Lemma withRetry_settles_as_last_invocation_witness :
  exists earlier,
    calls_of
      (log (snd (withRetry (H := spy_runtime (RT := host_runtime OFFLINE))
                   (spy_fn always_fails) (spy_config TWO_RETRIES)
                   (watch INITIAL_WORLD))))
    = earlier ++ [Rejected (ThrownError None "always fails")].
Proof.
  destruct (withRetry_settles_as_last_invocation (H := host_runtime OFFLINE)
              always_fails TWO_RETRIES INITIAL_WORLD ltac:(simpl; lia))
    as (earlier & Hc & _).
  exists earlier. exact Hc.
Defined.

(** X2.  With a negative [maxRetries] the loop body never runs: the
    operation is not invoked, the world is left as it was, and
    [withRetry] throws the error that follows the loop, "Retry loop
    exited unexpectedly". *)
Theorem withRetry_negative_maxRetries {W} `{Runtime W} {T}
    (fn : Async W T) (config : PartialRetryConfig W) (w : W) :
  (maxRetries (merge DEFAULT_RETRY_CONFIG config) < 0)%Z ->
  withRetry fn config w
  = (Rejected (ThrownError None "Retry loop exited unexpectedly"), w)
  /\ log (snd (withRetry (spy_fn fn) (spy_config config) (watch w))) = [].
Proof.
  intros HN.
  assert (Hplain : withRetry fn config w = (Rejected LOOP_EXITED, w)).
  { unfold withRetry.
    assert (E : (0 <=? maxRetries (merge DEFAULT_RETRY_CONFIG config))%Z = false)
      by (apply Z.leb_gt; exact HN).
    destruct (Z.to_nat _); cbn [retry_loop]; rewrite E; reflexivity. }
  split; [exact Hplain|].
  destruct (SpyFacts.spy_transparent fn config w) as (l & q & E & Hl & Hq).
  rewrite E. cbn [snd log].
  inversion Hl; subst; try lia. reflexivity.
Qed.

(** [{ maxRetries: -1 }] *)
Lemma withRetry_negative_maxRetries_witness :
  withRetry (H := host_runtime OFFLINE) always_fails
    (mkPartial (Some (-1)%Z) None None None None None) INITIAL_WORLD
  = (Rejected (ThrownError None "Retry loop exited unexpectedly"), INITIAL_WORLD).
Proof.
  apply (withRetry_negative_maxRetries (H := host_runtime OFFLINE)).
  simpl. lia.
Defined.

(** X3.  With [maxRetries >= 0] there is exactly one backoff sleep, and
    one call of [Math.random], between any two consecutive invocations
    and none after the last: the run sleeps one time less than it
    invokes the operation. *)
Theorem withRetry_sleeps_between_invocations {W} `{Runtime W} {T}
    (fn : Async W T) (config : PartialRetryConfig W) (w : W) :
  (0 <= maxRetries (merge DEFAULT_RETRY_CONFIG config))%Z ->
  let observed := withRetry (spy_fn fn) (spy_config config) (watch w) in
  (length (sleeps_of (log (snd observed))) + 1
   = length (calls_of (log (snd observed))))%nat
  /\ length (draws_of (log (snd observed)))
     = length (sleeps_of (log (snd observed)))
  /\ (Z.of_nat (length (sleeps_of (log (snd observed))))
      <= maxRetries (merge DEFAULT_RETRY_CONFIG config))%Z.
Proof.
  intros HN observed.
  destruct (SpyFacts.spy_transparent fn config w) as (l & q & E & Hl & Hq).
  subst observed. rewrite E. cbn [snd log].
  destruct (MoreRetryFacts.run_log_pauses _ _ _ _ _ Hl HN) as [H1 H2].
  pose proof (SpyFacts.run_log_bound _ _ _ _ _ Hl).
  split; [exact H1|]. split; [exact H2|]. lia.
Qed.

(** Three failing invocations: two sleeps. *)
Lemma withRetry_sleeps_between_invocations_witness :
  length
    (sleeps_of
       (log (snd (withRetry (H := spy_runtime (RT := host_runtime OFFLINE))
                    (spy_fn always_fails) (spy_config TWO_RETRIES)
                    (watch INITIAL_WORLD)))))
  = 2%nat.
Proof.
  destruct (withRetry_sleeps_between_invocations (H := host_runtime OFFLINE)
              always_fails TWO_RETRIES INITIAL_WORLD ltac:(simpl; lia))
    as (Hs & _ & _).
  apply Nat.add_cancel_r with (p := 1%nat). rewrite Hs. reflexivity.
Defined.

(** X4.  Under the default predicate a [NetSuiteError] that is not
    retryable ends the run at the first invocation: the operation is
    invoked once, nothing is drawn or slept, and that error is thrown
    in the world the invocation left. *)
Theorem withRetry_default_predicate_refuses_client_errors {W} `{Runtime W} {T}
    (fn : Async W T) (config : PartialRetryConfig W) (w w1 : W)
    (e : NetSuiteError) :
  (0 <= maxRetries (merge DEFAULT_RETRY_CONFIG config))%Z ->
  p_shouldRetry config = None ->
  fn w = (Rejected (ThrownNetSuite e), w1) ->
  isRetryable e = false ->
  withRetry fn config w = (Rejected (ThrownNetSuite e), w1)
  /\ log (snd (withRetry (spy_fn fn) (spy_config config) (watch w)))
     = [Called (Rejected (ThrownNetSuite e))].
Proof.
  intros HN Hdefault Hfn Hno.
  assert (Hfuel : exists fuel,
             Z.to_nat (maxRetries (merge DEFAULT_RETRY_CONFIG config) + 1) = S fuel).
  { exists (Z.to_nat (maxRetries (merge DEFAULT_RETRY_CONFIG config))). lia. }
  destruct Hfuel as (fuel & Hfuel).
  split.
  - unfold withRetry. rewrite Hfuel.
    apply RetryFacts.refused_error_is_thrown; [exact HN | exact Hfn|].
    destruct config as [m i d b sr on]; simpl in *. subst sr. simpl.
    now rewrite Hno.
  - unfold withRetry.
    assert (Hmax : maxRetries (merge DEFAULT_RETRY_CONFIG (spy_config (T := T) config))
                   = maxRetries (merge DEFAULT_RETRY_CONFIG config))
      by (destruct config as [[m|] i d b sr on]; reflexivity).
    rewrite Hmax, Hfuel.
    rewrite (RetryFacts.refused_error_ends_loop (spy_fn fn) _ fuel 0 (watch w)
               (ThrownNetSuite e)
               (mkSpied [Called (Rejected (ThrownNetSuite e))] [] w1)).
    + cbn [snd]. destruct (0 =? _)%Z; [reflexivity|].
      destruct config as [m i d b sr on]; simpl in *. subst sr. reflexivity.
    + rewrite Hmax. exact HN.
    + unfold spy_fn, watch; simpl. now rewrite Hfn.
    + destruct config as [m i d b sr on]; simpl in *. subst sr. simpl.
      exact Hno.
Qed.

(** A lookup of a record that does not exist is made once. *)
Lemma withRetry_default_predicate_refuses_client_errors_witness :
  withRetry (H := host_runtime OFFLINE) record_missing TWO_RETRIES INITIAL_WORLD
  = (Rejected (ThrownNetSuite NOT_FOUND_ERROR), INITIAL_WORLD).
Proof.
  apply (withRetry_default_predicate_refuses_client_errors
           (H := host_runtime OFFLINE) record_missing TWO_RETRIES
           INITIAL_WORLD INITIAL_WORLD NOT_FOUND_ERROR).
  - simpl. lia.
  - reflexivity.
  - reflexivity.
  - reflexivity.
Defined.

(** ** [HttpTransport.executeRequest] *)

(** X5.  A failure below HTTP never leaves [executeRequest] as it came:
    it is thrown as a [NetSuiteError] for the url and method of the
    context, with status 504 and code [TIMEOUT] when axios reported
    [ECONNABORTED] or [ERR_CANCELED], and with status 0, code
    [NETWORK_ERROR] and the message of axios (or "Network error" when
    that is empty) otherwise.  Either way the error is retryable and is
    not an authentication error. *)
Theorem executeRequest_classifies_transport_failures
    (host : Host) (t : Transport) (timeout : Z) (w : World)
    (err_code : option string) (msg : string) :
  reply host t timeout w = Rejected (ThrownError err_code msg) ->
  exists e,
    fst (executeRequest host t timeout w) = Rejected (ThrownNetSuite e)
    /\ (status e, code e, message e)
       = (if timed_out err_code
          then (504%Z, Js.VString "TIMEOUT",
                Js.VString ("Request timed out after " ++ pretty timeout ++ "ms")%string)
          else (0%Z, Js.VString "NETWORK_ERROR",
                Js.VString (if String.eqb msg "" then "Network error" else msg)))
    /\ details e = Js.VUndefined
    /\ requestUrl e = Some (ctx_url (context w))
    /\ requestMethod e = Some (ctx_method (context w))
    /\ isRetryable e = true
    /\ isAuthError e = false.
Proof.
  intros Hreply.
  destruct (MoreTransportFacts.executeRequest_settles host t timeout w)
    as (duration & E).
  rewrite Hreply in E. rewrite E. cbn [caught].
  destruct (timed_out err_code); eexists; (split; [reflexivity|]);
    repeat split; reflexivity.
Qed.

(** A host without a network: status 0 and [NETWORK_ERROR]. *)
Lemma executeRequest_classifies_transport_failures_witness :
  exists e,
    fst (executeRequest OFFLINE PLAIN 30000 (attempting "https://x/y"))
    = Rejected (ThrownNetSuite e)
    /\ (status e, code e, message e)
       = (0%Z, Js.VString "NETWORK_ERROR", Js.VString "offline").
Proof.
  destruct (executeRequest_classifies_transport_failures OFFLINE PLAIN 30000
              (attempting "https://x/y") (Some "ENOTFOUND") "offline" eq_refl)
    as (e & He & Hc & _).
  exists e. split; [exact He | exact Hc].
Defined.

(** X6.  When axios hands back a response, [executeRequest] resolves
    exactly when the status is below 400.  The response context then
    has the status of the response and its string headers, and its body
    is the data of the response unless the status is 204, where it is
    [undefined] whatever axios delivered.  From 400 on, a
    [NetSuiteError] with that status is thrown for the url and method
    of the context; its message, code and details are never nullish, a
    body without fields yields the message "HTTP <status>" and the code
    "HTTP_<status>", and the error is retryable from 500 on. *)
Theorem executeRequest_on_response
    (host : Host) (t : Transport) (timeout : Z) (w : World)
    (response : AxiosResponse) :
  reply host t timeout w = Resolved response ->
  is_rejected (fst (executeRequest host t timeout w))
  = (400 <=? ar_status response)%Z
  /\ (forall r,
        fst (executeRequest host t timeout w) = Resolved r ->
        res_status r = ar_status response
        /\ res_headers r = extractHeaders response
        /\ res_body r = (if (ar_status response =? 204)%Z
                         then Js.VUndefined else ar_data response))
  /\ (forall thrown,
        fst (executeRequest host t timeout w) = Rejected thrown ->
        exists e,
          thrown = ThrownNetSuite e
          /\ status e = ar_status response
          /\ requestUrl e = Some (ctx_url (context w))
          /\ requestMethod e = Some (ctx_method (context w))
          /\ Js.nullish (message e) = false
          /\ Js.nullish (code e) = false
          /\ Js.nullish (details e) = false
          /\ ((forall fields, ar_data response <> Js.VObject fields) ->
              message e = Js.VString ("HTTP " ++ pretty (ar_status response))%string
              /\ code e = Js.VString ("HTTP_" ++ pretty (ar_status response))%string)
          /\ ((500 <= ar_status response)%Z -> isRetryable e = true)).
Proof.
  intros Hreply.
  destruct (MoreTransportFacts.executeRequest_settles host t timeout w)
    as (duration & E).
  rewrite Hreply in E. rewrite E.
  destruct (400 <=? ar_status response)%Z eqn:H4.
  - split; [reflexivity|]. split; [intros r [=]|].
    intros thrown [= <-]. eexists. split; [reflexivity|].
    unfold error_of_response; cbn [status requestUrl requestMethod message code details].
    repeat split.
    + unfold error_message.
      unfold Js.coalesce at 1.
      destruct (Js.nullish (Js.coalesce _ _)) eqn:N; [reflexivity | exact N].
    + unfold error_code.
      unfold Js.coalesce at 1.
      destruct (Js.nullish (Js.coalesce _ _)) eqn:N; [reflexivity | exact N].
    + unfold Js.coalesce.
      destruct (Js.nullish (ar_data response)) eqn:N; [reflexivity | exact N].
    + destruct (ar_data response) as [| |b|q| |s|fields|items] eqn:D;
        try reflexivity.
      exfalso. now apply (H fields).
    + destruct (ar_data response) as [| |b|q| |s|fields|items] eqn:D;
        try reflexivity.
      exfalso. now apply (H fields).
    + intros H5. unfold isRetryable; cbn [status].
      assert (E5 : (500 <=? ar_status response)%Z = true) by (apply Z.leb_le; lia).
      now rewrite E5.
  - split; [reflexivity|]. split; [|intros thrown [=]].
    intros r [= <-]. repeat split.
Qed.

(** A 404 with an HTML body. *)
Lemma executeRequest_on_response_witness :
  is_rejected
    (fst (executeRequest (answering NOT_FOUND_PAGE) PLAIN 30000
            (attempting "https://x/y")))
  = true.
Proof.
  destruct (executeRequest_on_response (answering NOT_FOUND_PAGE) PLAIN 30000
              (attempting "https://x/y") NOT_FOUND_PAGE eq_refl) as (H & _).
  exact H.
Defined.

(** ** [extractHeaders] *)

(** X7.  [extractHeaders] keeps the headers whose value is a string and
    drops every other one: a name is in the result with the value [s]
    exactly when the response has the header with the string [s]
    (header names being distinct, as the keys of an object are); a
    response without headers gives the empty record. *)
Theorem extractHeaders_keeps_exactly_string_headers
    (response : AxiosResponse) (entries : list (string * Js.Value)) :
  ar_headers response = Some entries ->
  NoDup (fst <$> entries) ->
  forall key s,
    extractHeaders response !! key = Some s <-> In (key, Js.VString s) entries.
Proof.
  intros Hh Hnd key s. unfold extractHeaders. rewrite Hh.
  rewrite (MoreTransportFacts.fold_string_headers entries Hnd).
  rewrite lookup_empty. split; [intros [H|[[=] _]]; exact H | intros H; now left].
Qed.

(** The list-valued [set-cookie] header is dropped. *)
Lemma extractHeaders_keeps_exactly_string_headers_witness :
  extractHeaders WITH_HEADERS !! "x-request-id" = Some "42"
  <-> In ("x-request-id", Js.VString "42")
        [("content-type", Js.VString "application/json");
         ("set-cookie", Js.VArray [Js.VString "a=1"; Js.VString "b=2"]);
         ("x-request-id", Js.VString "42")].
Proof.
  apply (extractHeaders_keeps_exactly_string_headers WITH_HEADERS _ eq_refl).
  apply (bool_decide_unpack _). vm_compute. exact I.
Defined.

(** ** [HttpTransport.request] *)

(** X8.  Without middleware, and with a retry count that is not
    negative, whatever [request] throws is a [NetSuiteError]: no axios
    error and no other exception reaches the caller.  Unless axios
    threw that [NetSuiteError] itself, it names the url and the method
    of the call. *)
Theorem request_rejects_only_with_NetSuiteError
    (host : Host) (t : Transport) (url : string) (options : RequestOptions)
    (w : World) (thrown : Thrown) :
  middlewares t = [] ->
  (0 <= retries_of t options)%Z ->
  fst (request host t url options w) = Rejected thrown ->
  exists e,
    thrown = ThrownNetSuite e
    /\ (plain_failures host ->
        requestUrl e = Some url /\ requestMethod e = Some (method_of options)).
Proof.
  intros Hnil HN Hrej.
  destruct (request host t url options w) as [o w'] eqn:E.
  cbn [fst] in Hrej. subst o. unfold request, withRetry in E.
  apply MoreTransportFacts.retry_loop_rejected in E.
  - destruct E as (w1 & w2 & E).
    apply (RequestFacts.attempt_rejects_with_NetSuiteError host t url options w1);
      [exact Hnil | now rewrite E].
  - cbn [maxRetries merge retry_config p_maxRetries default]. lia.
  - cbn [maxRetries merge retry_config p_maxRetries default]. exact HN.
Qed.

(** A host without a network. *)
Lemma request_rejects_only_with_NetSuiteError_witness :
  exists e,
    fst (request OFFLINE PLAIN_ONE_RETRY "https://x/y" NO_OPTIONS INITIAL_WORLD)
    = Rejected (ThrownNetSuite e).
Proof.
  destruct (request_rejects_only_with_NetSuiteError OFFLINE PLAIN_ONE_RETRY
              "https://x/y" NO_OPTIONS INITIAL_WORLD
              (ThrownNetSuite (network_error "offline"
                                 (mkRequestContext "https://x/y" GET ∅ Js.VUndefined [])))
              eq_refl ltac:(vm_compute; discriminate) eq_refl)
    as (e & He & _).
  exists e. now rewrite <- He.
Defined.

(** X9.  When every request fails in a retryable way (a status of 500
    or more, or a failure below HTTP), a call without middleware uses
    all it has: with [maxRetries = N >= 0] it signs [N + 1] times, puts
    [N + 1] requests on the wire, sleeps [N] times, and throws a
    retryable [NetSuiteError]. *)
Theorem request_exhausts_retries_on_transient_failures
    (host : Host) (t : Transport) (url : string) (options : RequestOptions)
    (w : World) :
  always_transient host ->
  middlewares t = [] ->
  (0 <= retries_of t options)%Z ->
  let r := request host t url options w in
  signature_count (added w (snd r)) = Z.to_nat (retries_of t options + 1)
  /\ length (sends_of (added w (snd r))) = Z.to_nat (retries_of t options + 1)
  /\ length (sleeps_in (added w (snd r))) = Z.to_nat (retries_of t options)
  /\ exists e, fst r = Rejected (ThrownNetSuite e) /\ isRetryable e = true.
Proof.
  intros Htr Hnil HN r.
  destruct (RequestFacts.transient_loop host t url options Hnil Htr
              (Z.to_nat (retries_of t options + 1)) 0 w ltac:(lia)
              ltac:(rewrite Z.sub_0_r; lia))
    as (_ & Hn & Hs & Hz & He).
  rewrite Z.sub_0_r in Hn, Hs, Hz.
  subst r. unfold request, withRetry.
  repeat split; assumption.
Qed.

(** A server that always answers 500, and one retry: two signatures,
    two requests, one sleep. *)
Lemma request_exhausts_retries_on_transient_failures_witness :
  let r := request (answering SERVER_ERROR) PLAIN_ONE_RETRY "https://x/y"
             NO_OPTIONS INITIAL_WORLD in
  signature_count (added INITIAL_WORLD (snd r)) = 2%nat
  /\ length (sends_of (added INITIAL_WORLD (snd r))) = 2%nat
  /\ length (sleeps_in (added INITIAL_WORLD (snd r))) = 1%nat.
Proof.
  destruct (request_exhausts_retries_on_transient_failures
              (answering SERVER_ERROR) PLAIN_ONE_RETRY "https://x/y"
              NO_OPTIONS INITIAL_WORLD
              ltac:(intros tr cfg; simpl; lia) eq_refl
              ltac:(vm_compute; discriminate))
    as (H1 & H2 & H3 & _).
  repeat split; assumption.
Defined.

(** X10.  Whatever the middlewares are: when the first attempt resolves,
    or throws a [NetSuiteError] that is not retryable, [request] is that
    attempt and nothing more: same outcome, same world (the retry loop
    adds no warning, no draw and no sleep to it), one signature. *)
Theorem request_is_first_attempt_when_final
    (host : Host) (t : Transport) (url : string) (options : RequestOptions)
    (w : World) :
  (0 <= retries_of t options)%Z ->
  final (fst (attempt host t url (method_of options) options
                (default (rc_timeout (config t)) (opt_timeout options)) w)) = true ->
  request host t url options w
  = attempt host t url (method_of options) options
      (default (rc_timeout (config t)) (opt_timeout options)) w
  /\ signature_count (added w (snd (request host t url options w))) = 1%nat.
Proof.
  intros HN Hfinal.
  rewrite (RequestFacts.final_attempt_ends_run host t url options w HN Hfinal).
  split; [reflexivity|].
  destruct (TransportFacts.attempt_signs_once host t url (method_of options) options
              (default (rc_timeout (config t)) (opt_timeout options)) w)
    as (l & Hl & Hc).
  rewrite (SigningFacts.added_app _ _ _ Hl).
  change (EvSign url (method_of options) :: l)
    with ([EvSign url (method_of options)] ++ l).
  rewrite SigningFacts.signature_count_app, Hc. reflexivity.
Qed.

(** A 404 is not retried. *)
Lemma request_is_first_attempt_when_final_witness :
  signature_count
    (added INITIAL_WORLD
       (snd (request (answering NOT_FOUND_PAGE) PLAIN "https://x/y" NO_OPTIONS
               INITIAL_WORLD)))
  = 1%nat.
Proof.
  apply (request_is_first_attempt_when_final (answering NOT_FOUND_PAGE) PLAIN
           "https://x/y" NO_OPTIONS INITIAL_WORLD).
  - vm_compute. discriminate.
  - reflexivity.
Defined.

(** X11.  End to end, without middleware: when the network answers with
    a status below 400, [request] resolves after one signature and one
    network call, without sleeping.  The request on the wire is that of
    the context of that attempt, and the result carries the status, the
    string headers and the data of the response ([undefined] for a
    204). *)
Theorem request_success_without_middleware
    (host : Host) (t : Transport) (url : string) (options : RequestOptions)
    (w : World) (response : AxiosResponse) :
  answers host response ->
  (ar_status response < 400)%Z ->
  middlewares t = [] ->
  (0 <= retries_of t options)%Z ->
  let r := request host t url options w in
  (exists result,
      fst r = Resolved result
      /\ resp_status result = ar_status response
      /\ resp_headers result = extractHeaders response
      /\ data result = (if (ar_status response =? 204)%Z
                        then Js.VUndefined else ar_data response))
  /\ sends_of (added w (snd r))
     = [axios_config
          (context_of_attempt host t url options (signature_count (trace w)))
          (default (rc_timeout (config t)) (opt_timeout options))]
  /\ signature_count (added w (snd r)) = 1%nat
  /\ sleeps_in (added w (snd r)) = [].
Proof.
  intros Hans Hok Hnil HN r.
  destruct (MoreTransportFacts.attempt_settles host t url options Hnil w)
    as (duration & E).
  cbv zeta in E. unfold reply in E. rewrite Hans in E.
  assert (H4 : (400 <=? ar_status response)%Z = false) by (apply Z.leb_gt; lia).
  rewrite H4 in E.
  destruct (MoreTransportFacts.attempt_counts host t url options Hnil w)
    as (_ & Hs & Hz & Hn).
  subst r.
  rewrite (RequestFacts.final_attempt_ends_run host t url options w HN)
    by (now rewrite E).
  split; [|repeat split; assumption].
  rewrite E. eexists. split; [reflexivity|]. repeat split.
Qed.

(** A deletion answered with 204: the result has no data. *)
Lemma request_success_without_middleware_witness :
  exists result,
    fst (request (answering NO_CONTENT) PLAIN "https://x/y" NO_OPTIONS INITIAL_WORLD)
    = Resolved result
    /\ data result = Js.VUndefined.
Proof.
  destruct (request_success_without_middleware (answering NO_CONTENT) PLAIN
              "https://x/y" NO_OPTIONS INITIAL_WORLD NO_CONTENT
              ltac:(intros tr cfg; reflexivity) ltac:(simpl; lia) eq_refl
              ltac:(vm_compute; discriminate))
    as ((result & Hr & _ & _ & Hd) & _).
  exists result. split; [exact Hr | exact Hd].
Defined.

(** ** [executeMiddlewareChain] *)

(** X12.  Any number of middlewares of the usual shape (do something,
    rewrite the request, await [next()], do something, rewrite the
    response) nest like the layers of an onion.  On the way in they run
    in registration order, each seeing the context as the ones before
    it left it; then the final handler runs; when it resolves, the way
    out is in reverse order, the innermost middleware rewriting the
    response first; when it throws, no middleware runs its second half
    and the error comes out as it is. *)
Theorem middleware_chain_is_an_onion
    (layers : list Onion.Layer)
    (finalHandler : Async World ResponseContext) (w : World) :
  executeMiddlewareChain (Onion.layer_middleware <$> layers) finalHandler w
  = match finalHandler (Onion.inward layers w) with
    | (Resolved r, w_h) =>
        (Resolved (Onion.outward_response layers r), Onion.outward layers w_h)
    | (Rejected e, w_h) => (Rejected e, w_h)
    end.
Proof.
  unfold executeMiddlewareChain.
  rewrite length_fmap.
  rewrite (OnionFacts.next_onion layers finalHandler (length layers) 0 w)
    by lia.
  rewrite drop_0.
  destruct (finalHandler _) as [[r|e] w_h]; reflexivity.
Qed.

(** X13.  A middleware that never calls [next()] short-circuits the
    chain: what the call does and returns is the same whatever
    middlewares are registered after it and whatever the final handler
    is, and it puts no request on the wire. *)
Theorem middleware_without_next_short_circuits
    (m : Middleware) (rest rest' : list Middleware)
    (finalHandler finalHandler' : Async World ResponseContext) (w : World) :
  Onion.terminal m ->
  executeMiddlewareChain (m :: rest) finalHandler w
  = executeMiddlewareChain (m :: rest') finalHandler' w
  /\ sends_of (added w (snd (executeMiddlewareChain (m :: rest) finalHandler w)))
     = [].
Proof.
  intros Hm. split.
  - unfold executeMiddlewareChain. cbn [length next Nat.leb lookup].
    cbn [list_lookup].
    now rewrite (OnionFacts.run_terminal m
                   (next (m :: rest) finalHandler (length rest))
                   (next (m :: rest') finalHandler' (length rest')) Hm).
  - destruct (OnionFacts.chain_terminal_trace m rest finalHandler w Hm)
      as (l & Hl & Hs & _).
    now rewrite (SigningFacts.added_app _ _ _ Hl).
Qed.

(** A cache in front of a server: on a hit, the logging middleware
    behind it and the server are not reached. *)
Lemma middleware_without_next_short_circuits_witness :
  executeMiddlewareChain
    [Onion.cache_only (fun _ => Some (mkResponseContext 200 ∅ Js.VNull 0));
     logging "in" "out"]
    (executeRequest (answering SERVER_ERROR) PLAIN 30000) INITIAL_WORLD
  = executeMiddlewareChain
      [Onion.cache_only (fun _ => Some (mkResponseContext 200 ∅ Js.VNull 0))]
      (handler "never" (mkResponseContext 500 ∅ Js.VNull 0)) INITIAL_WORLD.
Proof.
  apply (middleware_without_next_short_circuits
           (Onion.cache_only (fun _ => Some (mkResponseContext 200 ∅ Js.VNull 0)))
           [logging "in" "out"] []
           (executeRequest (answering SERVER_ERROR) PLAIN 30000)
           (handler "never" (mkResponseContext 500 ∅ Js.VNull 0))
           INITIAL_WORLD).
  constructor. intros c. cbn. repeat constructor.
Defined.

(** X14.  A transport whose first middleware never calls [next()], a
    cache or a stub, puts no request on the wire, whatever the call,
    its retry count and the outcome of its attempts. *)
Theorem request_behind_short_circuit_sends_nothing
    (host : Host) (t : Transport) (m : Middleware) (rest : list Middleware)
    (url : string) (options : RequestOptions) (w : World) :
  middlewares t = m :: rest ->
  Onion.terminal m ->
  sends_of (added w (snd (request host t url options w))) = [].
Proof.
  intros Hms Hm.
  destruct (RequestFacts.short_circuit_run host t m rest url options w Hms Hm)
    as (l & Hl & Hs).
  now rewrite (SigningFacts.added_app _ _ _ Hl).
Qed.

(** A cache without entries throws an error that is not a
    [NetSuiteError]: every attempt is made, none reaches the server. *)
Lemma request_behind_short_circuit_sends_nothing_witness :
  sends_of
    (added INITIAL_WORLD
       (snd (request (answering SERVER_ERROR)
               (use (Onion.cache_only (fun _ => None)) PLAIN_ONE_RETRY)
               "https://x/y" NO_OPTIONS INITIAL_WORLD)))
  = [].
Proof.
  apply (request_behind_short_circuit_sends_nothing (answering SERVER_ERROR)
           (use (Onion.cache_only (fun _ => None)) PLAIN_ONE_RETRY)
           (Onion.cache_only (fun _ => None)) []
           "https://x/y" NO_OPTIONS INITIAL_WORLD eq_refl).
  constructor. intros c. cbn. constructor.
Defined.

(** ** [SuiteQLClient.query] *)

(** X15.  When [query] returns, every request it made was answered,
    and the result is put together from the pages alone: [items] are
    the rows of the pages in the order received, [pagesFetched] is the
    number of requests, [totalResults] is what the last page said (0
    without a request), and [hasMore] compares the two.  The offset of
    each request is the start offset plus the number of rows received
    before it. *)
Theorem query_result_assembles_pages {W} `{Runtime W} {T}
    (transport : PageTransport W T) (baseUrl : string)
    (fuel : nat) (sql : string) (options : SuiteQLOptions) (w : W)
    (result : SuiteQLResult T) :
  let run := query (recording transport) baseUrl fuel sql options ([], w) in
  let calls := fst (snd run) in
  fst run = Some (Resolved result) ->
  Forall Pages.answered calls
  /\ items result = Pages.rows_of calls
  /\ pagesFetched result = Z.of_nat (length calls)
  /\ totalResults result = Pages.last_total calls
  /\ hasMore result = (len (Pages.rows_of calls) <? Pages.last_total calls)%Z
  /\ (forall before c o later, calls = before ++ (c, o) :: later ->
        call_offset c
        = (default 0 (offset options) + len (Pages.rows_of before))%Z).
Proof.
  intros run calls Hres.
  destruct (SuiteQLFacts.recorded_query transport baseUrl fuel sql options [] w)
    as (l & exit & E & Hl & Hexit).
  subst calls run. rewrite E in *. cbn [fst snd app] in *.
  rewrite Hexit in Hres.
  destruct exit as [[st|e]|]; try discriminate.
  injection Hres as <-.
  destruct (PagesFacts.page_log_returns _ _ _ _ _ _ _ _ Hl) as (Ha & Hi & Hp & Ht).
  cbn [initial_state allItems st_pagesFetched st_totalResults app] in Hi, Hp, Ht.
  cbn [result_of items pagesFetched totalResults hasMore].
  unfold Pages.last_total. rewrite Hi, Hp, Ht.
  repeat split; try assumption; try reflexivity; try lia.
  intros before c o later Hsplit.
  destruct (SuiteQLFacts.page_log_limits _ _ _ _ _ _ _ _ Hl _ _ _ _ Hsplit)
    as (-> & _).
  cbn [call_offset page_call].
  destruct (PagesFacts.state_after_closed before (initial_state (T := T) options))
    as (_ & -> & _).
  reflexivity.
Qed.

(** Three rows in pages of two. *)
Lemma query_result_assembles_pages_witness :
  items (mkResult [1; 2; 3]%nat 3 2 false 0)
  = Pages.rows_of
      (fst (snd (query (recording three_rows) "https://1234567.example/suiteql"
                   5 "SELECT id FROM customer" PAGE_SIZE_2 ([], tt)))).
Proof.
  destruct (query_result_assembles_pages (H := idle_runtime) three_rows
              "https://1234567.example/suiteql" 5 "SELECT id FROM customer"
              PAGE_SIZE_2 tt (mkResult [1; 2; 3]%nat 3 2 false 0)
              ltac:(vm_compute; reflexivity))
    as (_ & Hi & _).
  exact Hi.
Defined.

(** X16.  With a finite [maxRows = m] the query terminates whatever the
    server answers: it makes at most [m] requests (none for [m <= 0]),
    so fuel for [m] iterations is always enough for it to settle. *)
Theorem query_terminates_with_finite_maxRows {W} `{Runtime W} {T}
    (transport : PageTransport W T) (baseUrl : string)
    (fuel : nat) (sql : string) (options : SuiteQLOptions) (m : Z) (w : W) :
  maxRows options = Some (Finite m) ->
  (Z.to_nat m <= fuel)%nat ->
  let run := query (recording transport) baseUrl fuel sql options ([], w) in
  fst run <> None
  /\ fst (query transport baseUrl fuel sql options w) <> None
  /\ (length (fst (snd run)) <= Z.to_nat m)%nat.
Proof.
  intros Hm Hfuel run.
  assert (HmR : default Infinity (maxRows options) = Finite m) by (now rewrite Hm).
  destruct (SuiteQLFacts.recorded_query transport baseUrl fuel sql options [] w)
    as (l & exit & E & Hl & Hexit).
  assert (Hplain : fst (query transport baseUrl fuel sql options w) <> None).
  { unfold query.
    pose proof (PagesFacts.query_loop_terminates transport baseUrl sql
                  (default 1000%Z (pageSize options))
                  (default Infinity (maxRows options)) (timeout options) m fuel
                  HmR (initial_state options) w) as Hterm.
    cbn [initial_state allItems] in Hterm.
    change (len (@nil T)) with 0%Z in Hterm. rewrite Z.sub_0_r in Hterm.
    specialize (Hterm Hfuel).
    destruct (query_loop _ _ _ _ _ _ _ _ w) as [[[st|e]|] w']; cbn [fst] in *;
      congruence. }
  subst run. rewrite E. cbn [fst snd app].
  split; [exact Hplain|]. split; [exact Hplain|].
  pose proof (PagesFacts.page_log_length _ _ _ _ _ m _ _ _
                HmR Hl) as Hlen.
  cbn [initial_state allItems] in Hlen.
  change (len (@nil T)) with 0%Z in Hlen. lia.
Qed.

(** [{ pageSize: 2, maxRows: 3 }] against a server with ten rows: two
    requests. *)
Lemma query_terminates_with_finite_maxRows_witness :
  (length (fst (snd (query (recording (counting_server 10))
                       "https://1234567.example/suiteql" 3
                       "SELECT id FROM customer" THREE_ROWS_BY_2 ([], tt))))
   <= 3)%nat.
Proof.
  destruct (query_terminates_with_finite_maxRows (H := idle_runtime) (counting_server 10)
              "https://1234567.example/suiteql" 3 "SELECT id FROM customer"
              THREE_ROWS_BY_2 3 tt eq_refl ltac:(simpl; lia)) as (_ & _ & Hn).
  exact Hn.
Defined.

(** X17.  The query does not cut pages: that [items] has at most
    [maxRows] rows rests on the server never handing out more rows
    than the limit of a request asks for.  Against such a server a
    query with [maxRows = m] returns at most [max(m, 0)] rows. *)
Theorem query_within_maxRows_when_limit_honoured {W} `{Runtime W} {T}
    (transport : PageTransport W T) (baseUrl : string)
    (fuel : nat) (sql : string) (options : SuiteQLOptions) (m : Z) (w : W)
    (result : SuiteQLResult T) :
  Pages.honours_limit transport ->
  maxRows options = Some (Finite m) ->
  fst (query transport baseUrl fuel sql options w) = Some (Resolved result) ->
  (len (items result) <= Z.max 0 m)%Z.
Proof.
  intros Hsrv Hm Hres. unfold query in Hres.
  assert (HmR : default Infinity (maxRows options) = Finite m) by (now rewrite Hm).
  pose proof (PagesFacts.query_loop_within_maxRows transport baseUrl sql
                (default 1000%Z (pageSize options))
                (default Infinity (maxRows options)) (timeout options) m fuel
                HmR Hsrv (initial_state options) w) as Hin.
  destruct (query_loop _ _ _ _ _ _ _ _ w) as [[[st|e]|] w']; cbn [fst] in *;
    try discriminate.
  injection Hres as <-. cbn [items result_of].
  apply Hin; [|reflexivity].
  cbn [initial_state allItems]. change (len (@nil T)) with 0%Z. lia.
Qed.

(** Ten rows, three allowed: three returned. *)
Lemma query_within_maxRows_when_limit_honoured_witness :
  (len (items (mkResult [0; 1; 2]%Z 10 2 true 0)) <= Z.max 0 3)%Z.
Proof.
  apply (query_within_maxRows_when_limit_honoured (H := idle_runtime) (counting_server 10)
           "https://1234567.example/suiteql" 3 "SELECT id FROM customer"
           THREE_ROWS_BY_2 3 tt (mkResult [0; 1; 2]%Z 10 2 true 0)).
  - intros call w Hpos. cbn.
    unfold len. rewrite length_fmap, length_seq. lia.
  - reflexivity.
  - reflexivity.
Defined.

(** X18.  An error of the transport ends the query at once and comes
    out as it is: the query throws exactly when its last request was
    rejected, with the error of that request, and a rejected request
    is never followed by another one.  The rows of the pages received
    before are not returned. *)
Theorem query_propagates_transport_error {W} `{Runtime W} {T}
    (transport : PageTransport W T) (baseUrl : string)
    (fuel : nat) (sql : string) (options : SuiteQLOptions) (w : W) :
  let run := query (recording transport) baseUrl fuel sql options ([], w) in
  let calls := fst (snd run) in
  (forall e, fst run = Some (Rejected e) ->
     exists before c, calls = before ++ [(c, Rejected e)]
                      /\ Forall Pages.answered before)
  /\ (forall before c e later, calls = before ++ (c, Rejected e) :: later ->
        later = [] /\ fst run = Some (Rejected e)).
Proof.
  intros run calls.
  destruct (SuiteQLFacts.recorded_query transport baseUrl fuel sql options [] w)
    as (l & exit & E & Hl & Hexit).
  subst calls run. rewrite E. cbn [fst snd app]. rewrite Hexit. split.
  - intros e He.
    destruct exit as [[st|e']|]; try discriminate.
    injection He as ->.
    exact (PagesFacts.page_log_throws _ _ _ _ _ _ _ _ Hl).
  - intros before c e later Hsplit.
    destruct (PagesFacts.page_log_rejection_is_last _ _ _ _ _ _ _ _ Hl
                _ _ _ _ Hsplit) as (-> & ->).
    split; reflexivity.
Qed.

(** ** [SuiteQLClient.queryOne] *)

(** X19.  [queryOne] never loops.  With a positive page size it makes
    exactly one request, for the start offset with the limit 1, and
    settles as that request does: the first row of the page, [null] for
    an empty page, or the error of the transport.  With a page size
    [<= 0] it makes no request and returns [null]. *)
Theorem queryOne_is_one_request {W} `{Runtime W} {T}
    (transport : PageTransport W T) (baseUrl : string)
    (fuel : nat) (sql : string) (options : SuiteQLOptions) (w : W) :
  (1 <= fuel)%nat ->
  Pages.queryOne transport baseUrl fuel sql options w
  = if (default 1000%Z (pageSize options) <=? 0)%Z
    then (Some (Resolved None), w)
    else
      match transport (Pages.first_row_call baseUrl sql options) w with
      | (Resolved page, w1) => (Some (Resolved (head (raw_items page))), w1)
      | (Rejected e, w1) => (Some (Rejected e), w1)
      end.
Proof.
  apply PagesFacts.queryOne_unfolded.
Qed.

(** The first of ten rows. *)
Lemma queryOne_is_one_request_witness :
  Pages.queryOne (counting_server 10) "https://1234567.example/suiteql" 1
    "SELECT id FROM customer" DEFAULTS tt
  = (Some (Resolved (Some 0%Z)), tt).
Proof.
  rewrite (queryOne_is_one_request (H := idle_runtime) (counting_server 10)
             "https://1234567.example/suiteql" 1 "SELECT id FROM customer"
             DEFAULTS tt ltac:(lia)).
  reflexivity.
Defined.

(** ** [SuiteQLClient.queryPages] *)

(** X20.  One call of [next()] on the generator makes at most one
    request.  A page it yields is never empty, and is the [items] of
    the page that request was answered with; a call that yields
    nothing, or throws, leaves the generator finished, and a finished
    generator makes no request and stays finished. *)
Theorem queryPages_next_step {W} `{Runtime W} {T}
    (transport : PageTransport W T) (baseUrl : string)
    (sql : string) (options : SuiteQLOptions)
    (g : Pages.Generator (T := T)) (calls : list (PageCall * Outcome (SuiteQLRawResponse T)))
    (w : W) :
  let step := Pages.pull (recording transport) baseUrl sql options g (calls, w) in
  (exists made, fst (snd step) = calls ++ made /\ (length made <= 1)%nat)
  /\ (forall page, fst (fst step) = Resolved (Some page) ->
        page <> []
        /\ exists c answer,
             fst (snd step) = calls ++ [(c, Resolved answer)]
             /\ raw_items answer = page)
  /\ (fst (fst step) <> Resolved None \/ snd (fst step) = Pages.Finished)
  /\ (is_rejected (fst (fst step)) = true -> snd (fst step) = Pages.Finished)
  /\ (g = Pages.Finished -> step = (Resolved None, Pages.Finished, (calls, w))).
Proof.
  intros step.
  assert (Hbody : forall off ty,
             let b := Pages.body (recording transport) baseUrl sql options off ty
                        (calls, w) in
             (exists made, fst (snd b) = calls ++ made /\ (length made <= 1)%nat)
             /\ (forall page, fst (fst b) = Resolved (Some page) ->
                   page <> []
                   /\ exists c answer,
                        fst (snd b) = calls ++ [(c, Resolved answer)]
                        /\ raw_items answer = page)
             /\ (fst (fst b) <> Resolved None \/ snd (fst b) = Pages.Finished)
             /\ (is_rejected (fst (fst b)) = true -> snd (fst b) = Pages.Finished)).
  { intros off ty b. subst b. unfold Pages.body.
    destruct (min_with_remaining _ _ _ <=? 0)%Z.
    { cbn. split; [exists []; rewrite app_nil_r; split; [reflexivity | cbn; lia]|].
      split; [intros page [=]|]. split; [now right | discriminate]. }
    unfold recording.
    destruct (transport _ w) as [[answer|e] w1].
    - destruct (len (raw_items answer) =? 0)%Z eqn:Hempty; cbn.
      + split; [eexists [_]; split; [reflexivity | cbn; lia]|].
        split; [intros page [=]|]. split; [now right | discriminate].
      + split; [eexists [_]; split; [reflexivity | cbn; lia]|].
        split; [|split; [left; discriminate | discriminate]].
        intros page [= <-]. split.
        * intros E. rewrite E in Hempty. discriminate.
        * eexists _, answer. split; reflexivity.
    - cbn. split; [eexists [_]; split; [reflexivity | cbn; lia]|].
      split; [intros page [=]|]. split; [left; discriminate | intros _; reflexivity]. }
  subst step. destruct g as [off ty|off ty page|]; cbn [Pages.pull].
  - destruct (Hbody off ty) as (H1 & H2 & H3 & H4).
    split; [exact H1|]. split; [exact H2|]. split; [exact H3|].
    split; [exact H4 | intros [=]].
  - destruct (negb _ || reached _ _).
    + cbn. split; [exists []; rewrite app_nil_r; split; [reflexivity | cbn; lia]|].
      split; [intros p [=]|]. split; [now right|]. split; [discriminate | intros [=]].
    + destruct (Hbody (off + len (raw_items page))%Z (ty + len (raw_items page))%Z)
        as (H1 & H2 & H3 & H4).
      split; [exact H1|]. split; [exact H2|]. split; [exact H3|].
    split; [exact H4 | intros [=]].
  - cbn. split; [exists []; rewrite app_nil_r; split; [reflexivity | cbn; lia]|].
    split; [intros p [=]|]. split; [now right|]. split; [discriminate | intros _; reflexivity].
Qed.

(** X21.  Consuming [queryPages] to the end is [query] page by page.
    Whenever [query] returns, a [for await] loop over the generator for
    the same statement and options ends in the same world (hence, seen
    through a recording transport, after the same requests), and the
    pages it sees, none of them empty, put one after the other are the
    [items] of the result; whenever [query] throws, the loop throws the
    same error in the same world. *)
Theorem queryPages_agrees_with_query {W} `{Runtime W} {T}
    (transport : PageTransport W T) (baseUrl : string)
    (fuel : nat) (sql : string) (options : SuiteQLOptions) (w : W) :
  match query transport baseUrl fuel sql options w with
  | (Some (Resolved result), w') =>
      exists pages,
        Pages.collect transport baseUrl sql options (S fuel)
          (Pages.queryPages options) w
        = (Some (Resolved pages), w')
        /\ concat pages = items result
        /\ Forall (fun page => page <> []) pages
  | (Some (Rejected e), w') =>
      Pages.collect transport baseUrl sql options (S fuel)
        (Pages.queryPages options) w
      = (Some (Rejected e), w')
  | (None, _) => True
  end.
Proof.
  unfold query.
  pose proof (PagesFacts.collect_matches_loop transport baseUrl sql options fuel
                (initial_state options) w) as Hloop.
  unfold Pages.page_size, Pages.max_rows in Hloop.
  destruct (query_loop _ _ _ _ _ _ _ _ w) as [[[st|e]|] w']; [| |exact I].
  - destruct Hloop as (pages & E & Hi & Hall).
    exists pages. split; [exact E|]. split; [|exact Hall].
    cbn [items result_of]. rewrite Hi. reflexivity.
  - exact Hloop.
Qed.

(** ** [NetSuiteClient.get], [post], [put], [patch], [delete] *)

(** X22.  The convenience methods fix the method, whatever the options
    say.  Behind middlewares that keep url, method and body, every
    request that [get] or [delete] puts on the wire, in every attempt,
    goes to the url of the call with that method and without data,
    even when the options carry a body; and every request of [post],
    [put] and [patch] carries the [body] argument when it is truthy and
    no data otherwise, never the body of the options. *)
Theorem client_conveniences_on_the_wire
    (host : Host) (t : Transport) (url : string) (body : Js.Value)
    (options : RequestOptions) (w : World) :
  Forall Clients.keeps_request (middlewares t) ->
  let sent := fun (call : Async World NetSuiteResponse) =>
                sends_of (added w (snd (call w))) in
  let data := if Js.truthy body then body else Js.VUndefined in
  Forall (Clients.on_wire url GET Js.VUndefined)
    (sent (Clients.client_get host t url options))
  /\ Forall (Clients.on_wire url DELETE Js.VUndefined)
       (sent (Clients.client_delete host t url options))
  /\ Forall (Clients.on_wire url POST data)
       (sent (Clients.client_post host t url body options))
  /\ Forall (Clients.on_wire url PUT data)
       (sent (Clients.client_put host t url body options))
  /\ Forall (Clients.on_wire url PATCH data)
       (sent (Clients.client_patch host t url body options)).
Proof.
  intros Hkeep sent data. subst sent data. cbv beta.
  unfold Clients.client_get, Clients.client_delete, Clients.client_post,
    Clients.client_put, Clients.client_patch.
  pose proof (fun o => ClientsFacts.request_wire host t url o w Hkeep) as Hwire.
  repeat split.
  - pose proof (Hwire (Clients.with_method GET options)) as Hw.
    unfold Clients.data_of in Hw. cbn in Hw.
    now rewrite andb_false_r in Hw.
  - pose proof (Hwire (Clients.with_method DELETE options)) as Hw.
    unfold Clients.data_of in Hw. cbn in Hw.
    now rewrite andb_false_r in Hw.
  - pose proof (Hwire (Clients.with_method_body POST body options)) as Hw.
    unfold Clients.data_of in Hw. cbn in Hw.
    now rewrite andb_true_r in Hw.
  - pose proof (Hwire (Clients.with_method_body PUT body options)) as Hw.
    unfold Clients.data_of in Hw. cbn in Hw.
    now rewrite andb_true_r in Hw.
  - pose proof (Hwire (Clients.with_method_body PATCH body options)) as Hw.
    unfold Clients.data_of in Hw. cbn in Hw.
    now rewrite andb_true_r in Hw.
Qed.

(** A [get] whose options smuggle in a body: nothing is sent with
    it. *)
Lemma client_conveniences_on_the_wire_witness :
  Forall (Clients.on_wire "https://x/y" GET Js.VUndefined)
    (sends_of
       (added INITIAL_WORLD
          (snd (Clients.client_get (answering NO_CONTENT) PLAIN "https://x/y"
                  (mkRequestOptions (Some POST) None (Js.VString "payload") None None)
                  INITIAL_WORLD)))).
Proof.
  destruct (client_conveniences_on_the_wire (answering NO_CONTENT) PLAIN
              "https://x/y" Js.VUndefined
              (mkRequestOptions (Some POST) None (Js.VString "payload") None None)
              INITIAL_WORLD (List.Forall_nil _)) as (Hget & _).
  exact Hget.
Defined.

(** ** [RecordClient] *)

(** X23.  The write operations of the record client always transmit the
    record: its body is an object, an object is truthy even when it
    has no fields, and the methods are POST, PATCH and PUT.  Behind
    middlewares that keep url, method and body, every request of
    [create], [update], [replace] and [upsert] goes to the url built
    from the normalized account id, record type and id with the method
    of the operation and the record as data, and every request of
    [delete] goes out with DELETE and no data. *)
Theorem record_operations_on_the_wire
    (host : Host) (t : Transport) (accountId recordType : string)
    (id : Clients.RecordId) (externalIdField externalIdValue : string)
    (fields : list (string * Js.Value)) (w : World) :
  Forall Clients.keeps_request (middlewares t) ->
  let sent := fun (call : Async World NetSuiteResponse) =>
                sends_of (added w (snd (call w))) in
  let base := ("https://" ++ normalizeAccountId accountId
                 ++ ".suitetalk.api.netsuite.com/services/rest/record/v1")%string in
  let record := Js.VObject fields in
  Forall (Clients.on_wire (base ++ "/" ++ recordType)%string POST record)
    (sent (Clients.record_create host t accountId recordType record))
  /\ Forall (Clients.on_wire
               (base ++ "/" ++ recordType ++ "/" ++ Clients.print_id id)%string
               PATCH record)
       (sent (Clients.record_update host t accountId recordType id record))
  /\ Forall (Clients.on_wire
               (base ++ "/" ++ recordType ++ "/" ++ Clients.print_id id)%string
               PUT record)
       (sent (Clients.record_replace host t accountId recordType id record))
  /\ Forall (Clients.on_wire
               (base ++ "/" ++ recordType ++ "/eid:" ++ externalIdField ++ "="
                  ++ externalIdValue)%string
               PUT record)
       (sent (Clients.record_upsert host t accountId recordType
                externalIdField externalIdValue record))
  /\ Forall (Clients.on_wire
               (base ++ "/" ++ recordType ++ "/" ++ Clients.print_id id)%string
               DELETE Js.VUndefined)
       (sent (Clients.record_delete host t accountId recordType id)).
Proof.
  intros Hkeep sent base record. subst sent base record. cbv beta.
  pose proof (fun u o => ClientsFacts.request_wire host t u o w Hkeep) as Hwire.
  repeat split.
  - exact (Hwire _ (Clients.method_and_body POST (Js.VObject fields))).
  - exact (Hwire _ (Clients.method_and_body PATCH (Js.VObject fields))).
  - exact (Hwire _ (Clients.method_and_body PUT (Js.VObject fields))).
  - exact (Hwire _ (Clients.method_and_body PUT (Js.VObject fields))).
  - exact (Hwire _ (Clients.method_and_body DELETE Js.VUndefined)).
Qed.

(** Creating a customer without fields in a sandbox account. *)
Lemma record_operations_on_the_wire_witness :
  Forall (Clients.on_wire
            "https://1234567-sb1.suitetalk.api.netsuite.com/services/rest/record/v1/customer"
            POST (Js.VObject []))
    (sends_of
       (added INITIAL_WORLD
          (snd (Clients.record_create (answering NO_CONTENT) PLAIN "1234567_SB1"
                  "customer" (Js.VObject []) INITIAL_WORLD)))).
Proof.
  destruct (record_operations_on_the_wire (answering NO_CONTENT) PLAIN
              "1234567_SB1" "customer" (Clients.IdNumber 1) "externalId" "x" []
              INITIAL_WORLD (List.Forall_nil _)) as (Hcreate & _).
  exact Hcreate.
Defined.

(** ** [validateConfig] *)

(** X24.  [validateConfig] returns no error exactly for the values that
    have the shape of a configuration: an object whose [auth] is an
    object holding each of the five credentials as a non-empty string,
    and whose [accountId] is a non-empty string.  Arrays, [null] and
    primitives are rejected in either place. *)
Theorem validateConfig_accepts_exactly_well_formed (config : Js.Value) :
  Validation.validateConfig config = [] <-> Validation.well_formed config.
Proof.
  unfold Validation.validateConfig, Validation.well_formed. split.
  - destruct (Validation.not_an_object config) eqn:H0; [discriminate|].
    apply ValidationFacts.not_an_object_false in H0
      as [(fields & ->)|(items & ->)]; [|discriminate].
    cbn [Js.get].
    destruct (Validation.not_an_object (Js.assoc "auth" fields)) eqn:H1;
      [discriminate|].
    intros H. apply app_eq_nil in H as [Hf Ha].
    apply ValidationFacts.not_an_object_false in H1
      as [(authFields & E)|(items & E)]; rewrite E in *.
    + exists fields, authFields. split; [reflexivity|]. split; [exact E|].
      split.
      * apply ValidationFacts.flat_map_nil in Hf.
        eapply Forall_impl; [exact Hf|]. cbn beta. intros field Hfield.
        apply ValidationFacts.not_a_string_false.
        cbn [Js.get] in Hfield.
        destruct (Validation.not_a_string (Js.assoc field authFields));
          [discriminate | reflexivity].
      * apply ValidationFacts.not_a_string_false.
        destruct (Validation.not_a_string (Js.assoc "accountId" fields));
          [discriminate | reflexivity].
    + discriminate.
  - intros (fields & authFields & -> & Hauth & Hfields & Hacc).
    cbn [Validation.not_an_object Js.truthy Validation.typeof_object negb orb Js.get].
    rewrite Hauth.
    cbn [Validation.not_an_object Js.truthy Validation.typeof_object negb orb Js.get].
    apply ValidationFacts.not_a_string_false in Hacc. rewrite Hacc.
    rewrite app_nil_r. apply ValidationFacts.flat_map_nil.
    eapply Forall_impl; [exact Hfields|]. cbn beta. intros field Hfield.
    apply ValidationFacts.not_a_string_false in Hfield. now rewrite Hfield.
Qed.

(** X25.  [validateConfig] reports every problem, each once.  A value
    that is not an object gets the single error "Config must be a
    non-null object".  For an object, the account id is checked whether
    or not [auth] is usable, a missing [auth] object is reported once
    instead of its five fields, and with an [auth] object each of the
    five credentials is reported exactly when it is not a non-empty
    string.  The list never has duplicates nor more than six
    entries. *)
Theorem validateConfig_reports_every_problem_once (config : Js.Value) :
  let errors := Validation.validateConfig config in
  let auth := Js.get config "auth" in
  NoDup errors
  /\ (length errors <= 6)%nat
  /\ (Validation.not_an_object config = true ->
      errors = ["Config must be a non-null object"])
  /\ (Validation.not_an_object config = false ->
      ("accountId is required and must be a non-empty string" ∈ errors
       <-> Validation.not_a_string (Js.get config "accountId") = true)
      /\ ("auth is required and must be an object" ∈ errors
          <-> Validation.not_an_object auth = true)
      /\ (Validation.not_an_object auth = false ->
          Forall (fun field =>
                    Validation.no_field field ∈ errors
                    <-> Validation.not_a_string (Js.get auth field) = true)
            Validation.requiredFields)).
Proof.
  intros errors auth. subst errors auth.
  rewrite ValidationFacts.validateConfig_report.
  unfold Validation.requiredFields.
  cbn [fmap list_fmap].
  rewrite !Forall_cons, Forall_nil. cbn beta.
  generalize (Validation.not_an_object config).
  generalize (Validation.not_an_object (Js.get config "auth")).
  generalize (Validation.not_a_string (Js.get config "accountId")).
  generalize (Validation.not_a_string (Js.get (Js.get config "auth") "consumerKey")).
  generalize (Validation.not_a_string (Js.get (Js.get config "auth") "consumerSecret")).
  generalize (Validation.not_a_string (Js.get (Js.get config "auth") "tokenKey")).
  generalize (Validation.not_a_string (Js.get (Js.get config "auth") "tokenSecret")).
  generalize (Validation.not_a_string (Js.get (Js.get config "auth") "realm")).
  intros m5 m4 m3 m2 m1 ma b1 b0.
  destruct b0, b1, ma, m1, m2, m3, m4, m5;
    apply (bool_decide_unpack _); vm_compute; exact I.
Qed.

(** ** [escapeValue] and [SuiteQLBuilder] *)

(** X26.  What [escapeValue] writes for a string is one string literal
    and nothing more.  Read the way SQL reads a literal (two quotes in
    a row are one quote of the text, a quote on its own ends the
    literal), the output followed by any text that does not begin with
    a quote gives back exactly the value and leaves exactly that text:
    no quote inside the value can end the literal early.  Booleans are
    written as the literals ['T'] and ['F']. *)
Theorem escapeValue_reads_back_as_one_literal (s rest : string) (b : bool) :
  Builder.starts_with_quote rest = false ->
  Builder.read_literal (Builder.escapeValue (Builder.SqlString s) ++ rest)%string
  = Some (s, rest)
  /\ Builder.read_literal (Builder.escapeValue (Builder.SqlBool b) ++ rest)%string
     = Some (if b then "T" else "F", rest).
Proof.
  intros Hrest. split.
  - change (Builder.escapeValue (Builder.SqlString s) ++ rest)%string
      with (String Builder.QUOTE
              ((Builder.double_quotes s ++ String Builder.QUOTE EmptyString) ++ rest)).
    cbn [Builder.read_literal]. rewrite Ascii.eqb_refl.
    rewrite BuilderFacts.append_closing.
    now apply BuilderFacts.scan_double_quotes.
  - pose proof (BuilderFacts.scan_double_quotes (if b then "T" else "F") rest Hrest)
      as Hscan.
    destruct b; exact Hscan.
Qed.

(** A name with an apostrophe, and an attempt to close the literal. *)
Lemma escapeValue_reads_back_as_one_literal_witness :
  Builder.read_literal
    (Builder.escapeValue (Builder.SqlString "O'Brien' OR '1'='1") ++ " AND x = 1")%string
  = Some ("O'Brien' OR '1'='1", " AND x = 1").
Proof.
  destruct (escapeValue_reads_back_as_one_literal "O'Brien' OR '1'='1" " AND x = 1"
              true eq_refl) as (H & _).
  exact H.
Defined.

(** X27.  For any chain of calls on a fresh builder, [build] depends on
    the [select] and [from] calls as follows.  It throws "SELECT clause
    is required" exactly when the [select] calls together name no
    column.  Otherwise it throws "FROM clause is required" exactly when
    there is no [from] call or the last one wrote an empty table; the
    last [from] call wins, the [select] calls add up.  In every other
    case it returns a statement. *)
Theorem build_after_a_chain_of_calls (calls : list Builder.Call) :
  let table := default "" (last (Builder.tables calls)) in
  (Builder.build (Builder.chain calls) = Rejected Builder.SELECT_REQUIRED
   <-> Builder.selected calls = [])
  /\ (Builder.build (Builder.chain calls) = Rejected Builder.FROM_REQUIRED
      <-> Builder.selected calls <> [] /\ table = "")
  /\ ((exists sql, Builder.build (Builder.chain calls) = Resolved sql)
      <-> Builder.selected calls <> [] /\ table <> "")
  /\ Builder._select (Builder.chain calls) = Builder.selected calls
  /\ Builder._from (Builder.chain calls) = table.
Proof.
  intros table. subst table.
  destruct (BuilderFacts.fold_calls calls Builder.suiteql) as [Hs Hf].
  cbn [Builder._select Builder._from Builder.suiteql app] in Hs, Hf.
  fold (Builder.chain calls) in Hs, Hf.
  unfold Builder.build. rewrite Hs, Hf.
  destruct (Builder.selected calls) as [|column columns].
  - split; [split; reflexivity|].
    split; [split; [intros [=] | intros [Hne _]; now destruct Hne]|].
    split; [split; [intros (sql & [=]) | intros [Hne _]; now destruct Hne]|].
    split; reflexivity.
  - destruct (String.eqb_spec (default "" (last (Builder.tables calls))) "")
      as [E|E].
    + split; [split; intros [=]|].
      split; [split; [intros _; split; [discriminate | exact E] | reflexivity]|].
      split; [split; [intros (sql & [=]) | intros [_ Hne]; now destruct Hne]|].
      split; reflexivity.
    + split; [split; intros [=]|].
      split; [split; [intros [=] | intros [_ Hempty]; now destruct E]|].
      split; [split; [intros _; split; [discriminate | exact E]
                     | intros _; eexists; reflexivity]|].
      split; reflexivity.
Qed.

(** ** [ResponseCache] *)

(** X28.  An entry is served from the moment it is set up to and
    including the instant [now + ttlSeconds * 1000] and not after.  A
    read after that instant answers [null] and removes the entry, so
    that the cache is then as if the key had never been set.  Setting a
    key affects the reads of no other key, and a read never makes the
    cache larger. *)
Theorem cache_serves_an_entry_until_it_expires
    (cache : Cache.ResponseCache) (key : string) (data : Js.Value)
    (ttlSeconds : Q) (now later : Z) :
  let stored := Cache.cache_set key data ttlSeconds now cache in
  let deadline := (inject_Z now + ttlSeconds * 1000)%Q in
  Cache.cache_get key later stored
  = (if Qle_bool (inject_Z later) deadline
     then (Some data, stored)
     else (None, delete key cache))
  /\ stored !! key = Some (Cache.mkCacheEntry data deadline)
  /\ (forall other, other <> key ->
        fst (Cache.cache_get other later stored) = fst (Cache.cache_get other later cache))
  /\ (Cache.cache_size (snd (Cache.cache_get key later cache)) <= Cache.cache_size cache)%nat.
Proof.
  intros stored deadline. subst stored deadline.
  unfold Cache.cache_get, Cache.cache_set, Cache.cache_size, Cache.ResponseCache in *.
  rewrite (lookup_insert_eq cache key).
  unfold Cache.expired. cbn [Cache.expiresAt Cache.entry_data].
  split; [|split; [reflexivity|split]].
  - destruct (Qle_bool _ _); cbn [negb]; [reflexivity|].
    now rewrite delete_insert_eq.
  - intros other Hother. rewrite lookup_insert_ne by congruence.
    destruct (cache !! other) as [entry|]; [|reflexivity].
    destruct (negb _); reflexivity.
  - destruct (cache !! key) as [entry|] eqn:E; [|cbn; lia].
    destruct (negb _); cbn [snd]; [|lia].
    rewrite map_size_delete, E. lia.
Qed.

(** ** [RateLimiter] *)

(** X29.  Under a clock that does not go back, the limiter counts
    exactly the requests of the sliding window.  After requests
    recorded at the times [times], in order and none later than [now],
    the timestamps that pruning at [now] keeps are the recorded times
    later than [now - windowMs]; [canMakeRequest] holds exactly when
    there are fewer of them than [maxRequests], and
    [getRemainingRequests] is the difference, never below 0.
    [recordRequest] itself never refuses a request. *)
Theorem limiter_counts_the_sliding_window
    (times : list Z) (maxRequests windowMs : option Z) (now : Z) :
  StronglySorted Z.le times ->
  Forall (fun t => (t <= now)%Z) times ->
  let rl := Limiter.recorded times (Limiter.newRateLimiter maxRequests windowMs) in
  let live := Limiter.in_window (default 60000%Z windowMs) now times in
  Limiter.timestamps (snd (Limiter.canMakeRequest now rl)) = live
  /\ fst (Limiter.canMakeRequest now rl)
     = (Z.of_nat (length live) <? default 100%Z maxRequests)%Z
  /\ fst (Limiter.getRemainingRequests now rl)
     = Z.max 0 (default 100%Z maxRequests - Z.of_nat (length live))
  /\ Limiter.timestamps (Limiter.recordRequest now rl) = live ++ [now].
Proof.
  intros Hsorted Hnow rl live. subst rl live.
  pose proof (LimiterFacts.recorded_window times (default 100%Z maxRequests)
                (default 60000%Z windowMs) now Hsorted Hnow) as Hw.
  destruct (LimiterFacts.recorded_settings times
              (Limiter.newRateLimiter maxRequests windowMs)) as [Hm _].
  unfold Limiter.newRateLimiter in *. cbn [Limiter.maxRequests] in Hm.
  unfold Limiter.canMakeRequest, Limiter.getRemainingRequests,
    Limiter.recordRequest.
  cbn [fst snd]. rewrite Hw.
  cbn [Limiter.pruneExpired Limiter.maxRequests Limiter.timestamps]. rewrite Hm.
  repeat split.
Qed.

(** Three requests, a window of 15 ms, the clock at 25: one request is
    in the window. *)
Lemma limiter_counts_the_sliding_window_witness :
  Limiter.timestamps
    (snd (Limiter.canMakeRequest 25
            (Limiter.recorded THREE_REQUESTS (Limiter.newRateLimiter (Some 2%Z) (Some 15%Z)))))
  = [20%Z].
Proof.
  destruct (limiter_counts_the_sliding_window THREE_REQUESTS (Some 2%Z) (Some 15%Z) 25)
    as (H & _).
  - repeat constructor; lia.
  - repeat constructor; lia.
  - exact H.
Defined.

(** X30.  The waiting time that the limiter announces is enough.  For a
    limiter with [maxRequests > 0] that holds no more live requests
    than that, [getTimeUntilNextSlot] is a number, not negative, and 0
    exactly when a request can be made now; and after waiting that long
    a request can be made. *)
Theorem limiter_wait_opens_a_slot (rl : Limiter.RateLimiter) (now : Z) :
  (0 < Limiter.maxRequests rl)%Z ->
  (Z.of_nat (length (Limiter.timestamps (Limiter.pruneExpired now rl)))
   <= Limiter.maxRequests rl)%Z ->
  exists wait,
    fst (Limiter.getTimeUntilNextSlot now rl) = Some wait
    /\ (0 <= wait)%Z
    /\ (wait = 0%Z <-> fst (Limiter.canMakeRequest now rl) = true)
    /\ fst (Limiter.canMakeRequest (now + wait)
              (snd (Limiter.getTimeUntilNextSlot now rl))) = true.
Proof.
  intros Hmax Hlive.
  unfold Limiter.getTimeUntilNextSlot, Limiter.canMakeRequest, Limiter.pruneExpired
    in *.
  cbn [Limiter.timestamps Limiter.maxRequests Limiter.windowMs fst snd] in *.
  destruct (LimiterFacts.shift_while_suffix (now - Limiter.windowMs rl)
              (Limiter.timestamps rl)) as (n & _ & _ & _ & Hhead).
  remember (Limiter.shift_while (now - Limiter.windowMs rl) (Limiter.timestamps rl))
    as ts eqn:Ets.
  destruct (Z.of_nat (length ts) <? Limiter.maxRequests rl)%Z eqn:Hfree.
  - exists 0%Z. cbn [fst snd Limiter.timestamps Limiter.maxRequests Limiter.windowMs].
    rewrite Z.add_0_r. subst ts.
    rewrite LimiterFacts.shift_while_idempotent, Hfree.
    repeat split; lia.
  - apply Z.ltb_ge in Hfree.
    destruct ts as [|oldest r]; [cbn in Hfree; lia|].
    exists (Z.max 0 (oldest + Limiter.windowMs rl - now)).
    cbn [fst snd Limiter.timestamps Limiter.maxRequests Limiter.windowMs].
    split; [reflexivity|]. split; [lia|]. split; [split; [lia | discriminate]|].
    replace (now + Z.max 0 (oldest + Limiter.windowMs rl - now) - Limiter.windowMs rl)%Z
      with oldest by lia.
    cbn [Limiter.shift_while]. rewrite Z.leb_refl.
    pose proof (LimiterFacts.shift_while_length oldest r) as Hlen.
    cbn [length] in Hlive, Hfree. apply Z.ltb_lt. lia.
Qed.

(** A limiter for two requests per 15 ms with requests at 10 and 20:
    at 22 one has to wait 3 ms. *)
Lemma limiter_wait_opens_a_slot_witness :
  exists wait,
    fst (Limiter.getTimeUntilNextSlot 22
           (Limiter.mkRateLimiter [10; 20]%Z 2 15)) = Some wait
    /\ fst (Limiter.canMakeRequest (22 + wait)
              (snd (Limiter.getTimeUntilNextSlot 22
                      (Limiter.mkRateLimiter [10; 20]%Z 2 15)))) = true.
Proof.
  destruct (limiter_wait_opens_a_slot (Limiter.mkRateLimiter [10; 20]%Z 2 15) 22
              ltac:(simpl; lia) ltac:(vm_compute; discriminate))
    as (wait & Hw & _ & _ & Hcan).
  exists wait. split; [exact Hw | exact Hcan].
Defined.

End Extras.
